(** * tsickle: a shallow embedding of the command-line pipeline coordinator
      (main.ts), the decorator downleveler (decorator-annotator.ts) and the
      cycle handling of the type translator, with the properties the
      specification states about them. *)

From Stdlib Require Import List String Ascii Bool Arith Lia ZArith.
Import ListNotations.
Open Scope string_scope.
Open Scope list_scope.

Set Implicit Arguments.
Set Warnings "-register-all".

(** string concatenation, JavaScript's [+] on strings *)
Infix "+++" := String.append (right associativity, at level 60).

(** ** JavaScript strings *)

Module JsString.

(** the double quote character, as a string *)
Definition dquote : string := String (ascii_of_nat 34) EmptyString.

(** the line feed, as a string *)
Definition nl : string := String (ascii_of_nat 10) EmptyString.

(** [s.substr(-n)]: the last [n] characters (all of [s] when it is shorter). *)
Definition substr_last (n : nat) (s : string) : string :=
  substring (String.length s - n) n s.

(** [s.endsWith(suffix)], the test behind the anchored regular expressions. *)
Definition endsWith (suffix s : string) : bool :=
  String.eqb (substr_last (String.length suffix) s) suffix.

(** [s.replace(/\.ts$/, '.js')] *)
Definition replace_ts_js (s : string) : string :=
  if endsWith ".ts" s
  then substring 0 (String.length s - 3) s +++ ".js"
  else s.

(** [s.includes(sub)] *)
Definition includes (sub s : string) : bool :=
  match index 0 sub s with
  | Some _ => true
  | None => false
  end.

(** [s.substring(from, to)] and [s.slice(from, to)] for [0 <= from], [0 <= to];
    nothing is copied when [to <= from] ([slice]) *)
Definition slice (from to : nat) (s : string) : string :=
  substring from (to - from) s.

(** truthiness of a string value that may be [undefined] *)
Definition truthy (o : option string) : bool :=
  match o with
  | Some s => negb (String.eqb s EmptyString)
  | None => false
  end.

(** [a || b] on possibly undefined strings *)
Definition or_else (o : option string) (d : string) : string :=
  if truthy o then match o with Some s => s | None => d end else d.

End JsString.

(** truthiness of a boolean value that may be [undefined] *)
Definition truthyB (o : option bool) : bool :=
  match o with
  | Some b => b
  | None => false
  end.

(** ** JavaScript [Map<string, V>]: insertion ordered, [set] overwrites in place *)

Module JsMap.

Definition t (V : Type) : Type := list (string * V).

Definition empty {V : Type} : t V := [].

Fixpoint get {V : Type} (k : string) (m : t V) : option V :=
  match m with
  | [] => None
  | (k', v) :: m' => if String.eqb k k' then Some v else get k m'
  end.

Fixpoint set {V : Type} (k : string) (v : V) (m : t V) : t V :=
  match m with
  | [] => [(k, v)]
  | (k', v') :: m' =>
      if String.eqb k k' then (k', v) :: m' else (k', v') :: set k v m'
  end.

Definition keys {V : Type} (m : t V) : list string := map fst m.

End JsMap.

(** ** Diagnostics *)

Record Diagnostic : Type := mkDiagnostic {
  diag_start : nat;
  diag_message : string
}.

(** ** The command-line pipeline coordinator (main.ts) *)

Module Main.

Inductive ModuleKind : Type := CommonJS | OtherModuleKind (code : nat).

Inductive ScriptTarget : Type := ES3 | ES5 | ES2015 | ESNext.

Record CompilerOptions : Type := {
  outDir : option string;
  project : option string;
  module_kind : option ModuleKind
}.

(** Tsickle settings passed on the command line ([None]: the property is
    not set on the object). *)
Record Settings : Type := {
  externsPath : option string;
  isTyped : option bool;
  isTypedSignatures : option bool;
  verbose : option bool;
  devMode : option bool;
  googModuleRootDir : option string;
  googModuleProjectName : option string
}.

Record SettingsKeys : Type := {
  key_externs : option string;
  key_typed : option bool;
  key_typedSignatures : option bool;
  key_verbose : option bool;
  key_devmode : option bool;
  key_googModuleRootDir : option string;
  key_googModuleProjectName : option string
}.

Record Config : Type := {
  options : CompilerOptions;
  fileNames : list string;
  tsickleSettings : SettingsKeys
}.

(** [tsickle.Pass] *)
Inductive Pass : Type := NONE | DECORATOR_DOWNLEVEL | CLOSURIZE.

Definition Pass_eqb (a b : Pass) : bool :=
  match a, b with
  | NONE, NONE | DECORATOR_DOWNLEVEL, DECORATOR_DOWNLEVEL | CLOSURIZE, CLOSURIZE => true
  | _, _ => false
  end.

(** [tsickle.Options] *)
Record TsickleOptions : Type := {
  googmodule : option bool;
  es5Mode : option bool;
  untyped : option bool;
  untypedFunctionBodies : option bool
}.

(** [tsickle.TsickleHost] *)
Record TsickleHost : Type := {
  shouldSkipTsickleProcessing : string -> bool;
  pathToModuleName : string -> string -> string;
  shouldIgnoreWarningsForPath : string -> bool;
  fileNameToModuleId : string -> string
}.

(** [Es5ProcessorHost] *)
Record Es5ProcessorHost : Type := {
  es5_pathToModuleName : string -> string -> string;
  es5_fileNameToModuleId : string -> string
}.

(** [ts.createSourceFile(path, text, languageVersion)]: the parsed file is
    determined by its three arguments. *)
Record SourceFile : Type := createSourceFile {
  sf_fileName : string;
  sf_text : string;
  sf_languageVersion : ScriptTarget
}.

(** The reading side of [ts.CompilerHost]. *)
Record CompilerHost : Type := {
  getSourceFile : string -> ScriptTarget -> option SourceFile;
  getDefaultLibFileName : CompilerOptions -> string;
  getCurrentDirectory : string;
  getCanonicalFileName : string -> string;
  useCaseSensitiveFileNames : bool;
  getNewLine : string;
  fileExists : string -> bool;
  readFile : string -> option string;
  directoryExists : string -> bool;
  getDirectories : string -> list string
}.

(** What [ts.transpileModule] returns. *)
Record TranspileOutput : Type := {
  outputText : string;
  transpile_diagnostics : list Diagnostic
}.

(** The world outside main.ts: node's [process], [path] and [fs], the
    TypeScript services that need no program, and the tsickle modules
    main.ts imports (cli_support, es5processor, tsickle). *)
Record Sys : Type := {
  resolvePath : string -> string;                 (* ts.sys.resolvePath *)
  cwd : string;                                   (* process.cwd() *)
  path_relative : string -> string -> string;
  path_resolve : string -> string -> string;
  path_dirname : string -> string;
  (** [fs.statSync(f).mtime.getTime()]; [None] when [statSync] throws *)
  stat_mtime : string -> option Z;
  (** [fs.readFileSync(f, {encoding: 'utf-8'})]; [None] when it throws *)
  readFileSync : string -> option string;
  transpileModule : string -> CompilerOptions -> string -> TranspileOutput;
  processES5 : Es5ProcessorHost -> string -> string -> string;
  cli_pathToModuleName : string -> string -> string;
  projectNameSensitivePathToModuleName :
    string -> string -> string -> string -> option string -> string;
  formatDiagnostics : list Diagnostic -> string   (* tsickle.formatDiagnostics *)
}.

Record ClosureJSOptions : Type := {
  tsickleCompilerHostOptions : TsickleOptions;
  tsickleHost : TsickleHost;
  files : JsMap.t string;
  tsicklePasses : list Pass
}.

(** [Partial<ClosureJSOptions>] *)
Record PartialClosureJSOptions : Type := {
  partial_tsickleCompilerHostOptions : option TsickleOptions;
  partial_tsickleHost : option TsickleHost;
  partial_files : option (JsMap.t string);
  partial_tsicklePasses : option (list Pass)
}.

Definition noPartialOptions : PartialClosureJSOptions :=
  {| partial_tsickleCompilerHostOptions := None;
     partial_tsickleHost := None;
     partial_files := None;
     partial_tsicklePasses := None |}.

(** [{...defaults, ...partial}] *)
Definition spread (defaults : ClosureJSOptions) (partial : PartialClosureJSOptions)
  : ClosureJSOptions :=
  {| tsickleCompilerHostOptions :=
       match partial_tsickleCompilerHostOptions partial with
       | Some o => o | None => tsickleCompilerHostOptions defaults end;
     tsickleHost :=
       match partial_tsickleHost partial with
       | Some h => h | None => tsickleHost defaults end;
     files :=
       match partial_files partial with
       | Some f => f | None => files defaults end;
     tsicklePasses :=
       match partial_tsicklePasses partial with
       | Some p => p | None => tsicklePasses defaults end |}.

Record ClosureResult : Type := {
  jsFiles : JsMap.t string;
  externs : string
}.

Definition tsNameToJsName (w : Sys) (tsName : string) (options : CompilerOptions)
    (settings : Settings) : string :=
  if JsString.truthy (outDir options) then
    let rootDir :=
      resolvePath w (JsString.or_else (googModuleRootDir settings) (cwd w)) in
    let absPath := resolvePath w tsName in
    let relativePath := path_relative w rootDir absPath in
    JsString.or_else (outDir options) EmptyString +++ "/" +++ JsString.replace_ts_js relativePath
  else JsString.replace_ts_js tsName.

(** [s.substr(0, n)] *)
Definition substr0 (n : nat) (s : string) : string := substring 0 n s.

(** [s.substr(n)] *)
Definition substr_from (n : nat) (s : string) : string :=
  substring n (String.length s - n) s.

Definition firstCharIs (c : ascii) (s : string) : bool :=
  match String.get 0 s with
  | Some c' => Ascii.eqb c' c
  | None => false
  end.

Definition getDefaultClosureJSOptions (w : Sys) (fileNames : list string)
    (settings : Settings) (options : CompilerOptions) (rootDir : string)
  : ClosureJSOptions :=
  {| tsickleCompilerHostOptions :=
       {| googmodule := Some true;
          es5Mode := Some false;
          untyped := Some (negb (truthyB (isTyped settings)));
          untypedFunctionBodies := isTypedSignatures settings |};
     tsickleHost :=
       {| shouldSkipTsickleProcessing :=
            fun fileName => negb (existsb (String.eqb fileName) fileNames);
          pathToModuleName := fun context fileName =>
            if JsString.truthy (googModuleProjectName settings) then
              let projectDir := JsString.or_else (project options) "." in
              projectNameSensitivePathToModuleName w fileName rootDir projectDir
                context (googModuleProjectName settings)
            else if JsString.truthy (googModuleRootDir settings) then
              let root := JsString.or_else (googModuleRootDir settings) EmptyString in
              let len := String.length root in
              let context :=
                if String.eqb (substr0 len context) root
                then rootDir +++ substr_from len context else context in
              let relative := fileName in
              let relative :=
                if firstCharIs "." relative
                then path_resolve w (path_dirname w context) fileName
                else relative in
              let relative :=
                if firstCharIs "/" relative
                then path_relative w rootDir relative else relative in
              let relative :=
                if String.eqb (substr0 len relative) root
                then substr_from (len + 1) relative else relative in
              cli_pathToModuleName w context relative
            else cli_pathToModuleName w context fileName;
          shouldIgnoreWarningsForPath := fun _ => false;
          fileNameToModuleId := fun fileName => fileName |};
     files := JsMap.empty;
     tsicklePasses := [CLOSURIZE] |}.

(** Constructs a new ts.CompilerHost that overlays sources in
    [substituteSource] over another ts.CompilerHost. *)
Definition createSourceReplacingCompilerHost (w : Sys)
    (substituteSource : JsMap.t string) (delegate : CompilerHost) : CompilerHost :=
  {| getSourceFile := fun fileName languageVersion =>
       let path := resolvePath w fileName in
       let sourceText := JsMap.get path substituteSource in
       if JsString.truthy sourceText then
         match sourceText with
         | Some text => Some (createSourceFile path text languageVersion)
         | None => getSourceFile delegate path languageVersion
         end
       else getSourceFile delegate path languageVersion;
     getDefaultLibFileName := getDefaultLibFileName delegate;
     getCurrentDirectory := getCurrentDirectory delegate;
     getCanonicalFileName := getCanonicalFileName delegate;
     useCaseSensitiveFileNames := useCaseSensitiveFileNames delegate;
     getNewLine := getNewLine delegate;
     fileExists := fileExists delegate;
     readFile := readFile delegate;
     directoryExists := directoryExists delegate;
     getDirectories := getDirectories delegate |}.

(** The [es5ProcessorHost] that [toClosureJSDevMode] builds for a file. *)
Definition devModeEs5ProcessorHost (w : Sys) (options : CompilerOptions)
    (settings : Settings) (rootDir : string) : Es5ProcessorHost :=
  {| es5_pathToModuleName := fun context fileName =>
       let projectDir := JsString.or_else (project options) "." in
       projectNameSensitivePathToModuleName w fileName rootDir
         projectDir context (googModuleProjectName settings);
     es5_fileNameToModuleId := fun fileName => fileName |}.

(** [tsName.substr(-5) != '.d.ts'] *)
Definition notDeclarationFile (tsName : string) : bool :=
  negb (String.eqb (JsString.substr_last 5 tsName) ".d.ts").

(** The modification time of the output of a file, 0 when [statSync] throws. *)
Definition jsTimeOf (w : Sys) (jsName : string) : Z :=
  match stat_mtime w jsName with
  | Some t => t
  | None => 0%Z
  end.

(** One iteration of the [fileNames.forEach] of [toClosureJSDevMode]; [None]
    when [fs.statSync(tsName)] or [fs.readFileSync(tsName)] throws. *)
Definition devModeFile (w : Sys) (options : CompilerOptions) (settings : Settings)
    (rootDir : string) (tsName : string)
    (st : JsMap.t string * list Diagnostic)
  : option (JsMap.t string * list Diagnostic) :=
  let '(jsFiles, allDiagnostics) := st in
  if notDeclarationFile tsName then
    let jsName := tsNameToJsName w tsName options settings in
    let jsTime := jsTimeOf w jsName in
    match stat_mtime w tsName with
    | None => None
    | Some tsTime =>
        if (tsTime >? jsTime)%Z then
          match readFileSync w tsName with
          | None => None
          | Some code =>
              let result := transpileModule w code options tsName in
              let allDiagnostics := allDiagnostics ++ transpile_diagnostics result in
              let absPath := resolvePath w jsName in
              let relativePath := path_relative w rootDir absPath in
              let es5ProcessorHost :=
                devModeEs5ProcessorHost w options settings rootDir in
              let output :=
                processES5 w es5ProcessorHost relativePath (outputText result) in
              Some (JsMap.set jsName output jsFiles, allDiagnostics)
          end
        else Some (jsFiles, allDiagnostics)
    end
  else Some (jsFiles, allDiagnostics).

Fixpoint forEachFile (f : string -> JsMap.t string * list Diagnostic ->
                          option (JsMap.t string * list Diagnostic))
    (names : list string) (st : JsMap.t string * list Diagnostic)
  : option (JsMap.t string * list Diagnostic) :=
  match names with
  | [] => Some st
  | n :: rest =>
      match f n st with
      | Some st' => forEachFile f rest st'
      | None => None
      end
  end.

(** [toClosureJSDevMode]: the result (of type [{jsFiles, externs}|null]) and
    [allDiagnostics] after the call; [None] when an exception escapes. *)
Definition toClosureJSDevMode (w : Sys) (options : CompilerOptions)
    (fileNames : list string) (settings : Settings) (allDiagnostics : list Diagnostic)
  : option (option ClosureResult * list Diagnostic) :=
  let rootDir := resolvePath w (JsString.or_else (googModuleRootDir settings) (cwd w)) in
  match forEachFile (devModeFile w options settings rootDir) fileNames
          (JsMap.empty, allDiagnostics) with
  | Some (jsFiles, allDiagnostics) =>
      Some (Some {| jsFiles := jsFiles; externs := EmptyString |}, allDiagnostics)
  | None => None
  end.

(** What [program.emit] does: the files it hands to the host's [writeFile],
    in order, its diagnostics, and the host afterwards. *)
Record EmitResult (Host : Type) : Type := {
  emitted_files : list (string * string);
  emit_diagnostics : list Diagnostic;
  host_after_emit : Host
}.

(** The TypeScript program services and [tsickle.TsickleCompilerHost]
    (tsickle.ts), which main.ts only calls. The tsickle host is a mutable
    object: every call that may change it returns it. *)
Record TsApi (Program Host : Type) : Type := {
  createCompilerHost : CompilerOptions -> CompilerHost;
  newTsickleCompilerHost :
    CompilerHost -> CompilerOptions -> TsickleOptions -> TsickleHost -> Host;
  createProgram : list string -> CompilerOptions -> Host -> Program * Host;
  getPreEmitDiagnostics : Program -> list Diagnostic;
  reconfigureForRun : Host -> Program -> Pass -> Host;
  program_emit : Program -> Host -> EmitResult Host;
  getGeneratedExterns : Host -> string
}.

(** Modelled from the spec: [createOutputRetainingCompilerHost] (util.ts) is
    not among the sources. It is "an output-retaining host that captures
    emitted JS into an in-memory map instead of writing to disk": reading is
    the delegate's, and [retainOutput] is what its [writeFile] calls leave in
    the map. *)
Definition createOutputRetainingCompilerHost (delegate : CompilerHost) : CompilerHost :=
  delegate.

Definition retainOutput (written : list (string * string)) (jsFiles : JsMap.t string)
  : JsMap.t string :=
  fold_left (fun m kv => JsMap.set (fst kv) (snd kv) m) written jsFiles.

(** [passes.indexOf(p) !== -1] *)
Definition hasPass (p : Pass) (passes : list Pass) : bool :=
  existsb (Pass_eqb p) passes.

(** Compiles TypeScript code into Closure-compiler-ready JS. The result is
    [null] or the files and externs, paired with [allDiagnostics] after the
    call. *)
Definition toClosureJS {Program Host : Type} (ts : TsApi Program Host) (w : Sys)
    (options : CompilerOptions) (fileNames : list string) (settings : Settings)
    (allDiagnostics : list Diagnostic) (partialClosureJSOptions : PartialClosureJSOptions)
  : option ClosureResult * list Diagnostic :=
  let rootDir := resolvePath w (JsString.or_else (googModuleRootDir settings) (cwd w)) in
  let closureJSOptions :=
    spread (getDefaultClosureJSOptions w fileNames settings options rootDir)
           partialClosureJSOptions in
  let jsFiles : JsMap.t string := JsMap.empty in
  let outputRetainingHost :=
    createOutputRetainingCompilerHost (createCompilerHost ts options) in
  let sourceReplacingHost :=
    createSourceReplacingCompilerHost w (files closureJSOptions) outputRetainingHost in
  let tch :=
    newTsickleCompilerHost ts sourceReplacingHost options
      (tsickleCompilerHostOptions closureJSOptions) (tsickleHost closureJSOptions) in
  let '(program, tch) := createProgram ts fileNames options tch in
  let diagnostics := getPreEmitDiagnostics ts program in
  if (0 <? List.length diagnostics)%nat then (None, allDiagnostics ++ diagnostics)
  else
    let '(program, tch) :=
      if hasPass DECORATOR_DOWNLEVEL (tsicklePasses closureJSOptions) then
        createProgram ts fileNames options
          (reconfigureForRun ts tch program DECORATOR_DOWNLEVEL)
      else (program, tch) in
    let '(program, tch) :=
      if hasPass CLOSURIZE (tsicklePasses closureJSOptions) then
        createProgram ts fileNames options
          (reconfigureForRun ts tch program CLOSURIZE)
      else (program, tch) in
    let emitResult := program_emit ts program tch in
    let jsFiles := retainOutput (emitted_files emitResult) jsFiles in
    let diagnostics := emit_diagnostics emitResult in
    if (0 <? List.length diagnostics)%nat then (None, allDiagnostics ++ diagnostics)
    else
      (Some {| jsFiles := jsFiles;
               externs := getGeneratedExterns ts (host_after_emit emitResult) |},
       allDiagnostics).

(** The diagnostics of the type check that [toClosureJS] runs first, on the
    program as written. *)
Definition typeCheckDiagnostics {Program Host : Type} (ts : TsApi Program Host)
    (w : Sys) (options : CompilerOptions) (fileNames : list string)
    (settings : Settings) (partialClosureJSOptions : PartialClosureJSOptions)
  : list Diagnostic :=
  let rootDir := resolvePath w (JsString.or_else (googModuleRootDir settings) (cwd w)) in
  let closureJSOptions :=
    spread (getDefaultClosureJSOptions w fileNames settings options rootDir)
           partialClosureJSOptions in
  let tch :=
    newTsickleCompilerHost ts
      (createSourceReplacingCompilerHost w (files closureJSOptions)
         (createOutputRetainingCompilerHost (createCompilerHost ts options)))
      options (tsickleCompilerHostOptions closureJSOptions)
      (tsickleHost closureJSOptions) in
  getPreEmitDiagnostics ts (fst (createProgram ts fileNames options tch)).

(** What the emit that ends [toClosureJS] does, after the passes asked for. *)
Definition emitAfterPasses {Program Host : Type} (ts : TsApi Program Host)
    (w : Sys) (options : CompilerOptions) (fileNames : list string)
    (settings : Settings) (partialClosureJSOptions : PartialClosureJSOptions)
  : EmitResult Host :=
  let rootDir := resolvePath w (JsString.or_else (googModuleRootDir settings) (cwd w)) in
  let closureJSOptions :=
    spread (getDefaultClosureJSOptions w fileNames settings options rootDir)
           partialClosureJSOptions in
  let tch :=
    newTsickleCompilerHost ts
      (createSourceReplacingCompilerHost w (files closureJSOptions)
         (createOutputRetainingCompilerHost (createCompilerHost ts options)))
      options (tsickleCompilerHostOptions closureJSOptions)
      (tsickleHost closureJSOptions) in
  let p0 := createProgram ts fileNames options tch in
  let p1 :=
    if hasPass DECORATOR_DOWNLEVEL (tsicklePasses closureJSOptions) then
      createProgram ts fileNames options
        (reconfigureForRun ts (snd p0) (fst p0) DECORATOR_DOWNLEVEL)
    else p0 in
  let p2 :=
    if hasPass CLOSURIZE (tsicklePasses closureJSOptions) then
      createProgram ts fileNames options
        (reconfigureForRun ts (snd p1) (fst p1) CLOSURIZE)
    else p1 in
  program_emit ts (fst p2) (snd p2).

(** [minimist(args)]: the flags in key order with their values, and the
    array [_] of the arguments that are no flags (the positional arguments,
    those after [--] among them). *)
Record ParsedArgs : Type := {
  parsed_flags : list (string * string);
  parsed_underscore : list string
}.

(** A computation that may end the process with [process.exit(code)]. *)
Inductive Exit (A : Type) : Type :=
| Continue (a : A)
| ProcessExit (code : nat).
Arguments Continue {A} a.
Arguments ProcessExit {A} code.

Definition emptySettings : Settings :=
  {| externsPath := None; isTyped := None; isTypedSignatures := None;
     verbose := None; devMode := None; googModuleRootDir := None;
     googModuleProjectName := None |}.

Definition set_externsPath (v : option string) (s : Settings) : Settings :=
  {| externsPath := v; isTyped := isTyped s;
     isTypedSignatures := isTypedSignatures s; verbose := verbose s;
     devMode := devMode s; googModuleRootDir := googModuleRootDir s;
     googModuleProjectName := googModuleProjectName s |}.

Definition set_isTyped (v : option bool) (s : Settings) : Settings :=
  {| externsPath := externsPath s; isTyped := v;
     isTypedSignatures := isTypedSignatures s; verbose := verbose s;
     devMode := devMode s; googModuleRootDir := googModuleRootDir s;
     googModuleProjectName := googModuleProjectName s |}.

Definition set_isTypedSignatures (v : option bool) (s : Settings) : Settings :=
  {| externsPath := externsPath s; isTyped := isTyped s;
     isTypedSignatures := v; verbose := verbose s;
     devMode := devMode s; googModuleRootDir := googModuleRootDir s;
     googModuleProjectName := googModuleProjectName s |}.

Definition set_verbose (v : option bool) (s : Settings) : Settings :=
  {| externsPath := externsPath s; isTyped := isTyped s;
     isTypedSignatures := isTypedSignatures s; verbose := v;
     devMode := devMode s; googModuleRootDir := googModuleRootDir s;
     googModuleProjectName := googModuleProjectName s |}.

Definition set_devMode (v : option bool) (s : Settings) : Settings :=
  {| externsPath := externsPath s; isTyped := isTyped s;
     isTypedSignatures := isTypedSignatures s; verbose := verbose s;
     devMode := v; googModuleRootDir := googModuleRootDir s;
     googModuleProjectName := googModuleProjectName s |}.

Definition set_googModuleRootDir (v : option string) (s : Settings) : Settings :=
  {| externsPath := externsPath s; isTyped := isTyped s;
     isTypedSignatures := isTypedSignatures s; verbose := verbose s;
     devMode := devMode s; googModuleRootDir := v;
     googModuleProjectName := googModuleProjectName s |}.

Definition set_googModuleProjectName (v : option string) (s : Settings) : Settings :=
  {| externsPath := externsPath s; isTyped := isTyped s;
     isTypedSignatures := isTypedSignatures s; verbose := verbose s;
     devMode := devMode s; googModuleRootDir := googModuleRootDir s;
     googModuleProjectName := v |}.

(** The [switch (flag)] of [loadSettingsFromArgs], over the keys of the
    parsed arguments. *)
Fixpoint loadSettingsFlags (flags : list (string * string)) (settings : Settings)
  : Exit Settings :=
  match flags with
  | [] => Continue settings
  | (flag, value) :: rest =>
      if String.eqb flag "h" || String.eqb flag "help" then ProcessExit 0
      else if String.eqb flag "externs" then
        loadSettingsFlags rest (set_externsPath (Some value) settings)
      else if String.eqb flag "typed" then
        loadSettingsFlags rest (set_isTyped (Some true) settings)
      else if String.eqb flag "typedSignatures" then
        loadSettingsFlags rest
          (set_isTyped (Some true) (set_isTypedSignatures (Some true) settings))
      else if String.eqb flag "verbose" then
        loadSettingsFlags rest (set_verbose (Some true) settings)
      else if String.eqb flag "devmode" then
        loadSettingsFlags rest (set_devMode (Some true) settings)
      else if String.eqb flag "googModuleRootDir" then
        loadSettingsFlags rest (set_googModuleRootDir (Some value) settings)
      else if String.eqb flag "googModuleProjectName" then
        loadSettingsFlags rest (set_googModuleProjectName (Some value) settings)
      else if String.eqb flag "_" then loadSettingsFlags rest settings
      else ProcessExit 1
  end.

(** Parses the command-line arguments, extracting the tsickle settings and
    the arguments to pass on to tsc. *)
Definition loadSettingsFromArgs (parsedArgs : ParsedArgs) : Exit (Settings * list string) :=
  match loadSettingsFlags (parsed_flags parsedArgs) emptySettings with
  | Continue settings => Continue (settings, parsed_underscore parsedArgs)
  | ProcessExit code => ProcessExit code
  end.

(** [settings.hasOwnProperty(p)] on a property modelled as an option *)
Definition hasOwnProperty {A : Type} (o : option A) : bool :=
  match o with Some _ => true | None => false end.

(** The [for (let tsickleSettingsKey in config.tsickleSettings)] of [main]:
    every key of the tsconfig's tsickle section that is present fills the
    setting the command line did not set. *)
Definition mergeTsickleSettings (keys : SettingsKeys) (settings : Settings) : Settings :=
  let settings :=
    match key_externs keys with
    | Some v => if hasOwnProperty (externsPath settings) then settings
                else set_externsPath (Some v) settings
    | None => settings end in
  let settings :=
    match key_typed keys with
    | Some v => if hasOwnProperty (isTyped settings) then settings
                else set_isTyped (Some (v || false)) settings
    | None => settings end in
  let settings :=
    match key_typedSignatures keys with
    | Some v => if hasOwnProperty (isTypedSignatures settings) then settings
                else set_isTypedSignatures (Some (v || false)) settings
    | None => settings end in
  let settings :=
    match key_verbose keys with
    | Some v => if hasOwnProperty (verbose settings) then settings
                else set_verbose (Some v) settings
    | None => settings end in
  let settings :=
    match key_devmode keys with
    | Some v => if hasOwnProperty (devMode settings) then settings
                else set_devMode (Some v) settings
    | None => settings end in
  let settings :=
    match key_googModuleRootDir keys with
    | Some v => if hasOwnProperty (googModuleRootDir settings) then settings
                else set_googModuleRootDir (Some v) settings
    | None => settings end in
  match key_googModuleProjectName keys with
  | Some v => if hasOwnProperty (googModuleProjectName settings) then settings
              else set_googModuleProjectName (Some v) settings
  | None => settings end.

Inductive Effect : Type :=
| ConsoleError (text : string)
| Mkdirp (dir : string)
| WriteFileSync (fileName content : string).

Definition suppressAll : string :=
  "/** @fileoverview @suppress {accessControls,ambiguousFunctionDecl,checkDebuggerStatement,checkRegExp,checkTypes,checkVars,closureDepMethodUsageChecks,constantProperty,const,deprecated,duplicate,es5Strict,externsValidation,extraRequire,fileoverviewTags,globalThis,invalidCasts,misplacedTypeAnnotation,missingProperties,missingProvide,missingRequire,missingReturn,newCheckTypes,nonStandardJsDocs,reportUnknownTypes,strictModuleDepCheck,suspiciousCode,undefinedNames,undefinedVars,unknownDefines,uselessCode,visibility} */"
  +++ JsString.nl.

(** The body of [for (const fileName of toArray(closure.jsFiles.keys()))]:
    the text written for one file. *)
Definition srcToWrite (settings : Settings) (src : string) : string :=
  if negb (truthyB (isTyped settings)) || truthyB (isTypedSignatures settings)
  then suppressAll +++ src
  else src.

Definition writeJsFiles (w : Sys) (settings : Settings) (jsFiles : JsMap.t string)
  : list Effect :=
  flat_map (fun fileName =>
              match JsMap.get fileName jsFiles with
              | Some src =>
                  [Mkdirp (path_dirname w fileName);
                   WriteFileSync fileName (srcToWrite settings src)]
              | None => []
              end)
           (JsMap.keys jsFiles).

Record MainResult : Type := {
  exitCode : nat;
  effects : list Effect
}.

Definition tsickleConvertsMessage : string :=
  "tsickle converts TypeScript modules to Closure modules via CommonJS internally. Set tsconfig.js "
  +++ JsString.dquote +++ "module" +++ JsString.dquote +++ ": "
  +++ JsString.dquote +++ "commonjs" +++ JsString.dquote.

(** The text [usage()] writes with [console.error]. *)
Definition usageText : string :=
  "usage: tsickle [tsickle options] -- [tsc options]" +++ JsString.nl
  +++ JsString.nl
  +++ "example:" +++ JsString.nl
  +++ "  tsickle --externs=foo/externs.js -- -p src --noImplicitAny" +++ JsString.nl
  +++ JsString.nl
  +++ "tsickle flags are:" +++ JsString.nl
  +++ "  --externs=PATH     save generated Closure externs.js to PATH" +++ JsString.nl
  +++ "  --typed            [experimental] attempt to provide Closure types instead of {?}"
  +++ JsString.nl
  +++ "  --typedSignatures  [experimental] attempt to provide Closure types outside function bodies. Implies --typed"
  +++ JsString.nl.

(** What the [switch (flag)] of [loadSettingsFromArgs] writes with
    [console.error] on its way: the usage for [h] and [help], the unknown
    flag and the usage in the [default] case, before the process is ended;
    nothing for the other flags. *)
Fixpoint loadSettingsOutput (flags : list (string * string)) : list Effect :=
  match flags with
  | [] => []
  | (flag, _) :: rest =>
      if String.eqb flag "h" || String.eqb flag "help" then [ConsoleError usageText]
      else if String.eqb flag "externs" then loadSettingsOutput rest
      else if String.eqb flag "typed" then loadSettingsOutput rest
      else if String.eqb flag "typedSignatures" then loadSettingsOutput rest
      else if String.eqb flag "verbose" then loadSettingsOutput rest
      else if String.eqb flag "devmode" then loadSettingsOutput rest
      else if String.eqb flag "googModuleRootDir" then loadSettingsOutput rest
      else if String.eqb flag "googModuleProjectName" then loadSettingsOutput rest
      else if String.eqb flag "_" then loadSettingsOutput rest
      else [ConsoleError ("unknown flag '--" +++ flag +++ "'"); ConsoleError usageText]
  end.

(** [main], from the parsed command line and the result of [loadTscConfig]
    (the configuration or [null], and the diagnostics it pushed) on; [None]
    when an exception escapes. When [loadSettingsFromArgs] ends the process,
    the code is the one given to [process.exit] and the effects are what was
    written to the console before. *)
Definition main {Program Host : Type} (ts : TsApi Program Host) (w : Sys)
    (parsedArgs : ParsedArgs)
    (loadTscConfig : list string -> option Config * list Diagnostic)
  : option MainResult :=
  match loadSettingsFromArgs parsedArgs with
  | ProcessExit code =>
      Some {| exitCode := code;
              effects := loadSettingsOutput (parsed_flags parsedArgs) |}
  | Continue (settings, tscArgs) =>
      let '(config, diagnostics) := loadTscConfig tscArgs in
      match config with
      | None =>
          Some {| exitCode := 1;
                  effects := [ConsoleError (formatDiagnostics w diagnostics)] |}
      | Some config =>
          match module_kind (options config) with
          | Some CommonJS =>
              let settings := mergeTsickleSettings (tsickleSettings config) settings in
              let closure :=
                if truthyB (devMode settings) then
                  toClosureJSDevMode w (options config) (fileNames config) settings
                    diagnostics
                else
                  Some (toClosureJS ts w (options config) (fileNames config) settings
                          diagnostics noPartialOptions) in
              match closure with
              | None => None
              | Some (None, diagnostics) =>
                  Some {| exitCode := 1;
                          effects := [ConsoleError (formatDiagnostics w diagnostics)] |}
              | Some (Some closure, _) =>
                  Some {| exitCode := 0;
                          effects :=
                            writeJsFiles w settings (jsFiles closure) ++
                            (if JsString.truthy (externsPath settings) then
                               let p := JsString.or_else (externsPath settings) EmptyString in
                               [Mkdirp (path_dirname w p);
                                WriteFileSync p (externs closure)]
                             else []) |}
              end
          | _ =>
              Some {| exitCode := 1; effects := [ConsoleError tsickleConvertsMessage] |}
          end
      end
  end.

(** What [ts.parseCommandLine] and [ts.parseJsonConfigFileContent] return. *)
Record ParsedCommandLine : Type := {
  pcl_options : CompilerOptions;
  pcl_fileNames : list string;
  pcl_errors : list Diagnostic
}.

(** The TypeScript services [loadTscConfig] calls, over the type of the
    parsed tsconfig.json. *)
Record ConfigApi (Json : Type) : Type := {
  parseCommandLine : list string -> ParsedCommandLine;
  path_join : string -> string -> string;
  (** [ts.readConfigFile(name, readFile)]: [{config}] or [{error}] *)
  readConfigFile : string -> Json + Diagnostic;
  (** [json.tsickle], [None] when it is missing (or falsy) *)
  json_tsickle : Json -> option SettingsKeys;
  parseJsonConfigFileContent :
    Json -> string -> CompilerOptions -> string -> ParsedCommandLine
}.

(** [{}] as a [SettingsKeys] *)
Definition noSettingsKeys : SettingsKeys :=
  {| key_externs := None; key_typed := None; key_typedSignatures := None;
     key_verbose := None; key_devmode := None; key_googModuleRootDir := None;
     key_googModuleProjectName := None |}.

(** Loads the tsconfig.json from a directory: the configuration or [null],
    and [allDiagnostics] after the call. *)
Definition loadTscConfig {Json : Type} (c : ConfigApi Json) (args : list string)
    (allDiagnostics : list Diagnostic) : option Config * list Diagnostic :=
  (* Gather tsc options/input files from command line. *)
  let parsed := parseCommandLine c args in
  if (0 <? List.length (pcl_errors parsed))%nat
  then (None, allDiagnostics ++ pcl_errors parsed)
  else
    (* Store file arguments *)
    let tsFileArguments := pcl_fileNames parsed in
    (* Read further settings from tsconfig.json. *)
    let projectDir := JsString.or_else (project (pcl_options parsed)) "." in
    let configFileName := path_join c projectDir "tsconfig.json" in
    match readConfigFile c configFileName with
    | inr error => (None, allDiagnostics ++ [error])
    | inl json =>
        let tsickleSettings :=
          match json_tsickle c json with
          | Some keys => keys
          | None => noSettingsKeys
          end in
        let parsed' :=
          parseJsonConfigFileContent c json projectDir (pcl_options parsed)
            configFileName in
        if (0 <? List.length (pcl_errors parsed'))%nat
        then (None, allDiagnostics ++ pcl_errors parsed')
        else
          (* if file arguments were given to the typescript transpiler than
             transpile only those files *)
          let fileNames :=
            if (0 <? List.length tsFileArguments)%nat then tsFileArguments
            else pcl_fileNames parsed' in
          (Some {| options := pcl_options parsed'; fileNames := fileNames;
                   tsickleSettings := tsickleSettings |},
           allDiagnostics)
    end.

(** The flags the [switch] of [loadSettingsFromArgs] has a case for, other
    than the two that print the usage. *)
Definition settingsFlags : list string :=
  ["externs"; "typed"; "typedSignatures"; "verbose"; "devmode";
   "googModuleRootDir"; "googModuleProjectName"; "_"].


(** What [--typedSignatures] implies: settings that ask for typed signatures
    ask for types. *)
Definition signaturesImplyTyped (s : Settings) : Prop :=
  isTypedSignatures s = Some true -> isTyped s = Some true.


(** The configuration file [loadTscConfig] reads for the arguments:
    [path.join(options.project || '.', 'tsconfig.json')]. *)
Definition configFileName {Json : Type} (c : ConfigApi Json) (args : list string)
  : string :=
  path_join c (JsString.or_else (project (pcl_options (parseCommandLine c args))) ".")
    "tsconfig.json".


(** The diagnostics [toClosureJSDevMode] adds for a file: those of its
    transpilation, when the file is transpiled. *)
Definition devModeDiagnostics (w : Sys) (options : CompilerOptions) (settings : Settings)
    (tsName : string) : list Diagnostic :=
  if notDeclarationFile tsName then
    match stat_mtime w tsName, readFileSync w tsName with
    | Some tsTime, Some code =>
        if (tsTime >? jsTimeOf w (tsNameToJsName w tsName options settings))%Z
        then transpile_diagnostics (transpileModule w code options tsName)
        else []
    | _, _ => []
    end
  else [].

(** An effect that changes the disk. *)
Definition writesToDisk (e : Effect) : bool :=
  match e with
  | ConsoleError _ => false
  | Mkdirp _ | WriteFileSync _ _ => true
  end.


End Main.

(** ** The first coordinator (the earliest main.ts among the sources), which
       calls the annotator and the module converter itself *)

Module MainLegacy.

Import Main.

Record Settings : Type := {
  externsPath : option string;
  isUntyped : bool;
  verbose : option bool;
  ignoreTypesInComments : bool
}.

(** [tsickle.Options] of that version; [logWarning] is a callback or [null]. *)
Record TsickleOptions : Type := {
  untyped : bool;
  opt_ignoreTypesInComments : bool;
  logWarning : bool
}.

(** What [tsickle.annotate] returns. *)
Record AnnotateOutput : Type := {
  output : string;
  annotate_externs : option string;
  annotate_diagnostics : list Diagnostic
}.

(** What [tsickle.convertCommonJsToGoogModule] returns; only [output] is read. *)
Record ConvertOutput : Type := {
  convert_output : string;
  convert_diagnostics : list Diagnostic
}.

Record TsApi (Program : Type) : Type := {
  resolvePath : string -> string;
  path_extname : string -> string;
  createCompilerHost : CompilerOptions -> CompilerHost;
  createProgram : list string -> CompilerOptions -> option CompilerHost -> Program;
  getPreEmitDiagnostics : Program -> list Diagnostic;
  (** [tsickle.annotate(program, program.getSourceFile(fileName), options)] *)
  annotate : Program -> string -> TsickleOptions -> AnnotateOutput;
  (** [program.emit(undefined, writeFile)]: the [writeFile] calls, in order,
      and the diagnostics *)
  program_emit : Program -> list (string * string) * list Diagnostic;
  convertCommonJsToGoogModule : string -> string -> ConvertOutput
}.

(** [{jsFiles?, externs?, errors?}] *)
Record Result : Type := {
  jsFiles : option (JsMap.t string);
  externs : option string;
  errors : option (list Diagnostic)
}.

Definition returnErrors (errors : list Diagnostic) : Result :=
  {| jsFiles := None; externs := None; errors := Some errors |}.

Definition createSourceReplacingCompilerHost {Program : Type} (ts : TsApi Program)
    (substituteSource : JsMap.t string) (delegate : CompilerHost) : CompilerHost :=
  {| getSourceFile := fun fileName languageVersion =>
       let path := resolvePath ts fileName in
       match JsMap.get path substituteSource with
       | Some sourceText => Some (createSourceFile path sourceText languageVersion)
       | None => getSourceFile delegate path languageVersion
       end;
     getDefaultLibFileName := getDefaultLibFileName delegate;
     getCurrentDirectory := getCurrentDirectory delegate;
     getCanonicalFileName := getCanonicalFileName delegate;
     useCaseSensitiveFileNames := useCaseSensitiveFileNames delegate;
     getNewLine := getNewLine delegate;
     fileExists := fileExists delegate;
     readFile := readFile delegate;
     directoryExists := directoryExists delegate;
     getDirectories := getDirectories delegate |}.

(** The loop "Process each input file with tsickle and save the output":
    [inl diagnostics] when it leaves [toClosureJS] early. *)
Fixpoint annotateFiles {Program : Type} (ts : TsApi Program) (program : Program)
    (tsickleOptions : TsickleOptions) (fileNames : list string)
    (tsickleOutput : JsMap.t string) (tsickleExterns : string)
  : list Diagnostic + (JsMap.t string * string) :=
  match fileNames with
  | [] => inr (tsickleOutput, tsickleExterns)
  | fileName :: rest =>
      let r := annotate ts program fileName tsickleOptions in
      if (0 <? List.length (annotate_diagnostics r))%nat
      then inl (annotate_diagnostics r)
      else
        let tsickleOutput := JsMap.set (resolvePath ts fileName) (output r) tsickleOutput in
        let tsickleExterns :=
          if JsString.truthy (annotate_externs r)
          then tsickleExterns +++ JsString.or_else (annotate_externs r) EmptyString
          else tsickleExterns in
        annotateFiles ts program tsickleOptions rest tsickleOutput tsickleExterns
  end.

(** The loop over [Object.keys(jsFiles)] that converts every emitted file
    other than a source map. *)
Definition convertFiles {Program : Type} (ts : TsApi Program) (jsFiles : JsMap.t string)
  : JsMap.t string :=
  fold_left
    (fun m fileName =>
       if negb (String.eqb (path_extname ts fileName) ".map") then
         match JsMap.get fileName m with
         | Some content =>
             JsMap.set fileName
               (convert_output (convertCommonJsToGoogModule ts fileName content)) m
         | None => m
         end
       else m)
    (JsMap.keys jsFiles) jsFiles.

(** Compiles TypeScript code into Closure-compiler-ready JS. *)
Definition toClosureJS {Program : Type} (ts : TsApi Program)
    (options : CompilerOptions) (fileNames : list string) (settings : Settings)
  : Result :=
  let program := createProgram ts fileNames options None in
  let errors := getPreEmitDiagnostics ts program in
  if (0 <? List.length errors)%nat then returnErrors errors
  else
    let tsickleOptions :=
      {| untyped := isUntyped settings;
         opt_ignoreTypesInComments := ignoreTypesInComments settings;
         logWarning := truthyB (verbose settings) |} in
    match annotateFiles ts program tsickleOptions fileNames JsMap.empty EmptyString with
    | inl diagnostics => returnErrors diagnostics
    | inr (tsickleOutput, tsickleExterns) =>
        let host :=
          createSourceReplacingCompilerHost ts tsickleOutput
            (createCompilerHost ts options) in
        let program := createProgram ts fileNames options (Some host) in
        let errors := getPreEmitDiagnostics ts program in
        if (0 <? List.length errors)%nat then returnErrors errors
        else
          let '(written, diagnostics) := program_emit ts program in
          let jsFiles := retainOutput written JsMap.empty in
          if (0 <? List.length diagnostics)%nat then returnErrors diagnostics
          else
            {| jsFiles := Some (convertFiles ts jsFiles);
               externs := Some tsickleExterns;
               errors := None |}
    end.

End MainLegacy.

(** ** The coordinator with [googModuleRegexes] (a later main.ts among the
       sources), whose dev mode transpiles every input *)

Module MainRegexes.

Import Main.

(** Tsickle settings passed on the command line; a [RegExp] is held as its
    pattern. *)
Record Settings : Type := {
  externsPath : option string;
  isTyped : option bool;
  verbose : option bool;
  devMode : option bool;
  googModuleRegexes : list (string * string)
}.

Record SettingsKeys : Type := {
  key_externs : option string;
  key_typed : option bool;
  key_typedSignatures : option bool;
  key_verbose : option bool;
  key_devmode : option bool;
  key_googModuleRegexes : option (list (string * string))
}.

Definition tsNameToJsName (w : Sys) (tsName : string) (options : CompilerOptions)
  : string :=
  if JsString.truthy (outDir options) then
    let rootDir := resolvePath w (cwd w) in
    let absPath := resolvePath w tsName in
    let relativePath := path_relative w rootDir absPath in
    JsString.or_else (outDir options) EmptyString +++ "/"
    +++ JsString.replace_ts_js relativePath
  else JsString.replace_ts_js tsName.

(** [settings.googModuleRegexes.reduce((moduleName, regex) =>
       moduleName.replace(regex[0], regex[1]),
       cliSupport.pathToModuleName(context, fileName))];
    [replace pattern replacement s] is [s.replace(new RegExp(pattern),
    replacement)]. *)
Definition pathToModuleName (w : Sys) (replace : string -> string -> string -> string)
    (settings : Settings) (context fileName : string) : string :=
  fold_left (fun moduleName regex => replace (fst regex) (snd regex) moduleName)
    (googModuleRegexes settings) (cli_pathToModuleName w context fileName).

(** One iteration of the [fileNames.forEach] of [toClosureJSDevMode]; [None]
    when [fs.readFileSync(tsName)] throws. *)
Definition devModeFile (w : Sys) (replace : string -> string -> string -> string)
    (options : CompilerOptions) (settings : Settings) (rootDir : string)
    (tsName : string) (st : JsMap.t string * list Diagnostic)
  : option (JsMap.t string * list Diagnostic) :=
  let '(jsFiles, allDiagnostics) := st in
  if notDeclarationFile tsName then
    let jsName := tsNameToJsName w tsName options in
    match readFileSync w tsName with
    | None => None
    | Some code =>
        let result := transpileModule w code options tsName in
        let allDiagnostics := allDiagnostics ++ transpile_diagnostics result in
        let absPath := resolvePath w jsName in
        let relativePath := path_relative w rootDir absPath in
        let es5ProcessorHost :=
          {| es5_pathToModuleName := pathToModuleName w replace settings;
             es5_fileNameToModuleId := fun fileName => fileName |} in
        let output := processES5 w es5ProcessorHost relativePath (outputText result) in
        Some (JsMap.set jsName output jsFiles, allDiagnostics)
    end
  else Some (jsFiles, allDiagnostics).

Definition toClosureJSDevMode (w : Sys) (replace : string -> string -> string -> string)
    (options : CompilerOptions) (fileNames : list string) (settings : Settings)
    (allDiagnostics : list Diagnostic)
  : option (option ClosureResult * list Diagnostic) :=
  let rootDir := resolvePath w (cwd w) in
  match forEachFile (devModeFile w replace options settings rootDir) fileNames
          (JsMap.empty, allDiagnostics) with
  | Some (jsFiles, allDiagnostics) =>
      Some (Some {| jsFiles := jsFiles; externs := EmptyString |}, allDiagnostics)
  | None => None
  end.

(** The [for (let tsickleSettingsKey in config.tsickleSettings)] of [main]. *)
Definition mergeTsickleSettings (keys : SettingsKeys) (settings : Settings) : Settings :=
  let settings :=
    match key_externs keys with
    | Some v =>
        if hasOwnProperty (externsPath settings) then settings
        else {| externsPath := Some v; isTyped := isTyped settings;
                verbose := verbose settings; devMode := devMode settings;
                googModuleRegexes := googModuleRegexes settings |}
    | None => settings end in
  let settings :=
    match key_typed keys with
    | Some v =>
        if hasOwnProperty (isTyped settings) then settings
        else {| externsPath := externsPath settings; isTyped := Some (v || false);
                verbose := verbose settings; devMode := devMode settings;
                googModuleRegexes := googModuleRegexes settings |}
    | None => settings end in
  let settings :=
    match key_verbose keys with
    | Some v =>
        if hasOwnProperty (verbose settings) then settings
        else {| externsPath := externsPath settings; isTyped := isTyped settings;
                verbose := Some v; devMode := devMode settings;
                googModuleRegexes := googModuleRegexes settings |}
    | None => settings end in
  let settings :=
    match key_devmode keys with
    | Some _ =>
        {| externsPath := externsPath settings; isTyped := isTyped settings;
           verbose := verbose settings; devMode := Some true;
           googModuleRegexes := googModuleRegexes settings |}
    | None => settings end in
  match key_googModuleRegexes keys with
  | Some regexes =>
      {| externsPath := externsPath settings; isTyped := isTyped settings;
         verbose := verbose settings; devMode := devMode settings;
         googModuleRegexes := regexes |}
  | None => settings end.

End MainRegexes.

(** ** The type translator: cycles *)

Module TypeTranslator.

(** Modelled from the spec: type-translator.ts is not among the sources (only
    the golden file typedef.tsickle.ts shows its result). The types are the
    constructs of the translation table of the specification. *)
Inductive TsType : Type :=
| TNumber | TString | TBoolean | TNull | TUndefined | TAny | TUnknown | TVoid
| TUnion (members : list TsType)
| TArray (element : TsType)
| TRecord (fields : list (string * (bool * TsType)))   (* name, optional?, type *)
| TFunction (this : option TsType) (params : list (bool * TsType)) (ret : TsType)
| TTypeParameter (name : string)
| TReference (symbol : string) (typeArguments : list TsType).

(** What a symbol is declared as. *)
Inductive Declaration : Type :=
| AliasDeclaration (body : TsType)       (* type R = body *)
| ClassLike (nonNull : bool)             (* class or interface *)
| EnumDeclaration.

Definition SymbolTable : Type := list (string * Declaration).

Fixpoint lookup (s : string) (env : SymbolTable) : option Declaration :=
  match env with
  | [] => None
  | (k, d) :: rest => if String.eqb s k then Some d else lookup s rest
  end.

Definition isTranslating (s : string) (translating : list string) : bool :=
  existsb (String.eqb s) translating.

Fixpoint join (sep : string) (parts : list string) : string :=
  match parts with
  | [] => EmptyString
  | [p] => p
  | p :: rest => p +++ sep +++ join sep rest
  end.

(** all the results, or none when one is missing *)
Fixpoint sequence (l : list (option string)) : option (list string) :=
  match l with
  | [] => Some []
  | None :: _ => None
  | Some s :: rest =>
      match sequence rest with
      | Some ss => Some (s :: ss)
      | None => None
      end
  end.

Definition optionalType (optional : bool) (s : string) : string :=
  if optional then "(" +++ s +++ "|undefined)" else s.

(** Modelled from the spec: the translation rules of the table, with "a
    currently-translating set keyed by symbol; on re-entry it emits ? at the
    recursion point". [fuel] bounds the number of nested alias unfoldings;
    [None] only when it runs out. *)
Fixpoint translateWith (env : SymbolTable) (fuel : nat)
  : list string -> TsType -> option string :=
  let unfold :=
    match fuel with
    | 0 => fun _ _ => None
    | S fuel' => translateWith env fuel'
    end in
  fix go (translating : list string) (t : TsType) {struct t} : option string :=
    match t with
    | TNumber => Some "number"
    | TString => Some "string"
    | TBoolean => Some "boolean"
    | TNull => Some "null"
    | TUndefined => Some "undefined"
    | TAny | TUnknown => Some "?"
    | TVoid => Some "void"
    | TUnion members =>
        match sequence (map (go translating) members) with
        | Some ss => Some ("(" +++ join "|" ss +++ ")")
        | None => None
        end
    | TArray element =>
        match go translating element with
        | Some s => Some ("!Array<" +++ s +++ ">")
        | None => None
        end
    | TRecord fields =>
        match sequence
                (map (fun f =>
                        match go translating (snd (snd f)) with
                        | Some s => Some (fst f +++ ": " +++ optionalType (fst (snd f)) s)
                        | None => None
                        end) fields) with
        | Some ss => Some ("{" +++ join ", " ss +++ "}")
        | None => None
        end
    | TFunction this params ret =>
        match
          match this with
          | Some th =>
              match go translating th with
              | Some s => Some ["this: " +++ s]
              | None => None
              end
          | None => Some []
          end,
          sequence
            (map (fun p =>
                    match go translating (snd p) with
                    | Some s => Some (optionalType (fst p) s)
                    | None => None
                    end) params),
          go translating ret
        with
        | Some th, Some ps, Some r =>
            Some ("function(" +++ join ", " (th ++ ps) +++ "): " +++ r)
        | _, _, _ => None
        end
    | TTypeParameter name => Some name
    | TReference symbol typeArguments =>
        if isTranslating symbol translating then Some "?"
        else
          match lookup symbol env with
          | Some (AliasDeclaration body) => unfold (symbol :: translating) body
          | Some (ClassLike nonNull) =>
              match sequence (map (go translating) typeArguments) with
              | Some [] => Some ((if nonNull then "!" else EmptyString) +++ symbol)
              | Some ss =>
                  Some ((if nonNull then "!" else EmptyString) +++ symbol +++
                        "<" +++ join ", " ss +++ ">")
              | None => None
              end
          | Some EnumDeclaration => Some symbol
          | None => Some "?"
          end
    end.

(** The aliases that are not being translated: each unfolding enters one. *)
Definition unseen (env : SymbolTable) (translating : list string) : nat :=
  List.length (filter (fun k => negb (isTranslating k translating)) (map fst env)).

(** Modelled from the spec: a translation request. "Under untyped mode, every
    call returns exactly ?". *)
Definition translate (env : SymbolTable) (untyped : bool) (t : TsType) : option string :=
  if untyped then Some "?"
  else translateWith env (S (List.length env)) [] t.

(** Modelled from the spec: the annotation the annotator writes after
    [type R = ...], as in the golden file. *)
Definition typedefComment (env : SymbolTable) (untyped : bool) (alias : string)
  : option string :=
  match translate env untyped (TReference alias []) with
  | Some s => Some ("/** @typedef {" +++ s +++ "} */")
  | None => None
  end.

(** The definition with every reference to [alias] replaced by the any type. *)
Fixpoint breakCycle (alias : string) (t : TsType) {struct t} : TsType :=
  match t with
  | TUnion members => TUnion (map (breakCycle alias) members)
  | TArray element => TArray (breakCycle alias element)
  | TRecord fields =>
      TRecord (map (fun f => (fst f, (fst (snd f), breakCycle alias (snd (snd f))))) fields)
  | TFunction this params ret =>
      TFunction
        (match this with Some th => Some (breakCycle alias th) | None => None end)
        (map (fun p => (fst p, breakCycle alias (snd p))) params)
        (breakCycle alias ret)
  | TReference symbol typeArguments =>
      if String.eqb symbol alias then TAny
      else TReference symbol (map (breakCycle alias) typeArguments)
  | other => other
  end.

(** Whether a type mentions a symbol. *)
Fixpoint mentions (alias : string) (t : TsType) {struct t} : bool :=
  match t with
  | TUnion members => existsb (mentions alias) members
  | TArray element => mentions alias element
  | TRecord fields => existsb (fun f => mentions alias (snd (snd f))) fields
  | TFunction this params ret =>
      match this with Some th => mentions alias th | None => false end
      || existsb (fun p => mentions alias (snd p)) params
      || mentions alias ret
  | TReference symbol typeArguments =>
      String.eqb symbol alias || existsb (mentions alias) typeArguments
  | _ => false
  end.

(** [type Recursive = {value: number, next: Recursive};] of
    test_files/typedef/typedef.tsickle.ts *)
Definition typedefTestEnv : SymbolTable :=
  [("MyType", AliasDeclaration TNumber);
   ("Recursive",
    AliasDeclaration
      (TRecord [("value", (false, TNumber));
                ("next", (false, TReference "Recursive" []))]));
   ("ExportedType", AliasDeclaration TString)].

End TypeTranslator.

(** ** The decorator downleveler (decorator-annotator.ts) *)

Module DecoratorAnnotator.

(** [getFullStart()], [getStart()] and [getEnd()] of a node *)
Record TextRange : Type := mkRange {
  pos : nat;
  start : nat;
  end_ : nat
}.

(** *** Declarations of decorators, as [shouldLower] looks at them *)

Inductive DeclarationKind : Type :=
| VariableDeclaration
| VariableDeclarationList
| OtherDeclarationKind.

(** A declaration node with its ancestors, its full text and what
    [ts.getLeadingCommentRanges(node.getFullText(), 0)] returns for it
    ([None] for [undefined]). *)
Inductive DeclarationNode : Type := mkDeclarationNode {
  decl_kind : DeclarationKind;
  decl_parent : option DeclarationNode;
  decl_fullText : string;
  decl_leadingCommentRanges : option (list (nat * nat))
}.

(** *** Symbols, as the constructor parameters need them *)

(** [typeSymbol.valueDeclaration.name] *)
Record ValueName : Type := {
  vn_isIdentifier : bool;     (* valueName.kind === ts.SyntaxKind.Identifier *)
  vn_range : TextRange;
  vn_inRewriterFile : bool;   (* valueName.getSourceFile() === this.rewriter.file *)
  vn_id : nat                 (* the identity of the node, for [===] *)
}.

Record Symbol : Type := {
  sym_isValue : bool;                      (* sym.flags & ts.SymbolFlags.Value *)
  sym_valueName : option ValueName         (* [None]: no valueDeclaration, or no name *)
}.

Record ImportedName : Type := {
  imp_name : TextRange;
  imp_declarationNames : list nat
}.

(** *** Syntax trees *)

Inductive SyntaxKind : Type :=
| Identifier (text : string)
| ComputedPropertyName
| ParameterDeclaration      (* ts.SyntaxKind.Parameter *)
| Constructor
| PropertyDeclaration
| MethodDeclaration
| GetAccessor
| SetAccessor
| ClassDeclaration
| ClassExpression
(** a type node, with [typeChecker.getTypeAtLocation(node).getSymbol()] and
    [new TypeTranslator(typeChecker, node).symbolToString(sym, true)] *)
| TypeNode (symbol : option Symbol) (typeStr : string)
| SourceFile
| OtherKind.

(** The property of the parent that holds a child. *)
Inductive Role : Type := RoleName | RoleType | RoleOther.

(** A node with its children in the order of [ts.forEachChild]. Decorators
    and calls have the shape the TypeScript types give them. *)
Inductive Node : Type :=
| Generic (kind : SyntaxKind) (range : TextRange) (children : list (Role * Node))
| CallExpression (range : TextRange) (expression : Node)
                 (typeArguments : list Node) (arguments : list Node)
| DecoratorNode (range : TextRange) (declarations : list DeclarationNode)
                (expression : Node).

(** [ts.Decorator] *)
Record Decorator : Type := mkDecorator {
  d_range : TextRange;
  d_declarations : list DeclarationNode;  (* getDecoratorDeclarations(d, typeChecker) *)
  d_expression : Node
}.

Definition rangeOf (n : Node) : TextRange :=
  match n with
  | Generic _ r _ => r
  | CallExpression r _ _ _ => r
  | DecoratorNode r _ _ => r
  end.

Definition getFullStart (n : Node) : nat := pos (rangeOf n).
Definition getStart (n : Node) : nat := start (rangeOf n).
Definition getEnd (n : Node) : nat := end_ (rangeOf n).

Definition forEachChild (n : Node) : list Node :=
  match n with
  | Generic _ _ children => map snd children
  | CallExpression _ expression typeArguments arguments =>
      expression :: typeArguments ++ arguments
  | DecoratorNode _ _ expression => [expression]
  end.

Definition asDecorator (n : Node) : list Decorator :=
  match n with
  | DecoratorNode r decls e => [mkDecorator r decls e]
  | _ => []
  end.

(** [n.decorators]; the empty list stands for [undefined] *)
Definition decoratorsOf (n : Node) : list Decorator :=
  flat_map asDecorator (forEachChild n).

Definition withRole (role : Role) (rc : Role * Node) : bool :=
  match role, fst rc with
  | RoleName, RoleName | RoleType, RoleType | RoleOther, RoleOther => true
  | _, _ => false
  end.

Definition childWithRole (role : Role) (n : Node) : option Node :=
  match n with
  | Generic _ _ children =>
      match filter (withRole role) children with
      | rc :: _ => Some (snd rc)
      | [] => None
      end
  | _ => None
  end.

(** [n.name] *)
Definition nameOf (n : Node) : option Node := childWithRole RoleName n.

(** [param.type] *)
Definition typeOf (n : Node) : option Node := childWithRole RoleType n.

Definition isParameter (n : Node) : bool :=
  match n with
  | Generic ParameterDeclaration _ _ => true
  | _ => false
  end.

(** [ctor.parameters] *)
Definition parametersOf (n : Node) : list Node :=
  filter isParameter (forEachChild n).

Fixpoint height (n : Node) : nat :=
  match n with
  | Generic _ _ children =>
      S (fold_right (fun rc acc => Nat.max (height (snd rc)) acc) 0 children)
  | CallExpression _ expression typeArguments arguments =>
      S (Nat.max (height expression)
           (Nat.max (fold_right (fun a acc => Nat.max (height a) acc) 0 typeArguments)
                    (fold_right (fun a acc => Nat.max (height a) acc) 0 arguments)))
  | DecoratorNode _ _ expression => S (height expression)
  end.

(** *** The rewriter state *)

(** What the output is made of: a range of the input copied verbatim by
    [writeRange], or a text given to [emit]. *)
Inductive Piece : Type :=
| Copied (from to : nat)
| Emitted (text : string).

(** An entry of [ctorParameters]: [null], or the pair of the parameter's
    constructor [[sym, typeStr]] and its decorators, each possibly undefined. *)
Definition CtorParameter : Type :=
  option (option (Symbol * string) * option (list Decorator)).

(** The fields of a [DecoratorClassVisitor]; [None] is a field never assigned. *)
Record DecoratorClassVisitor : Type := {
  classDecl : Node;
  importedNames : list ImportedName;
  decorators : option (list Decorator);
  ctorParameters : option (list CtorParameter);
  propDecorators : option (JsMap.t (list Decorator))
}.

(** Modelled from the spec: the Rewriter base class (rewriter.ts) is not among
    the sources. It "reads the original text of a source file and streams
    output", "accumulates diagnostics" and has "an internal cursor". The last
    field is the one [DecoratorRewriter] adds. *)
Record Rewriter : Type := {
  file_text : string;
  output : list Piece;
  diagnostics : list Diagnostic;
  cursor : nat;
  currentDecoratorConverter : option DecoratorClassVisitor
}.

Definition set_output (o : list Piece) (c : nat) (r : Rewriter) : Rewriter :=
  {| file_text := file_text r; output := o; diagnostics := diagnostics r;
     cursor := c; currentDecoratorConverter := currentDecoratorConverter r |}.

Definition set_diagnostics (d : list Diagnostic) (r : Rewriter) : Rewriter :=
  {| file_text := file_text r; output := output r; diagnostics := d;
     cursor := cursor r; currentDecoratorConverter := currentDecoratorConverter r |}.

Definition set_converter (v : option DecoratorClassVisitor) (r : Rewriter) : Rewriter :=
  {| file_text := file_text r; output := output r; diagnostics := diagnostics r;
     cursor := cursor r; currentDecoratorConverter := v |}.

(** Modelled from the spec: "emit(text) - append synthetic text (does not
    advance the cursor)". *)
Definition emit (text : string) (r : Rewriter) : Rewriter :=
  set_output (output r ++ [Emitted text]) (cursor r) r.

(** Modelled from the spec: "writeRange(start, end) - copy the verbatim
    substring [start, end) of the input to the output, advancing an internal
    cursor". *)
Definition writeRange (from to : nat) (r : Rewriter) : Rewriter :=
  set_output (output r ++ [Copied from to]) to r.

(** Modelled from the spec: "error(node, msg) records a diagnostic at the
    node's position and keeps going". *)
Definition error (node : Node) (message : string) (r : Rewriter) : Rewriter :=
  set_diagnostics (diagnostics r ++ [mkDiagnostic (getStart node) message]) r.

(** Modelled from the spec: [errorUnimplementedKind] is [error] with a message
    that names where the kind is not handled. *)
Definition errorUnimplementedKind (node : Node) (where_ : string) (r : Rewriter)
  : Rewriter :=
  error node ("node kind not implemented in " +++ where_) r.

(** The text a piece stands for. *)
Definition renderPiece (text : string) (p : Piece) : string :=
  match p with
  | Copied from to => JsString.slice from to text
  | Emitted s => s
  end.

(** Modelled from the spec: [getOutput] returns the streamed output as one
    string, and the diagnostics. *)
Definition getOutput (r : Rewriter) : string * list Diagnostic :=
  (fold_right (fun p acc => renderPiece (file_text r) p +++ acc) EmptyString (output r),
   diagnostics r).

(** *** DecoratorClassVisitor *)

Definition commentMarksAnnotation (fullText : string) (range : nat * nat) : bool :=
  let jsDocText := JsString.slice (fst range) (snd range) fullText in
  JsString.includes "@Annotation" jsDocText.

(** The node whose leading comments [shouldLower] reads for a declaration;
    [None] where the loop does [continue]. *)
Definition commentNodeOf (d : DeclarationNode) : option DeclarationNode :=
  let step (guard : DeclarationKind -> bool) (commentNode : option DeclarationNode) :=
    match commentNode with
    | Some c => if guard (decl_kind c) then decl_parent c else Some c
    | None => None
    end in
  step (fun k => match k with VariableDeclarationList => true | _ => false end)
    (step (fun k => match k with VariableDeclaration => true | _ => false end)
       (Some d)).

(** Determines whether the given decorator should be re-written as an
    annotation. *)
Definition shouldLower (decorator : Decorator) : bool :=
  existsb
    (fun d =>
       match commentNodeOf d with
       | None => false
       | Some commentNode =>
           match decl_leadingCommentRanges commentNode with
           | None => false
           | Some range =>
               existsb (commentMarksAnnotation (decl_fullText commentNode)) range
           end
       end)
    (d_declarations decorator).

Definition decoratorsToLower (n : Node) : list Decorator :=
  filter shouldLower (decoratorsOf n).

Definition set_decorators (v : option (list Decorator)) (this : DecoratorClassVisitor)
  : DecoratorClassVisitor :=
  {| classDecl := classDecl this; importedNames := importedNames this;
     decorators := v; ctorParameters := ctorParameters this;
     propDecorators := propDecorators this |}.

Definition set_ctorParameters (v : option (list CtorParameter))
    (this : DecoratorClassVisitor) : DecoratorClassVisitor :=
  {| classDecl := classDecl this; importedNames := importedNames this;
     decorators := decorators this; ctorParameters := v;
     propDecorators := propDecorators this |}.

Definition set_propDecorators (v : option (JsMap.t (list Decorator)))
    (this : DecoratorClassVisitor) : DecoratorClassVisitor :=
  {| classDecl := classDecl this; importedNames := importedNames this;
     decorators := decorators this; ctorParameters := ctorParameters this;
     propDecorators := v |}.

(** [new DecoratorClassVisitor(typeChecker, rewriter, classDecl, importedNames)] *)
Definition newDecoratorClassVisitor (classDecl : Node) (importedNames : list ImportedName)
  : DecoratorClassVisitor :=
  let this :=
    {| classDecl := classDecl; importedNames := importedNames;
       decorators := None; ctorParameters := None; propDecorators := None |} in
  match decoratorsOf classDecl with
  | [] => this
  | _ :: _ =>
      let toLower := decoratorsToLower classDecl in
      if (0 <? List.length toLower)%nat then set_decorators (Some toLower) this
      else this
  end.

Definition isSome {A : Type} (o : option A) : bool :=
  match o with Some _ => true | None => false end.

(** The symbol and type string of a parameter's type when "Bar" is a value
    (e.g. a constructor) and not just a type. *)
Definition paramCtorOf (param : Node) : option (Symbol * string) :=
  match typeOf param with
  | Some (Generic (TypeNode (Some sym) typeStr) _ _) =>
      if sym_isValue sym then Some (sym, typeStr) else None
  | _ => None
  end.

(** The body of the loop of [gatherConstructor] over [ctor.parameters]. *)
Definition gatherParameter (acc : list CtorParameter * bool) (param : Node)
  : list CtorParameter * bool :=
  let '(ctorParameters, hasDecoratedParam) := acc in
  let decorators :=
    match decoratorsOf param with
    | [] => None
    | _ :: _ => Some (decoratorsToLower param)
    end in
  let hasDecoratedParam :=
    match decorators with
    | Some ds => (0 <? List.length ds)%nat
    | None => hasDecoratedParam
    end in
  let paramCtor := paramCtorOf param in
  if isSome paramCtor || isSome decorators
  then (ctorParameters ++ [Some (paramCtor, decorators)], hasDecoratedParam)
  else (ctorParameters ++ [None], hasDecoratedParam).

(** gatherConstructor grabs the parameter list and decorators off the class
    constructor, and emits nothing. *)
Definition gatherConstructor (ctor : Node) (this : DecoratorClassVisitor)
  : DecoratorClassVisitor :=
  let '(ctorParameters, hasDecoratedParam) :=
    fold_left gatherParameter (parametersOf ctor) ([], false) in
  if isSome (decorators this) || hasDecoratedParam
  then set_ctorParameters (Some ctorParameters) this
  else this.

(** gatherMethod grabs the decorators off a class method and emits nothing. *)
Definition gatherMethodOrProperty (method : Node) (this : DecoratorClassVisitor)
    (rewriter : Rewriter) : DecoratorClassVisitor * Rewriter :=
  match decoratorsOf method with
  | [] => (this, rewriter)
  | _ :: _ =>
      match nameOf method with
      | Some (Generic (Identifier name) _ _) =>
          let decorators := decoratorsToLower method in
          if (List.length decorators =? 0)%nat then (this, rewriter)
          else
            let map := match propDecorators this with
                       | Some m => m
                       | None => JsMap.empty
                       end in
            (set_propDecorators (Some (JsMap.set name decorators map)) this, rewriter)
      | _ =>
          (this,
           error method "cannot process decorators on strangely named method" rewriter)
      end
  end.

Definition getValueIdentifierForType (this : DecoratorClassVisitor) (typeSymbol : Symbol)
  : option TextRange :=
  match sym_valueName typeSymbol with
  | None => None
  | Some valueName =>
      if negb (vn_isIdentifier valueName) then None
      else if vn_inRewriterFile valueName then Some (vn_range valueName)
      else
        match
          filter (fun imported =>
                    existsb (Nat.eqb (vn_id valueName)) (imp_declarationNames imported))
                 (importedNames this)
        with
        | imported :: _ => Some (imp_name imported)
        | [] => None
        end
  end.

Definition beforeProcessNode (node : Node) (this : DecoratorClassVisitor)
    (rewriter : Rewriter) : DecoratorClassVisitor * Rewriter :=
  match node with
  | Generic Constructor _ _ => (gatherConstructor node this, rewriter)
  | Generic PropertyDeclaration _ _
  | Generic SetAccessor _ _
  | Generic GetAccessor _ _
  | Generic MethodDeclaration _ _ => gatherMethodOrProperty node this rewriter
  | _ => (this, rewriter)
  end.

(** [maybeProcessDecorator(node, start?)]: whether the decorator is handled,
    and the rewriter afterwards. *)
Definition maybeProcessDecorator (node : Decorator) (start_ : option nat)
    (rewriter : Rewriter) : bool * Rewriter :=
  if shouldLower node then
    let start_ :=
      match start_ with
      | Some (S s) => S s
      | _ => pos (d_range node)
      end in
    (true, writeRange start_ (start (d_range node)) rewriter)
  else (false, rewriter).

(** [rewriter.file.text[classDecl.getEnd() - 1] === '}']: the class node ends
    with a closing brace in the text. *)
Definition endsWithBrace (text : string) (classDecl : Node) : bool :=
  match getEnd classDecl with
  | 0 => false
  | S i =>
      match String.get i text with
      | Some "}"%char => true
      | _ => false
      end
  end.

Definition decoratorInvocations : string := "{type: Function, args?: any[]}[]".

(** The first statement of [DecoratorRewriter.maybeProcess]:
    [if (this.currentDecoratorConverter)
       this.currentDecoratorConverter.beforeProcessNode(node)]. *)
Definition notifyConverter (node : Node) (r : Rewriter) : Rewriter :=
  match currentDecoratorConverter r with
  | Some this =>
      let '(this, r) := beforeProcessNode node this r in
      set_converter (Some this) r
  | None => r
  end.

(** The methods that call back into the rewriter's [visit]. *)
Section WithVisit.

Variable visit : Node -> Rewriter -> option Rewriter.

(** The callback given to [ts.forEachChild] by [writeNodeFrom], run over the
    children: the position reached and the rewriter. *)
Fixpoint writeChildren (children : list Node) (pos_ : nat) (r : Rewriter)
  : option (nat * Rewriter) :=
  match children with
  | [] => Some (pos_, r)
  | child :: rest =>
      match visit child (writeRange pos_ (getFullStart child) r) with
      | Some r' => writeChildren rest (getEnd child) r'
      | None => None
      end
  end.

(** Modelled from the spec: "writeNodeFrom(node, start) - copy [start,
    node.end) while descending into children so that child-visitor overrides
    may replace sub-ranges"; the end is [node.getEnd()] unless given. The
    spec says nothing of a child whose full start lies before [start]: here
    such a child is visited from its own full start, as every child is, and
    nothing is clamped to what was written before. *)
Definition writeNodeFrom (node : Node) (pos_ : nat) (end' : nat) (r : Rewriter)
  : option Rewriter :=
  match writeChildren (forEachChild node) pos_ r with
  | Some (pos', r') => Some (writeRange pos' end' r')
  | None => None
  end.

(** Modelled from the spec: a node that is not handled is copied "verbatim
    while recursing into children". *)
Definition writeNode (node : Node) (r : Rewriter) : option Rewriter :=
  writeNodeFrom node (getFullStart node) (getEnd node) r.

(** The loop over [call.arguments] of [emitDecorator]. *)
Fixpoint emitArguments (arguments : list Node) (r : Rewriter) : option Rewriter :=
  match arguments with
  | [] => Some r
  | arg :: rest =>
      match writeNodeFrom arg (getStart arg) (getEnd arg) r with
      | Some r' => emitArguments rest (emit ", " r')
      | None => None
      end
  end.

(** The [switch (expr.kind)] of [emitDecorator]. *)
Definition emitDecoratorExpression (expr : Node) (r : Rewriter) : option Rewriter :=
  match expr with
  | Generic (Identifier _) _ _ =>
      (* The decorator was a plain @Foo. *)
      visit expr r
  | CallExpression _ expression _ arguments =>
      (* The decorator was a call, like @Foo(bar). *)
      match visit expression r with
      | Some r =>
          match arguments with
          | [] => Some r
          | _ :: _ =>
              match emitArguments arguments (emit ", args: [" r) with
              | Some r => Some (emit "]" r)
              | None => None
              end
          end
      | None => None
      end
  | _ => Some (emit "undefined" (errorUnimplementedKind expr "gathering metadata" r))
  end.

Definition emitDecorator (decorator : Decorator) (r : Rewriter) : option Rewriter :=
  match emitDecoratorExpression (d_expression decorator) (emit "{ type: " r) with
  | Some r => Some (emit " }" r)
  | None => None
  end.

(** [for (const d of decorators) { this.emitDecorator(d); this.rewriter.emit(sep); }] *)
Fixpoint emitDecorators (sep : string) (ds : list Decorator) (r : Rewriter)
  : option Rewriter :=
  match ds with
  | [] => Some r
  | d :: rest =>
      match emitDecorator d r with
      | Some r' => emitDecorators sep rest (emit sep r')
      | None => None
      end
  end.

(** The body of the loop over [this.ctorParameters || []]. *)
Definition emitCtorParameter (this : DecoratorClassVisitor) (param : CtorParameter)
    (r : Rewriter) : option Rewriter :=
  match param with
  | None => Some (emit ("null," +++ JsString.nl) r)
  | Some (ctor, decorators) =>
      let r := emit "{type: " r in
      let r :=
        match ctor with
        | None => emit "undefined" r
        | Some (typeSymbol, typeStr) =>
            match getValueIdentifierForType this typeSymbol with
            | Some emitNode => writeRange (start emitNode) (end_ emitNode) r
            | None => emit typeStr r
            end
        end in
      let r := emit ", " r in
      let r :=
        match decorators with
        | Some ds =>
            match emitDecorators ", " ds (emit "decorators: [" r) with
            | Some r => Some (emit "]" r)
            | None => None
            end
        | None => Some r
        end in
      match r with
      | Some r => Some (emit ("}," +++ JsString.nl) r)
      | None => None
      end
  end.

Fixpoint emitCtorParameters (this : DecoratorClassVisitor) (params : list CtorParameter)
    (r : Rewriter) : option Rewriter :=
  match params with
  | [] => Some r
  | param :: rest =>
      match emitCtorParameter this param r with
      | Some r' => emitCtorParameters this rest r'
      | None => None
      end
  end.

(** The loop over [toArray(this.propDecorators.keys())]; the decorators of a
    name are read from the map when its turn comes. *)
Fixpoint emitPropDecorators (names : list string) (r : Rewriter) : option Rewriter :=
  match names with
  | [] => Some r
  | name :: rest =>
      let r := emit (JsString.dquote +++ name +++ JsString.dquote +++ ": [") r in
      let ds :=
        match currentDecoratorConverter r with
        | Some this =>
            match propDecorators this with
            | Some m => match JsMap.get name m with Some ds => ds | None => [] end
            | None => []
            end
        | None => []
        end in
      match emitDecorators "," ds r with
      | Some r' => emitPropDecorators rest (emit ("]," +++ JsString.nl) r')
      | None => None
      end
  end.

(** The first block of [emitMetadataAsStaticProperties]: [if (this.decorators)].
    The visitor ([this]) is the rewriter's current converter, the only one a
    [DecoratorRewriter] ever asks to emit; its fields are read when the source
    reads them. *)
Definition emitDecoratorsField (r : Rewriter) : option Rewriter :=
  match currentDecoratorConverter r with
  | Some this =>
      match decorators this with
      | Some ds =>
          match emitDecorators ("," +++ JsString.nl) ds
                  (emit ("static decorators: " +++ decoratorInvocations +++ " = ["
                         +++ JsString.nl) r) with
          | Some r => Some (emit ("];" +++ JsString.nl) r)
          | None => None
          end
      | None => Some r
      end
  | None => Some r
  end.

(** The second block: [if (this.decorators || this.ctorParameters)]. *)
Definition emitCtorParametersField (r : Rewriter) : option Rewriter :=
  match currentDecoratorConverter r with
  | Some this =>
      if isSome (decorators this) || isSome (ctorParameters this) then
        let r := emit ("/** @nocollapse */" +++ JsString.nl) r in
        (* ctorParameters may contain forward references in the type: field,
           so wrap in a function closure *)
        let r :=
          emit ("static ctorParameters: () => ({type: any, decorators?: "
                +++ decoratorInvocations +++ "}|null)[] = () => ["
                +++ JsString.nl) r in
        let params := match ctorParameters this with
                      | Some ps => ps
                      | None => []
                      end in
        match emitCtorParameters this params r with
        | Some r => Some (emit ("];" +++ JsString.nl) r)
        | None => None
        end
      else Some r
  | None => Some r
  end.

(** The third block: [if (this.propDecorators)]. *)
Definition emitPropDecoratorsField (r : Rewriter) : option Rewriter :=
  match currentDecoratorConverter r with
  | Some this =>
      match propDecorators this with
      | Some m =>
          let r :=
            emit ("static propDecorators: {[key: string]: "
                  +++ decoratorInvocations +++ "} = {" +++ JsString.nl) r in
          match emitPropDecorators (JsMap.keys m) r with
          | Some r => Some (emit ("};" +++ JsString.nl) r)
          | None => None
          end
      | None => Some r
      end
  | None => Some r
  end.

(** emitMetadata emits the various gathered metadata, as static fields. *)
Definition emitMetadataAsStaticProperties (r : Rewriter) : option Rewriter :=
  match emitDecoratorsField r with
  | Some r =>
      match emitCtorParametersField r with
      | Some r => emitPropDecoratorsField r
      | None => None
      end
  | None => None
  end.

(** [visitClassContentIncludingDecorators(classDecl, rewriter, decoratorVisitor?)];
    [decoratorVisitor] tells whether a visitor is passed, which is then the
    rewriter's current converter. *)
Definition visitClassContentIncludingDecorators (classDecl : Node) (rewriter : Rewriter)
    (decoratorVisitor : bool) : option Rewriter :=
  if negb (endsWithBrace (file_text rewriter) classDecl) then
    Some (error classDecl "unexpected class terminator" rewriter)
  else
    match writeNodeFrom classDecl (getStart classDecl) (getEnd classDecl - 1) rewriter with
    | Some rewriter =>
        (* At this point, we've emitted up through the final child of the
           class, so all that remains is the trailing whitespace and closing
           curly brace. *)
        match (if decoratorVisitor then emitMetadataAsStaticProperties rewriter
               else Some rewriter) with
        | Some rewriter =>
            Some (writeRange (getEnd classDecl - 1) (getEnd classDecl) rewriter)
        | None => None
        end
    | None => None
    end.

(** [DecoratorRewriter.maybeProcess] *)
Definition maybeProcess (node : Node) (r : Rewriter) : option (bool * Rewriter) :=
  let r := notifyConverter node r in
  match node with
  | DecoratorNode range declarations expression =>
      match currentDecoratorConverter r with
      | Some _ =>
          Some (maybeProcessDecorator (mkDecorator range declarations expression) None r)
      | None => Some (false, r)
      end
  | Generic ClassDeclaration _ _ =>
      let oldDecoratorConverter := currentDecoratorConverter r in
      let r := set_converter (Some (newDecoratorClassVisitor node [])) r in
      let r := writeRange (getFullStart node) (getStart node) r in
      match visitClassContentIncludingDecorators node r true with
      | Some r => Some (true, set_converter oldDecoratorConverter r)
      | None => None
      end
  | _ => Some (false, r)
  end.

End WithVisit.

(** Modelled from the spec: "visit(node) - dispatch to maybeProcess(node); if
    it returns not handled, copy the node verbatim while recursing into
    children". The rewriter and the visitor call each other; [fuel] bounds the
    nesting of the calls, and [None] is returned only when it runs out. *)
Fixpoint visit (fuel : nat) (node : Node) (r : Rewriter) : option Rewriter :=
  match fuel with
  | 0 => None
  | S fuel' =>
      match maybeProcess (visit fuel') node r with
      | Some (true, r') => Some r'
      | Some (false, r') => writeNode (visit fuel') node r'
      | None => None
      end
  end.

(** Modelled from the spec: the [visit] of the base [Rewriter], whose own
    [maybeProcess] handles no node, so that every node is copied "verbatim
    while recursing into children". *)
Fixpoint copyVisit (fuel : nat) (node : Node) (r : Rewriter) : option Rewriter :=
  match fuel with
  | 0 => None
  | S fuel' => writeNode (copyVisit fuel') node r
  end.

Definition newDecoratorRewriter (text : string) : Rewriter :=
  {| file_text := text; output := []; diagnostics := []; cursor := 0;
     currentDecoratorConverter := None |}.



(** *** What a visitor is shown, and what it holds *)

(** Whether the rewriter, with a converter in place, stops at the node: a
    class declaration is given a visitor of its own, and a lowered decorator
    is not emitted. *)
Definition stopsAt (n : Node) : bool :=
  match n with
  | Generic ClassDeclaration _ _ => true
  | DecoratorNode r decls e => shouldLower (mkDecorator r decls e)
  | _ => false
  end.

(** The nodes given to [beforeProcessNode] of the converter in place while
    the rewriter visits a node, in order. *)
Fixpoint scopeNodes (n : Node) : list Node :=
  n :: (if stopsAt n then []
        else
          match n with
          | Generic _ _ children => flat_map (fun rc => scopeNodes (snd rc)) children
          | CallExpression _ expression typeArguments arguments =>
              scopeNodes expression ++ flat_map scopeNodes typeArguments
              ++ flat_map scopeNodes arguments
          | DecoratorNode _ _ expression => scopeNodes expression
          end).

(** The nodes the visitor of a class is shown before the class is closed. *)
Definition classScope (classDecl : Node) : list Node :=
  flat_map scopeNodes (forEachChild classDecl).

(** The visitor after [beforeProcessNode(node)]. *)
Definition gathered (node : Node) (this : DecoratorClassVisitor) : DecoratorClassVisitor :=
  fst (beforeProcessNode node this (newDecoratorRewriter EmptyString)).

Definition gatherAll (nodes : list Node) (this : DecoratorClassVisitor)
  : DecoratorClassVisitor :=
  fold_left (fun v n => gathered n v) nodes this.

(** [hasDecoratedParam] at the end of the loop of [gatherConstructor]. *)
Definition hasDecoratedParam (ctor : Node) : bool :=
  snd (fold_left gatherParameter (parametersOf ctor) ([], false)).

Definition isClassDeclaration (n : Node) : bool :=
  match n with
  | Generic ClassDeclaration _ _ => true
  | _ => false
  end.



(** The name of a declaration when it is a plain identifier. *)
Definition identifierName (n : Node) : option string :=
  match nameOf n with
  | Some (Generic (Identifier name) _ _) => Some name
  | _ => None
  end.

Definition ctorParameterDecorators (p : CtorParameter) : list Decorator :=
  match p with
  | Some (_, Some ds) => ds
  | _ => []
  end.

(** Every decorator a visitor holds. *)
Definition storedDecorators (this : DecoratorClassVisitor) : list Decorator :=
  match decorators this with Some ds => ds | None => [] end
  ++ match ctorParameters this with
     | Some ps => flat_map ctorParameterDecorators ps
     | None => []
     end
  ++ match propDecorators this with
     | Some m => flat_map snd m
     | None => []
     end.

(** The pieces written between two states of the rewriter. *)
Definition emittedPieces (before after : Rewriter) : list Piece :=
  skipn (List.length (output before)) (output after).

(** The rewriter as [maybeProcess] hands it to
    [visitClassContentIncludingDecorators] for a class declaration. *)
Definition enterClass (classDecl : Node) (r : Rewriter) : Rewriter :=
  writeRange (getFullStart classDecl) (getStart classDecl)
    (set_converter (Some (newDecoratorClassVisitor classDecl [])) r).

(** The rewriter when the members of the class have been written and the
    metadata is about to be emitted. *)
Definition beforeMetadata (fuel : nat) (classDecl : Node) (r : Rewriter) : option Rewriter :=
  writeNodeFrom (visit fuel) classDecl (getStart classDecl) (getEnd classDecl - 1)
    (enterClass classDecl r).

(** The pieces [emitMetadataAsStaticProperties] writes for a class. *)
Definition metadataBlock (fuel : nat) (classDecl : Node) (r : Rewriter)
  : option (list Piece) :=
  match beforeMetadata fuel classDecl r with
  | Some r1 =>
      match emitMetadataAsStaticProperties (visit fuel) r1 with
      | Some r2 => Some (emittedPieces r1 r2)
      | None => None
      end
  | None => None
  end.

Definition staticDecoratorsHeader : Piece :=
  Emitted ("static decorators: " +++ decoratorInvocations +++ " = [" +++ JsString.nl).

Definition staticCtorParametersHeader : Piece :=
  Emitted ("static ctorParameters: () => ({type: any, decorators?: "
           +++ decoratorInvocations +++ "}|null)[] = () => [" +++ JsString.nl).

Definition staticPropDecoratorsHeader : Piece :=
  Emitted ("static propDecorators: {[key: string]: "
           +++ decoratorInvocations +++ "} = {" +++ JsString.nl).

(** *** The type annotations of the metadata *)

(** emits the types for the various gathered metadata to be used in the
    tsickle type annotations helper. The name of a class declaration is an
    identifier, and [getIdentifierText] gives its text. *)
Definition emitMetadataTypeAnnotationsHelpers (this : DecoratorClassVisitor)
    (r : Rewriter) : Rewriter :=
  match identifierName (classDecl this) with
  | None => r
  | Some className =>
      let r :=
        if isSome (decorators this) then
          emit (className +++ ".decorators;" +++ JsString.nl)
            (emit ("/** @type {!Array<{type: !Function, args: (undefined|!Array<?>)}>} */"
                   +++ JsString.nl) r)
        else r in
      let r :=
        if isSome (decorators this) || isSome (ctorParameters this) then
          emit (className +++ ".ctorParameters;" +++ JsString.nl)
            (emit (" */" +++ JsString.nl)
               (emit (" * @type {function(): !Array<(null|{type: ?, decorators: (undefined|!Array<{type: !Function, args: (undefined|!Array<?>)}>)})>}"
                      +++ JsString.nl)
                  (emit (" * @nocollapse" +++ JsString.nl)
                     (emit ("/**" +++ JsString.nl) r))))
        else r in
      if isSome (propDecorators this) then
        emit (className +++ ".propDecorators;" +++ JsString.nl)
          (emit ("/** @type {!Object<string,!Array<{type: !Function, args: (undefined|!Array<?>)}>>} */"
                 +++ JsString.nl) r)
      else r
  end.

(** *** Shapes of trees *)

(** [n.decorators] is defined *)
Definition isDecorated (n : Node) : bool :=
  match decoratorsOf n with
  | [] => false
  | _ :: _ => true
  end.

(** The last parameter of a constructor that carries decorators. *)
Definition lastDecoratedParameter (ctor : Node) : option Node :=
  find isDecorated (rev (parametersOf ctor)).

(** The entry of [ctorParameters] that [gatherConstructor] makes for a
    parameter. *)
Definition ctorParameterOf (param : Node) : CtorParameter :=
  if isSome (paramCtorOf param) || isDecorated param
  then Some (paramCtorOf param,
             if isDecorated param then Some (decoratorsToLower param) else None)
  else None.

(** A class declaration occurs in the tree. *)
Fixpoint hasClassDeclaration (n : Node) : bool :=
  match n with
  | Generic kind _ children =>
      match kind with ClassDeclaration => true | _ => false end
      || existsb (fun rc => hasClassDeclaration (snd rc)) children
  | CallExpression _ expression typeArguments arguments =>
      hasClassDeclaration expression
      || existsb hasClassDeclaration typeArguments
      || existsb hasClassDeclaration arguments
  | DecoratorNode _ _ expression => hasClassDeclaration expression
  end.

Definition isCopied (p : Piece) : bool :=
  match p with
  | Copied _ _ => true
  | Emitted _ => false
  end.


(** What the rewriter does outside class declarations: it reports nothing,
    has no visitor in place, and only copies ranges of the text. *)
Definition copiesOnly (r r' : Rewriter) : Prop :=
  diagnostics r' = diagnostics r
  /\ currentDecoratorConverter r' = None
  /\ file_text r' = file_text r
  /\ exists pieces, output r' = output r ++ pieces /\ forallb isCopied pieces = true.


(** *** Invariants of the traversal *)

(** The expression of a decorator is lower than [h]. *)
Definition expressionBelow (h : nat) (d : Decorator) : Prop :=
  height (d_expression d) < h.

(** Every decorator the converter in place holds is lower than [h]. *)
Definition storedBelow (h : nat) (r : Rewriter) : Prop :=
  forall v, currentDecoratorConverter r = Some v ->
            Forall (expressionBelow h) (storedDecorators v).

(** The rewriter only appends to its output, and reads the same text. *)
Definition extends (r r' : Rewriter) : Prop :=
  file_text r' = file_text r /\ exists pieces, output r' = output r ++ pieces.

(** What visiting a node does to the converter in place: it is shown the
    nodes of the scope, in order. *)
Definition visited (n : Node) (r r' : Rewriter) : Prop :=
  extends r r'
  /\ currentDecoratorConverter r'
     = option_map (gatherAll (scopeNodes n)) (currentDecoratorConverter r).

(** The rewriter appends, and the converter in place still holds only
    decorators lower than any bound from [h] on. *)
Definition keeps (h : nat) (r r' : Rewriter) : Prop :=
  extends r r'
  /\ forall bound, h <= bound -> storedBelow bound r -> storedBelow bound r'.

End DecoratorAnnotator.

(** ** Concrete inputs for the coordinator *)

Module MainExamples.

Import Main.

(** A file system with one source, [a.ts], older than its output [a.js]. *)
Definition staleSys : Sys :=
  {| resolvePath := fun p => p;
     cwd := "/";
     path_relative := fun _ p => p;
     path_resolve := fun _ p => p;
     path_dirname := fun _ => "/";
     stat_mtime := fun f =>
       if String.eqb f "a.ts" then Some 5%Z
       else if String.eqb f "a.js" then Some 10%Z
       else None;
     readFileSync := fun f =>
       if String.eqb f "a.ts" then Some "export const x = 1;" else None;
     transpileModule := fun code _ _ =>
       {| outputText := code; transpile_diagnostics := [] |};
     processES5 := fun _ fileName content =>
       "goog.module('" +++ fileName +++ "');" +++ content;
     cli_pathToModuleName := fun _ f => f;
     projectNameSensitivePathToModuleName := fun f _ _ _ _ => f;
     formatDiagnostics := fun _ => "error" |}.

(** The same file system before [a.js] was ever written. *)
Definition freshSys : Sys :=
  {| resolvePath := resolvePath staleSys;
     cwd := cwd staleSys;
     path_relative := path_relative staleSys;
     path_resolve := path_resolve staleSys;
     path_dirname := path_dirname staleSys;
     stat_mtime := fun f => if String.eqb f "a.ts" then Some 5%Z else None;
     readFileSync := readFileSync staleSys;
     transpileModule := transpileModule staleSys;
     processES5 := processES5 staleSys;
     cli_pathToModuleName := cli_pathToModuleName staleSys;
     projectNameSensitivePathToModuleName :=
       projectNameSensitivePathToModuleName staleSys;
     formatDiagnostics := formatDiagnostics staleSys |}.

Definition plainOptions : CompilerOptions :=
  {| outDir := None; project := None; module_kind := Some CommonJS |}.

Definition emptyHost : CompilerHost :=
  {| getSourceFile := fun _ _ => None;
     getDefaultLibFileName := fun _ => "lib.d.ts";
     getCurrentDirectory := "/";
     getCanonicalFileName := fun f => f;
     useCaseSensitiveFileNames := true;
     getNewLine := JsString.nl;
     fileExists := fun _ => false;
     readFile := fun _ => None;
     directoryExists := fun _ => false;
     getDirectories := fun _ => [] |}.

(** A host whose file [a.ts] holds [let x;]. *)
Definition diskHost : CompilerHost :=
  {| getSourceFile := fun f lv =>
       if String.eqb f "a.ts" then Some (createSourceFile f "let x;" lv) else None;
     getDefaultLibFileName := getDefaultLibFileName emptyHost;
     getCurrentDirectory := getCurrentDirectory emptyHost;
     getCanonicalFileName := getCanonicalFileName emptyHost;
     useCaseSensitiveFileNames := useCaseSensitiveFileNames emptyHost;
     getNewLine := getNewLine emptyHost;
     fileExists := fun f => String.eqb f "a.ts";
     readFile := fun f => if String.eqb f "a.ts" then Some "let x;" else None;
     directoryExists := directoryExists emptyHost;
     getDirectories := getDirectories emptyHost |}.

Definition emitError : Diagnostic :=
  mkDiagnostic 0 "Cannot write file 'a.js' because it would overwrite input file.".

(** A program that type-checks and whose emit reports a diagnostic. The
    program and the tsickle host carry no state here. *)
Definition emitFailsApi : TsApi unit unit :=
  {| createCompilerHost := fun _ => diskHost;
     newTsickleCompilerHost := fun _ _ _ _ => tt;
     createProgram := fun _ _ _ => (tt, tt);
     getPreEmitDiagnostics := fun _ => [];
     reconfigureForRun := fun _ _ _ => tt;
     program_emit := fun _ _ =>
       {| emitted_files := [("a.js", "var x;")];
          emit_diagnostics := [emitError];
          host_after_emit := tt |};
     getGeneratedExterns := fun _ => EmptyString |}.

(** A program that type-checks and emits [a.js] without diagnostics. *)
Definition cleanApi : TsApi unit unit :=
  {| createCompilerHost := fun _ => diskHost;
     newTsickleCompilerHost := fun _ _ _ _ => tt;
     createProgram := fun _ _ _ => (tt, tt);
     getPreEmitDiagnostics := fun _ => [];
     reconfigureForRun := fun _ _ _ => tt;
     program_emit := fun _ _ =>
       {| emitted_files := [("a.js", "var x;")];
          emit_diagnostics := [];
          host_after_emit := tt |};
     getGeneratedExterns := fun _ => "/** externs */" |}.

Definition typeError : Diagnostic :=
  mkDiagnostic 4 "Type 'string' is not assignable to type 'number'.".

(** A program with a type error. *)
Definition typeErrorApi : TsApi unit unit :=
  {| createCompilerHost := fun _ => diskHost;
     newTsickleCompilerHost := fun _ _ _ _ => tt;
     createProgram := fun _ _ _ => (tt, tt);
     getPreEmitDiagnostics := fun _ => [typeError];
     reconfigureForRun := fun _ _ _ => tt;
     program_emit := fun _ _ =>
       {| emitted_files := []; emit_diagnostics := []; host_after_emit := tt |};
     getGeneratedExterns := fun _ => EmptyString |}.

Definition annotationError : Diagnostic :=
  mkDiagnostic 0 "type annotations (using {...}) are redundant with TypeScript types".

(** For the first coordinator: a program that type-checks and an annotator
    that reports a diagnostic on [a.ts]. *)
Definition annotateFailsApi : MainLegacy.TsApi unit :=
  {| MainLegacy.resolvePath := fun p => p;
     MainLegacy.path_extname := fun f => JsString.substr_last 3 f;
     MainLegacy.createCompilerHost := fun _ => diskHost;
     MainLegacy.createProgram := fun _ _ _ => tt;
     MainLegacy.getPreEmitDiagnostics := fun _ => [];
     MainLegacy.annotate := fun _ _ _ =>
       {| MainLegacy.output := "let x;";
          MainLegacy.annotate_externs := None;
          MainLegacy.annotate_diagnostics := [annotationError] |};
     MainLegacy.program_emit := fun _ => ([("a.js", "var x;")], []);
     MainLegacy.convertCommonJsToGoogModule := fun _ content =>
       {| MainLegacy.convert_output := content;
          MainLegacy.convert_diagnostics := [] |} |}.

Definition legacySettings : MainLegacy.Settings :=
  {| MainLegacy.externsPath := None;
     MainLegacy.isUntyped := false;
     MainLegacy.verbose := None;
     MainLegacy.ignoreTypesInComments := false |}.

Definition plainConfig : Config :=
  {| options := plainOptions;
     fileNames := ["a.ts"];
     tsickleSettings :=
       {| key_externs := None; key_typed := None; key_typedSignatures := None;
          key_verbose := None; key_devmode := None; key_googModuleRootDir := None;
          key_googModuleProjectName := None |} |}.


(** [loadTscConfig] finding the plain configuration. *)
Definition loadPlainConfig (tscArgs : list string) : option Config * list Diagnostic :=
  (Some plainConfig, []).


(** The TypeScript configuration services over a tsconfig.json that holds
    the file [a.ts] and no tsickle section; file arguments are taken from
    the command line as they are. *)
Definition plainConfigApi : ConfigApi unit :=
  {| parseCommandLine := fun args =>
       {| pcl_options := plainOptions; pcl_fileNames := args; pcl_errors := [] |};
     path_join := fun dir name => dir +++ "/" +++ name;
     readConfigFile := fun _ => inl tt;
     json_tsickle := fun _ => None;
     parseJsonConfigFileContent := fun _ _ options _ =>
       {| pcl_options := options; pcl_fileNames := ["a.ts"]; pcl_errors := [] |} |}.




End MainExamples.

(** ** Concrete inputs for the decorator downleveler *)

Module DecoratorExamples.

Import DecoratorAnnotator.

(** The declaration [/** @Annotation */ function Comp() {}]. *)
Definition annotationDeclaration : DeclarationNode :=
  mkDeclarationNode OtherDeclarationKind None
    "/** @Annotation */ function Comp() {}" (Some [(0, 19)]).

(** The declaration [function Plain() {}], without the marker. *)
Definition plainDeclaration : DeclarationNode :=
  mkDeclarationNode OtherDeclarationKind None "function Plain() {}" None.

(** The declaration of an exported constant, [export const Inject = ...]
    below a statement that carries the marker: the declaration, in its
    declaration list, in the statement. *)
Definition markedStatement : DeclarationNode :=
  mkDeclarationNode OtherDeclarationKind None
    "/** @Annotation */ export const Inject = make();" (Some [(0, 19)]).

Definition exportedConstant : DeclarationNode :=
  mkDeclarationNode VariableDeclaration
    (Some (mkDeclarationNode VariableDeclarationList (Some markedStatement)
             " const Inject = make()" None))
    " Inject = make()" None.

(** A variable declaration that has no parent, with the marker in its own
    text. *)
Definition orphanVariable : DeclarationNode :=
  mkDeclarationNode VariableDeclaration None "/** @Annotation */ x" (Some [(0, 19)]).


Definition leaf (kind : SyntaxKind) (pos_ start_ end' : nat) : Node :=
  Generic kind (mkRange pos_ start_ end') [].





(** A class with one lowerable decorator, a call without arguments. *)
Definition componentText : string := "@Comp() class C { }".

Definition componentCall : Node :=
  CallExpression (mkRange 1 1 7) (leaf (Identifier "Comp") 1 1 5) [] [].

Definition componentDecorator : Decorator :=
  mkDecorator (mkRange 0 0 7) [annotationDeclaration] componentCall.

Definition componentClass : Node :=
  Generic ClassDeclaration (mkRange 0 0 19)
    [(RoleOther, DecoratorNode (mkRange 0 0 7) [annotationDeclaration] componentCall);
     (RoleName, leaf (Identifier "C") 13 14 15)].

(** The decorator [@Comp(1, x)] of the text [@Comp(1, x) class D { }]. *)
Definition argumentsText : string := "@Comp(1, x) class D { }".

Definition argumentsDecorator : Decorator :=
  mkDecorator (mkRange 0 0 11) [annotationDeclaration]
    (CallExpression (mkRange 1 1 11) (leaf (Identifier "Comp") 1 1 5) []
       [leaf OtherKind 6 6 7; leaf (Identifier "x") 8 9 10]).

(** A class whose only lowerable decorator sits on a property. *)
Definition propertyText : string := "class P { @In x; }".

Definition propertyClass : Node :=
  Generic ClassDeclaration (mkRange 0 0 18)
    [(RoleName, leaf (Identifier "P") 5 6 7);
     (RoleOther,
      Generic PropertyDeclaration (mkRange 9 10 16)
        [(RoleOther, DecoratorNode (mkRange 9 10 13) [annotationDeclaration]
                       (leaf (Identifier "In") 11 11 13));
         (RoleName, leaf (Identifier "x") 13 14 15)])].

(** The property [@In x;] of [propertyClass]. *)
Definition propertyMember : Node :=
  Generic PropertyDeclaration (mkRange 9 10 16)
    [(RoleOther, DecoratorNode (mkRange 9 10 13) [annotationDeclaration]
                   (leaf (Identifier "In") 11 11 13));
     (RoleName, leaf (Identifier "x") 13 14 15)].

(** A constructor whose first parameter carries a lowerable decorator and
    whose second carries one that is not:
    [class Q { constructor(@In a, @Plain b) {} }]. *)
Definition mixedText : string := "class Q { constructor(@In a, @Plain b) {} }".

Definition mixedConstructor : Node :=
  Generic Constructor (mkRange 9 10 41)
    [(RoleOther,
      Generic ParameterDeclaration (mkRange 22 22 27)
        [(RoleOther, DecoratorNode (mkRange 22 22 25) [annotationDeclaration]
                       (leaf (Identifier "In") 23 23 25));
         (RoleName, leaf (Identifier "a") 25 26 27)]);
     (RoleOther,
      Generic ParameterDeclaration (mkRange 28 29 37)
        [(RoleOther, DecoratorNode (mkRange 28 29 35) [plainDeclaration]
                       (leaf (Identifier "Plain") 30 30 35));
         (RoleName, leaf (Identifier "b") 35 36 37)]);
     (RoleOther, leaf OtherKind 38 39 41)].

Definition mixedClass : Node :=
  Generic ClassDeclaration (mkRange 0 0 43)
    [(RoleName, leaf (Identifier "Q") 5 6 7);
     (RoleOther, mixedConstructor)].

(** A class expression with a decorated property:
    [x = class { @In y; }] (the part from [class] on). *)
Definition classExpressionText : string := "class { @In y; }".

Definition classExpression : Node :=
  Generic ClassExpression (mkRange 0 0 16)
    [(RoleOther,
      Generic PropertyDeclaration (mkRange 7 8 14)
        [(RoleOther, DecoratorNode (mkRange 7 8 11) [annotationDeclaration]
                       (leaf (Identifier "In") 9 9 11));
         (RoleName, leaf (Identifier "y") 11 12 13)])].





(** A class expression inside a method of a class declaration:
    [class A { m() { return class { @In y; } } }]. *)
Definition nestedText : string := "class A { m() { return class { @In y; } } }".

Definition nestedProperty : Node :=
  Generic PropertyDeclaration (mkRange 30 31 37)
    [(RoleOther, DecoratorNode (mkRange 30 31 34) [annotationDeclaration]
                   (leaf (Identifier "In") 32 32 34));
     (RoleName, leaf (Identifier "y") 34 35 36)].

Definition nestedMethod : Node :=
  Generic MethodDeclaration (mkRange 9 10 41)
    [(RoleName, leaf (Identifier "m") 9 10 11);
     (RoleOther,
      Generic OtherKind (mkRange 13 14 41)
        [(RoleOther,
          Generic OtherKind (mkRange 15 16 39)
            [(RoleOther,
              Generic ClassExpression (mkRange 22 23 39)
                [(RoleOther, nestedProperty)])])])].

Definition nestedClass : Node :=
  Generic ClassDeclaration (mkRange 0 0 43)
    [(RoleName, leaf (Identifier "A") 5 6 7);
     (RoleOther, nestedMethod)].

End DecoratorExamples.

(** * Properties *)

(** ** Facts about [JsMap] *)

Module JsMapFacts.

Import JsMap.

Lemma get_set_same {V : Type} (k : string) (v : V) (m : t V) :
  get k (set k v m) = Some v.
Proof.
  induction m as [|[k' v'] m IH]; simpl.
  - now rewrite String.eqb_refl.
  - destruct (String.eqb k k') eqn:E; simpl; rewrite E; auto.
Qed.

Lemma get_set_other {V : Type} (k k0 : string) (v : V) (m : t V) :
  k0 <> k -> get k0 (set k v m) = get k0 m.
Proof.
  intros Hne. induction m as [|[k' v'] m IH]; simpl.
  - destruct (String.eqb k0 k) eqn:E; auto.
    apply String.eqb_eq in E. contradiction.
  - destruct (String.eqb k k') eqn:E; simpl.
    + apply String.eqb_eq in E. subst k'.
      destruct (String.eqb k0 k) eqn:E0; auto.
      apply String.eqb_eq in E0. contradiction.
    + now rewrite IH.
Qed.

Lemma get_set {V : Type} (k k0 : string) (v : V) (m : t V) :
  get k0 (set k v m) = if String.eqb k0 k then Some v else get k0 m.
Proof.
  destruct (String.eqb k0 k) eqn:E.
  - apply String.eqb_eq in E. subst. apply get_set_same.
  - apply String.eqb_neq in E. now apply get_set_other.
Qed.

Lemma in_keys_get {V : Type} (k : string) (m : t V) :
  In k (keys m) <-> get k m <> None.
Proof.
  induction m as [|[k' v'] m IH]; simpl.
  - split; [tauto | congruence].
  - destruct (String.eqb k k') eqn:E.
    + apply String.eqb_eq in E. subst. split; [congruence | auto].
    + apply String.eqb_neq in E. rewrite <- IH. split.
      * intros [H|H]; [congruence | assumption].
      * auto.
Qed.


Lemma in_keys_set {V : Type} (k k0 : string) (v : V) (m : t V) :
  In k0 (keys (set k v m)) <-> k0 = k \/ In k0 (keys m).
Proof.
  rewrite !in_keys_get, get_set.
  destruct (String.eqb k0 k) eqn:E.
  - apply String.eqb_eq in E. split; [auto | discriminate].
  - apply String.eqb_neq in E. tauto.
Qed.


End JsMapFacts.

(** ** The pipeline coordinator *)

Module MainProperties.

Import Main.

Lemma nonempty_length {A : Type} (l : list A) :
  (0 <? List.length l)%nat = true <-> l <> [].
Proof.
  destruct l; simpl; split; intros H; try congruence; try discriminate; reflexivity.
Qed.

Lemma empty_length {A : Type} (l : list A) :
  (0 <? List.length l)%nat = false <-> l = [].
Proof.
  destruct l; simpl; split; intros H; try congruence; try discriminate; reflexivity.
Qed.

(** C10. In the source-replacing compiler host, [getSourceFile] builds the
    source file from the overlay text only when that text is truthy: an
    overlay entry that maps the (resolved) file name to the empty string is
    ignored, and the delegate's file is returned. *)
Theorem getSourceFile_ignores_empty_overlay
    (w : Sys) (substituteSource : JsMap.t string) (delegate : CompilerHost)
    (fileName : string) (languageVersion : ScriptTarget) (text : string) :
  JsMap.get (resolvePath w fileName) substituteSource = Some text ->
  getSourceFile (createSourceReplacingCompilerHost w substituteSource delegate)
    fileName languageVersion
  = if String.eqb text EmptyString
    then getSourceFile delegate (resolvePath w fileName) languageVersion
    else Some (createSourceFile (resolvePath w fileName) text languageVersion).
Proof.
  intros Hget. simpl. rewrite Hget. simpl.
  destruct (String.eqb text EmptyString); reflexivity.
Qed.

(** An empty overlay for [a.ts] leaves the file of the disk in place. *)
Lemma getSourceFile_ignores_empty_overlay_witness :
  getSourceFile
    (createSourceReplacingCompilerHost MainExamples.staleSys
       [("a.ts", EmptyString)] MainExamples.diskHost) "a.ts" ES5
  = Some (createSourceFile "a.ts" "let x;" ES5).
Proof.
  exact (getSourceFile_ignores_empty_overlay MainExamples.staleSys
           [("a.ts", EmptyString)] MainExamples.diskHost "a.ts" ES5
           (text := EmptyString) eq_refl).
Defined.

Lemma toClosureJS_unfold {Program Host : Type} (ts : TsApi Program Host) (w : Sys)
    (options : CompilerOptions) (fileNames : list string) (settings : Settings)
    (allDiagnostics : list Diagnostic) (partial : PartialClosureJSOptions) :
  toClosureJS ts w options fileNames settings allDiagnostics partial
  = let tc := typeCheckDiagnostics ts w options fileNames settings partial in
    let em := emitAfterPasses ts w options fileNames settings partial in
    if (0 <? List.length tc)%nat then (None, allDiagnostics ++ tc)
    else if (0 <? List.length (emit_diagnostics em))%nat
         then (None, allDiagnostics ++ emit_diagnostics em)
         else (Some {| jsFiles := retainOutput (emitted_files em) JsMap.empty;
                       externs := getGeneratedExterns ts (host_after_emit em) |},
               allDiagnostics).
Proof.
  unfold toClosureJS, typeCheckDiagnostics, emitAfterPasses. cbv zeta.
  destruct (createProgram ts fileNames options _) as [program tch] eqn:E0.
  cbn [fst snd].
  destruct (0 <? List.length (getPreEmitDiagnostics ts program))%nat; [reflexivity|].
  destruct (hasPass DECORATOR_DOWNLEVEL _);
    [destruct (createProgram ts fileNames options
                 (reconfigureForRun ts tch program DECORATOR_DOWNLEVEL))
       as [program1 tch1] | ];
    cbn [fst snd];
    (destruct (hasPass CLOSURIZE _);
     [ match goal with
       | |- context [createProgram ts fileNames options (reconfigureForRun ts ?h ?p CLOSURIZE)] =>
           destruct (createProgram ts fileNames options (reconfigureForRun ts h p CLOSURIZE))
             as [program2 tch2]
       end | ]);
    cbn [fst snd]; reflexivity.
Qed.

Lemma annotateFiles_aborts {Program : Type} (ts : MainLegacy.TsApi Program)
    (program : Program) (o : MainLegacy.TsickleOptions) (fileNames : list string) :
  forall (out : JsMap.t string) (ext : string),
    (exists f, In f fileNames /\
               MainLegacy.annotate_diagnostics (MainLegacy.annotate ts program f o) <> []) ->
    exists ds, ds <> [] /\
               MainLegacy.annotateFiles ts program o fileNames out ext = inl ds.
Proof.
  induction fileNames as [|f0 rest IH]; intros out ext [f [Hin Hd]].
  - destruct Hin.
  - simpl.
    destruct (0 <? List.length
                (MainLegacy.annotate_diagnostics (MainLegacy.annotate ts program f0 o)))%nat
      eqn:E.
    + apply nonempty_length in E. eauto.
    + apply empty_length in E. destruct Hin as [->|Hin]; [contradiction|].
      apply IH. eauto.
Qed.

(** C3, as the code has it. [toClosureJS] returns [null] both when the type
    check of the program as written reports diagnostics and when the emit
    that ends it reports diagnostics, and pushes exactly those diagnostics;
    otherwise it returns the retained files and the externs and pushes
    nothing. The first coordinator returns diagnostics and no files as soon
    as the annotator reports a diagnostic for an input file, and whenever it
    returns files it returns no diagnostics. *)
Theorem toClosureJS_abort_conditions :
  (forall (Program Host : Type) (ts : TsApi Program Host) (w : Sys)
          (options : CompilerOptions) (fileNames : list string) (settings : Settings)
          (allDiagnostics : list Diagnostic) (partial : PartialClosureJSOptions),
      let tc := typeCheckDiagnostics ts w options fileNames settings partial in
      let em := emitAfterPasses ts w options fileNames settings partial in
      let result := toClosureJS ts w options fileNames settings allDiagnostics partial in
      (fst result = None <-> tc <> [] \/ emit_diagnostics em <> [])
      /\ (tc <> [] -> result = (None, allDiagnostics ++ tc))
      /\ (tc = [] -> emit_diagnostics em <> [] ->
          result = (None, allDiagnostics ++ emit_diagnostics em))
      /\ (tc = [] -> emit_diagnostics em = [] ->
          result = (Some {| jsFiles := retainOutput (emitted_files em) JsMap.empty;
                            externs := getGeneratedExterns ts (host_after_emit em) |},
                    allDiagnostics)))
  /\
  (forall (Program : Type) (ts : MainLegacy.TsApi Program)
          (options : CompilerOptions) (fileNames : list string)
          (settings : MainLegacy.Settings),
      let result := MainLegacy.toClosureJS ts options fileNames settings in
      let tsickleOptions :=
        {| MainLegacy.untyped := MainLegacy.isUntyped settings;
           MainLegacy.opt_ignoreTypesInComments := MainLegacy.ignoreTypesInComments settings;
           MainLegacy.logWarning := truthyB (MainLegacy.verbose settings) |} in
      let program := MainLegacy.createProgram ts fileNames options None in
      ((exists f, In f fileNames /\
                  MainLegacy.annotate_diagnostics
                    (MainLegacy.annotate ts program f tsickleOptions) <> []) ->
       MainLegacy.jsFiles result = None /\
       exists ds, ds <> [] /\ MainLegacy.errors result = Some ds)
      /\ (MainLegacy.jsFiles result <> None -> MainLegacy.errors result = None)).
Proof.
  split.
  - intros Program Host ts w options fileNames settings allDiagnostics partial tc em result.
    subst result. rewrite toClosureJS_unfold. fold tc em. cbv zeta.
    destruct (0 <? List.length tc)%nat eqn:Etc;
      [apply nonempty_length in Etc | apply empty_length in Etc].
    + repeat split; intros; try reflexivity; try contradiction; auto.
    + destruct (0 <? List.length (emit_diagnostics em))%nat eqn:Eem;
        [apply nonempty_length in Eem | apply empty_length in Eem].
      * repeat split; intros; try reflexivity; try contradiction; auto.
      * repeat split; intros; try reflexivity; try contradiction; simpl in *;
          try discriminate.
        destruct H; contradiction.
  - intros Program ts options fileNames settings result tsickleOptions program.
    subst result. unfold MainLegacy.toClosureJS. fold program. fold tsickleOptions.
    split.
    + intros Hex.
      destruct (0 <? List.length (MainLegacy.getPreEmitDiagnostics ts program))%nat eqn:E0.
      * apply nonempty_length in E0. simpl. split; [reflexivity|]. eauto.
      * destruct (annotateFiles_aborts ts program tsickleOptions fileNames
                    JsMap.empty EmptyString Hex) as [ds [Hds Heq]].
        rewrite Heq. simpl. split; [reflexivity|]. eauto.
    + destruct (0 <? List.length (MainLegacy.getPreEmitDiagnostics ts program))%nat;
        [simpl; congruence|].
      destruct (MainLegacy.annotateFiles ts program tsickleOptions fileNames
                  JsMap.empty EmptyString) as [ds|[out ext]]; [simpl; congruence|].
      destruct (0 <? List.length _)%nat; [simpl; congruence|].
      destruct (MainLegacy.program_emit ts _) as [written ds].
      destruct (0 <? List.length ds)%nat; simpl; congruence.
Qed.

(** A clean type check followed by an emit diagnostic: no output; and, for
    the first coordinator, an annotation diagnostic: no files. *)
Lemma toClosureJS_abort_conditions_witness :
  toClosureJS MainExamples.emitFailsApi MainExamples.staleSys MainExamples.plainOptions
    ["a.ts"] emptySettings [] noPartialOptions
  = (None, [MainExamples.emitError])
  /\ MainLegacy.jsFiles
       (MainLegacy.toClosureJS MainExamples.annotateFailsApi MainExamples.plainOptions
          ["a.ts"] MainExamples.legacySettings) = None.
Proof.
  split.
  - apply (proj1 (proj2 (proj2 (proj1 toClosureJS_abort_conditions unit unit
             MainExamples.emitFailsApi MainExamples.staleSys MainExamples.plainOptions
             ["a.ts"] emptySettings [] noPartialOptions)))).
    + reflexivity.
    + discriminate.
  - apply (proj1 (proj2 toClosureJS_abort_conditions unit
             MainExamples.annotateFailsApi MainExamples.plainOptions
             ["a.ts"] MainExamples.legacySettings)).
    exists "a.ts". split; [left; reflexivity | discriminate].
Defined.

(** C3 as stated fails. The type check reports nothing and the coordinator
    still returns no output, because the emit reported a diagnostic; and in
    the first coordinator a diagnostic of the annotator ends the run: it is
    returned in place of the files. *)
Lemma toClosureJS_aborts_only_on_type_errors_counterexample :
  (typeCheckDiagnostics MainExamples.emitFailsApi MainExamples.staleSys
     MainExamples.plainOptions ["a.ts"] emptySettings noPartialOptions = []
   /\ toClosureJS MainExamples.emitFailsApi MainExamples.staleSys
        MainExamples.plainOptions ["a.ts"] emptySettings [] noPartialOptions
      = (None, [MainExamples.emitError]))
  /\
  (MainLegacy.getPreEmitDiagnostics MainExamples.annotateFailsApi
     (MainLegacy.createProgram MainExamples.annotateFailsApi ["a.ts"]
        MainExamples.plainOptions None) = []
   /\ MainLegacy.toClosureJS MainExamples.annotateFailsApi MainExamples.plainOptions
        ["a.ts"] MainExamples.legacySettings
      = {| MainLegacy.jsFiles := None;
           MainLegacy.externs := None;
           MainLegacy.errors := Some [MainExamples.annotationError] |}).
Proof.
  repeat split.
Qed.

(** *** Dev mode *)

Section DevMode.

Variables (w : Sys) (options : CompilerOptions) (settings : Settings).

Let rootDir : string :=
  resolvePath w (JsString.or_else (googModuleRootDir settings) (cwd w)).

Let jsNameOf (tsName : string) : string := tsNameToJsName w tsName options settings.

(** What dev mode stores for a source file with the given text. *)
Let converted (tsName code : string) : string :=
  processES5 w (devModeEs5ProcessorHost w options settings rootDir)
    (path_relative w rootDir (resolvePath w (jsNameOf tsName)))
    (outputText (transpileModule w code options tsName)).

Lemma forEachFile_devMode (names : list string) :
  (forall f, In f names -> notDeclarationFile f = true ->
             stat_mtime w f <> None /\ readFileSync w f <> None) ->
  forall st,
  exists st',
    forEachFile (devModeFile w options settings rootDir) names st = Some st'
    /\ (forall k, JsMap.get k (fst st) <> None -> JsMap.get k (fst st') <> None)
    /\ (forall f t, In f names -> notDeclarationFile f = true ->
                    stat_mtime w f = Some t -> (t > jsTimeOf w (jsNameOf f))%Z ->
                    JsMap.get (jsNameOf f) (fst st') <> None)
    /\ (forall k v, JsMap.get k (fst st') = Some v ->
                    JsMap.get k (fst st) = Some v \/
                    exists f t code,
                      In f names /\ notDeclarationFile f = true /\
                      stat_mtime w f = Some t /\ (t > jsTimeOf w (jsNameOf f))%Z /\
                      readFileSync w f = Some code /\
                      k = jsNameOf f /\ v = converted f code).
Proof.
  induction names as [|f0 rest IH]; intros Hok st.
  - exists st. simpl. repeat split; auto.
  - assert (Hrest : forall f, In f rest -> notDeclarationFile f = true ->
                              stat_mtime w f <> None /\ readFileSync w f <> None)
      by (intros; apply Hok; simpl; auto).
    destruct st as [jsFiles0 diags0].
    simpl forEachFile. unfold devModeFile at 1.
    destruct (notDeclarationFile f0) eqn:Hdts.
    + destruct (Hok f0 (or_introl eq_refl) Hdts) as [Hstat Hread].
      destruct (stat_mtime w f0) as [t0|] eqn:Et0; [|congruence].
      fold (jsNameOf f0).
      destruct (t0 >? jsTimeOf w (jsNameOf f0))%Z eqn:Enew.
      * destruct (readFileSync w f0) as [code|] eqn:Ecode; [|congruence].
        fold (converted f0 code).
        destruct (IH Hrest (JsMap.set (jsNameOf f0) (converted f0 code) jsFiles0,
                            diags0 ++ transpile_diagnostics
                                        (transpileModule w code options f0)))
          as [st' [Hrun [Hkeep [Hnew Hval]]]].
        exists st'. simpl fst in *. split; [exact Hrun|]. split; [|split].
        -- intros k Hk. apply Hkeep. rewrite JsMapFacts.get_set.
           destruct (String.eqb k (jsNameOf f0)); [discriminate | exact Hk].
        -- intros f t [->|Hin] Hd Hs Ht.
           ++ apply Hkeep. rewrite JsMapFacts.get_set_same. discriminate.
           ++ eapply Hnew; eauto.
        -- intros k v Hk. destruct (Hval k v Hk) as [Hold|Hex].
           ++ rewrite JsMapFacts.get_set in Hold.
              destruct (String.eqb k (jsNameOf f0)) eqn:Ek.
              ** apply String.eqb_eq in Ek. subst k. injection Hold as <-.
                 right. exists f0, t0, code. apply Z.gtb_lt in Enew.
                 repeat split; simpl; auto; lia.
              ** left. exact Hold.
           ++ destruct Hex as [f [t [c [Hin Hr]]]].
              right. exists f, t, c. split; [right; exact Hin | exact Hr].
      * destruct (IH Hrest (jsFiles0, diags0)) as [st' [Hrun [Hkeep [Hnew Hval]]]].
        exists st'. simpl fst in *. split; [exact Hrun|]. split; [exact Hkeep|]. split.
        -- intros f t [->|Hin] Hd Hs Ht.
           ++ rewrite Et0 in Hs. injection Hs as <-.
              exfalso. rewrite Z.gtb_ltb in Enew. apply Z.ltb_ge in Enew. lia.
           ++ eapply Hnew; eauto.
        -- intros k v Hk. destruct (Hval k v Hk) as [Hold|Hex]; [left; exact Hold|].
           destruct Hex as [f [t [c [Hin Hr]]]].
           right. exists f, t, c. split; [right; exact Hin | exact Hr].
    + destruct (IH Hrest (jsFiles0, diags0)) as [st' [Hrun [Hkeep [Hnew Hval]]]].
      exists st'. simpl fst in *. split; [exact Hrun|]. split; [exact Hkeep|]. split.
      * intros f t [->|Hin] Hd Hs Ht; [congruence|]. eapply Hnew; eauto.
      * intros k v Hk. destruct (Hval k v Hk) as [Hold|Hex]; [left; exact Hold|].
        destruct Hex as [f [t [c [Hin Hr]]]].
        right. exists f, t, c. split; [right; exact Hin | exact Hr].
Qed.

(** C4, as the code has it. In dev mode, when every supplied file that is not
    a .d.ts file can be read, the run returns, with empty externs; every such
    file whose modification time is greater than that of its output (0 when
    there is no output) appears in [jsFiles]; and every entry of [jsFiles] is
    the standalone transpilation of such a file with only the goog.module
    conversion applied. A file whose output is up to date is not
    transpiled. *)
Theorem toClosureJSDevMode_transpiles_newer_files
    (fileNames : list string) (allDiagnostics : list Diagnostic) :
  (forall f, In f fileNames -> notDeclarationFile f = true ->
             stat_mtime w f <> None /\ readFileSync w f <> None) ->
  exists closure allDiagnostics',
    toClosureJSDevMode w options fileNames settings allDiagnostics
    = Some (Some closure, allDiagnostics')
    /\ externs closure = EmptyString
    /\ (forall f t, In f fileNames -> notDeclarationFile f = true ->
                    stat_mtime w f = Some t ->
                    (t > jsTimeOf w (tsNameToJsName w f options settings))%Z ->
                    JsMap.get (tsNameToJsName w f options settings) (jsFiles closure)
                    <> None)
    /\ (forall k v, JsMap.get k (jsFiles closure) = Some v ->
                    exists f t code,
                      In f fileNames /\ notDeclarationFile f = true /\
                      stat_mtime w f = Some t /\
                      (t > jsTimeOf w (tsNameToJsName w f options settings))%Z /\
                      readFileSync w f = Some code /\
                      k = tsNameToJsName w f options settings /\
                      v = processES5 w
                            (devModeEs5ProcessorHost w options settings
                               (resolvePath w
                                  (JsString.or_else (googModuleRootDir settings) (cwd w))))
                            (path_relative w
                               (resolvePath w
                                  (JsString.or_else (googModuleRootDir settings) (cwd w)))
                               (resolvePath w (tsNameToJsName w f options settings)))
                            (outputText (transpileModule w code options f))).
Proof.
  intros Hok.
  destruct (forEachFile_devMode fileNames Hok (JsMap.empty, allDiagnostics))
    as [[jsFiles' diags'] [Hrun [_ [Hnew Hval]]]].
  exists {| jsFiles := jsFiles'; externs := EmptyString |}, diags'.
  unfold toClosureJSDevMode. fold rootDir. rewrite Hrun.
  split; [reflexivity|]. split; [reflexivity|]. split.
  - exact Hnew.
  - intros k v Hk. destruct (Hval k v Hk) as [Hold|Hex]; [discriminate Hold | exact Hex].
Qed.

End DevMode.

(** Before any output exists, [a.ts] is transpiled and stored as [a.js]. *)
Lemma toClosureJSDevMode_transpiles_newer_files_witness :
  exists closure allDiagnostics',
    toClosureJSDevMode MainExamples.freshSys MainExamples.plainOptions ["a.ts"]
      emptySettings [] = Some (Some closure, allDiagnostics')
    /\ JsMap.get "a.js" (jsFiles closure) <> None.
Proof.
  destruct (toClosureJSDevMode_transpiles_newer_files MainExamples.freshSys
              MainExamples.plainOptions emptySettings ["a.ts"] [])
    as [closure [diags [Hrun [_ [Hnew _]]]]].
  - intros f [<-|[]] _. split; discriminate.
  - exists closure, diags. split; [exact Hrun|].
    apply (Hnew "a.ts" 5%Z); [left; reflexivity | reflexivity | reflexivity | reflexivity].
Defined.

(** C4 as stated fails: [a.ts] is supplied, is not a .d.ts file, and does not
    appear in [jsFiles], because its output [a.js] on disk is newer. *)
Lemma toClosureJSDevMode_every_file_counterexample :
  In "a.ts" ["a.ts"]
  /\ notDeclarationFile "a.ts" = true
  /\ toClosureJSDevMode MainExamples.staleSys MainExamples.plainOptions ["a.ts"]
       emptySettings []
     = Some (Some {| jsFiles := JsMap.empty; externs := EmptyString |}, [])
  /\ JsMap.get
       (tsNameToJsName MainExamples.staleSys "a.ts" MainExamples.plainOptions emptySettings)
       (JsMap.empty (V := string)) = None.
Proof.
  repeat split. left; reflexivity.
Qed.

(** *** Writing the files *)




(** *** Output names *)

Unset Implicit Arguments.

Lemma substring_append_skip (a b : string) (n : nat) :
  substring (String.length a) n (a +++ b) = substring 0 n b.
Proof. induction a as [|c a IH]; cbn; [reflexivity | exact IH]. Qed.

Lemma substring_append_prefix (a b : string) :
  substring 0 (String.length a) (a +++ b) = a.
Proof.
  induction a as [|c a IH]; cbn.
  - destruct b; reflexivity.
  - now rewrite IH.
Qed.

Lemma length_append (a b : string) :
  String.length (a +++ b) = String.length a + String.length b.
Proof. induction a as [|c a IH]; cbn; [reflexivity | now rewrite IH]. Qed.

Lemma replace_ts_js_stem (stem : string) :
  JsString.replace_ts_js (stem +++ ".ts") = stem +++ ".js".
Proof.
  unfold JsString.replace_ts_js, JsString.endsWith, JsString.substr_last.
  rewrite length_append. cbn [String.length].
  replace (String.length stem + 3 - 3) with (String.length stem) by lia.
  rewrite substring_append_skip. cbn [substring String.eqb Ascii.eqb Bool.eqb].
  now rewrite substring_append_prefix.
Qed.

(** Without an output directory, the output of [stem.ts] is [stem.js] next
    to it, and a name that does not end in [.ts] is kept. *)
Theorem tsNameToJsName_replaces_extension (w : Sys) (stem : string)
    (options : CompilerOptions) (settings : Settings) :
  JsString.truthy (outDir options) = false ->
  tsNameToJsName w (stem +++ ".ts") options settings = stem +++ ".js"
  /\ forall other, JsString.endsWith ".ts" other = false ->
                   tsNameToJsName w other options settings = other.
Proof.
  intros Hout. unfold tsNameToJsName. rewrite Hout. split.
  - apply replace_ts_js_stem.
  - intros other Hother. unfold JsString.replace_ts_js. now rewrite Hother.
Qed.

Lemma tsNameToJsName_replaces_extension_witness :
  tsNameToJsName MainExamples.staleSys ("src/a" +++ ".ts") MainExamples.plainOptions
    emptySettings = "src/a" +++ ".js".
Proof.
  apply (tsNameToJsName_replaces_extension MainExamples.staleSys "src/a"
           MainExamples.plainOptions emptySettings).
  reflexivity.
Defined.

(** *** The command line *)

(** One turn of the loop over the flags: a flag the [switch] has a case for
    updates the settings, any other ends the process. *)
Lemma loadSettingsFlags_step (flag value : string) (rest : list (string * string))
    (s : Settings) :
  (In flag settingsFlags ->
   exists s', loadSettingsFlags ((flag, value) :: rest) s = loadSettingsFlags rest s'
              /\ (signaturesImplyTyped s -> signaturesImplyTyped s'))
  /\ (~ In flag settingsFlags ->
      loadSettingsFlags ((flag, value) :: rest) s
      = ProcessExit (if String.eqb flag "h" || String.eqb flag "help" then 0 else 1)).
Proof.
  cbn [loadSettingsFlags].
  destruct (String.eqb flag "h") eqn:Eh;
    [apply String.eqb_eq in Eh; subst flag; cbn; split;
     [intros H; exfalso; intuition discriminate | reflexivity]|].
  destruct (String.eqb flag "help") eqn:Ehelp;
    [apply String.eqb_eq in Ehelp; subst flag; cbn; split;
     [intros H; exfalso; intuition discriminate | reflexivity]|].
  cbn [orb].
  repeat match goal with
         | |- context [if String.eqb flag ?c then _ else _] =>
             let E := fresh "E" in
             destruct (String.eqb flag c) eqn:E;
             [apply String.eqb_eq in E; subst flag; split;
              [intros _; eexists; split; [reflexivity|];
               unfold signaturesImplyTyped; cbn; intros; auto
              |intros H; exfalso; apply H; cbn; tauto]
             |apply String.eqb_neq in E]
         end.
  split; [|reflexivity].
  intros H. exfalso. cbn in H. intuition congruence.
Qed.

Lemma loadSettingsFlags_invariant (flags : list (string * string)) :
  forall s s', signaturesImplyTyped s -> loadSettingsFlags flags s = Continue s' ->
               signaturesImplyTyped s'.
Proof.
  induction flags as [|[flag value] rest IH]; intros s s' Hs Hload.
  - cbn in Hload. injection Hload as <-. exact Hs.
  - destruct (in_dec string_dec flag settingsFlags) as [Hin|Hout].
    + destruct (proj1 (loadSettingsFlags_step flag value rest s) Hin) as [s1 [E H1]].
      rewrite E in Hload. exact (IH s1 s' (H1 Hs) Hload).
    + rewrite (proj2 (loadSettingsFlags_step flag value rest s) Hout) in Hload.
      discriminate Hload.
Qed.

(** [--typedSignatures] implies [--typed]: settings read from the command
    line that ask for typed signatures ask for types, whatever the other
    flags and their order. *)
Theorem loadSettingsFromArgs_typedSignatures_implies_typed
    (parsedArgs : ParsedArgs) (settings : Settings) (tscArgs : list string) :
  loadSettingsFromArgs parsedArgs = Continue (settings, tscArgs) ->
  isTypedSignatures settings = Some true ->
  isTyped settings = Some true.
Proof.
  unfold loadSettingsFromArgs. intros Hload Hsig.
  destruct (loadSettingsFlags (parsed_flags parsedArgs) emptySettings) as [s|code] eqn:E;
    [|discriminate Hload].
  injection Hload as <- <-.
  apply (loadSettingsFlags_invariant (parsed_flags parsedArgs) emptySettings s);
    [intros H; discriminate H | exact E | exact Hsig].
Qed.

Lemma loadSettingsFromArgs_typedSignatures_implies_typed_witness :
  isTyped (set_isTyped (Some true) (set_isTypedSignatures (Some true) emptySettings))
  = Some true.
Proof.
  apply (loadSettingsFromArgs_typedSignatures_implies_typed
           {| parsed_flags := [("_", "a.ts"); ("typedSignatures", "true")];
              parsed_underscore := ["a.ts"] |}
           (set_isTyped (Some true) (set_isTypedSignatures (Some true) emptySettings))
           ["a.ts"]); reflexivity.
Defined.

(** The settings are returned exactly when the [switch] has a case for
    every flag; the arguments for tsc returned with them are minimist's [_]
    array as it is. *)
Theorem loadSettingsFromArgs_continues_iff_flags_known (parsedArgs : ParsedArgs) :
  (exists settings,
      loadSettingsFromArgs parsedArgs = Continue (settings, parsed_underscore parsedArgs))
  <-> forall flag value, In (flag, value) (parsed_flags parsedArgs) ->
                         In flag settingsFlags.
Proof.
  unfold loadSettingsFromArgs.
  generalize emptySettings. generalize (parsed_flags parsedArgs).
  induction l as [|[flag value] rest IH]; intros s.
  - cbn. split; [intros _ f v [] | intros _; eexists; reflexivity].
  - destruct (in_dec string_dec flag settingsFlags) as [Hin|Hout].
    + destruct (proj1 (loadSettingsFlags_step flag value rest s) Hin) as [s1 [E _]].
      rewrite E, IH. split.
      * intros H f v [Heq|Hrest]; [injection Heq as <- <-; exact Hin | eauto].
      * intros H f v Hrest. apply (H f v). now right.
    + rewrite (proj2 (loadSettingsFlags_step flag value rest s) Hout). split.
      * intros [settings H]. discriminate H.
      * intros H. exfalso. apply Hout. apply (H flag value). now left.
Qed.

(** When the process is ended, it is by the first flag the [switch] has no
    settings case for: with code 0 when it asks for help, 1 otherwise. *)
Theorem loadSettingsFromArgs_exit_code (parsedArgs : ParsedArgs) (code : nat) :
  loadSettingsFromArgs parsedArgs = ProcessExit code ->
  exists before flag value after,
    parsed_flags parsedArgs = before ++ (flag, value) :: after
    /\ (forall f v, In (f, v) before -> In f settingsFlags)
    /\ ~ In flag settingsFlags
    /\ code = if String.eqb flag "h" || String.eqb flag "help" then 0 else 1.
Proof.
  unfold loadSettingsFromArgs.
  generalize emptySettings. generalize (parsed_flags parsedArgs).
  induction l as [|[flag value] rest IH]; intros s Hexit.
  - cbn in Hexit. discriminate Hexit.
  - destruct (in_dec string_dec flag settingsFlags) as [Hin|Hout].
    + destruct (proj1 (loadSettingsFlags_step flag value rest s) Hin) as [s1 [E _]].
      rewrite E in Hexit.
      destruct (IH s1 Hexit) as [before [f [v [after [Hsplit [Hbefore [Hf Hcode]]]]]]].
      exists ((flag, value) :: before), f, v, after.
      split; [cbn; now rewrite Hsplit|]. split; [|split; assumption].
      intros f' v' [Heq|Hrest]; [injection Heq as <- <-; exact Hin | eauto].
    + rewrite (proj2 (loadSettingsFlags_step flag value rest s) Hout) in Hexit.
      exists [], flag, value, rest. split; [reflexivity|].
      split; [intros f v []|]. split; [exact Hout|].
      destruct (String.eqb flag "h" || String.eqb flag "help");
        cbn in Hexit; congruence.
Qed.

Lemma loadSettingsFromArgs_exit_code_witness :
  exists before flag value after,
    [("typed", "true"); ("help", "true")] = before ++ (flag, value) :: after
    /\ (forall f v, In (f, v) before -> In f settingsFlags)
    /\ ~ In flag settingsFlags
    /\ 0 = if String.eqb flag "h" || String.eqb flag "help" then 0 else 1.
Proof.
  apply (loadSettingsFromArgs_exit_code
           {| parsed_flags := [("typed", "true"); ("help", "true")];
              parsed_underscore := [] |} 0).
  reflexivity.
Defined.

(** *** Settings from tsconfig.json *)

(** The command line has precedence: a setting given there is kept, and the
    tsickle section of tsconfig.json fills the settings it left out. *)
Theorem mergeTsickleSettings_command_line_wins (keys : SettingsKeys) (settings : Settings) :
  let merged := mergeTsickleSettings keys settings in
  externsPath merged
  = match externsPath settings with Some v => Some v | None => key_externs keys end
  /\ isTyped merged
     = match isTyped settings with Some v => Some v | None => key_typed keys end
  /\ isTypedSignatures merged
     = match isTypedSignatures settings with
       | Some v => Some v
       | None => key_typedSignatures keys
       end
  /\ verbose merged
     = match verbose settings with Some v => Some v | None => key_verbose keys end
  /\ devMode merged
     = match devMode settings with Some v => Some v | None => key_devmode keys end
  /\ googModuleRootDir merged
     = match googModuleRootDir settings with
       | Some v => Some v
       | None => key_googModuleRootDir keys
       end
  /\ googModuleProjectName merged
     = match googModuleProjectName settings with
       | Some v => Some v
       | None => key_googModuleProjectName keys
       end.
Proof.
  destruct keys as [[e|] [t|] [ts|] [v|] [d|] [g|] [p|]];
    destruct settings as [[e'|] [t'|] [ts'|] [v'|] [d'|] [g'|] [p'|]];
    cbn; rewrite ?orb_false_r; repeat split; reflexivity.
Qed.

(** *** Loading the configuration *)

(** [loadTscConfig] returns [null] exactly when the command line, the
    reading of tsconfig.json or its content has errors; the errors of the
    first step that fails are added to the diagnostics, and nothing is added
    when a configuration is returned. *)
Theorem loadTscConfig_null_iff_errors (Json : Type) (c : ConfigApi Json)
    (args : list string)
    (allDiagnostics : list Diagnostic) :
  let parsed := parseCommandLine c args in
  let projectDir := JsString.or_else (project (pcl_options parsed)) "." in
  let content json :=
    parseJsonConfigFileContent c json projectDir (pcl_options parsed)
      (configFileName c args) in
  match loadTscConfig c args allDiagnostics with
  | (None, diagnostics) =>
      (pcl_errors parsed <> [] /\ diagnostics = allDiagnostics ++ pcl_errors parsed)
      \/ (pcl_errors parsed = []
          /\ exists error, readConfigFile c (configFileName c args) = inr error
                           /\ diagnostics = allDiagnostics ++ [error])
      \/ (pcl_errors parsed = []
          /\ exists json, readConfigFile c (configFileName c args) = inl json
                          /\ pcl_errors (content json) <> []
                          /\ diagnostics = allDiagnostics ++ pcl_errors (content json))
  | (Some config, diagnostics) =>
      diagnostics = allDiagnostics
      /\ pcl_errors parsed = []
      /\ exists json, readConfigFile c (configFileName c args) = inl json
                      /\ pcl_errors (content json) = []
                      /\ options config = pcl_options (content json)
  end.
Proof.
  cbv zeta. unfold loadTscConfig, configFileName.
  destruct (0 <? List.length (pcl_errors (parseCommandLine c args)))%nat eqn:E1.
  { left. split; [now apply nonempty_length | reflexivity]. }
  apply empty_length in E1.
  destruct (readConfigFile c _) as [json|error] eqn:Eread.
  - destruct (0 <? List.length (pcl_errors (parseJsonConfigFileContent c json _ _ _)))%nat
      eqn:E2.
    + right. right. split; [exact E1|]. exists json.
      split; [reflexivity|]. split; [now apply nonempty_length | reflexivity].
    + apply empty_length in E2. split; [reflexivity|]. split; [exact E1|].
      exists json. split; [reflexivity|]. split; [exact E2 | reflexivity].
  - right. left. split; [exact E1|]. exists error. split; reflexivity.
Qed.

(** File arguments given on the command line are the files of the
    configuration; the files of tsconfig.json are used only when there are
    none. *)
Theorem loadTscConfig_file_arguments_win (Json : Type) (c : ConfigApi Json)
    (args : list string)
    (allDiagnostics diagnostics : list Diagnostic) (config : Config) :
  loadTscConfig c args allDiagnostics = (Some config, diagnostics) ->
  (pcl_fileNames (parseCommandLine c args) <> [] ->
   fileNames config = pcl_fileNames (parseCommandLine c args))
  /\ (pcl_fileNames (parseCommandLine c args) = [] ->
      exists json,
        readConfigFile c (configFileName c args) = inl json
        /\ fileNames config
           = pcl_fileNames
               (parseJsonConfigFileContent c json
                  (JsString.or_else (project (pcl_options (parseCommandLine c args))) ".")
                  (pcl_options (parseCommandLine c args)) (configFileName c args)))
  /\ tsickleSettings config
     = match readConfigFile c (configFileName c args) with
       | inl json => match json_tsickle c json with
                     | Some keys => keys
                     | None => noSettingsKeys
                     end
       | inr _ => noSettingsKeys
       end.
Proof.
  unfold loadTscConfig, configFileName.
  destruct (0 <? List.length (pcl_errors (parseCommandLine c args)))%nat;
    [discriminate|].
  destruct (readConfigFile c _) as [json|error]; [|discriminate].
  destruct (0 <? List.length (pcl_errors (parseJsonConfigFileContent c json _ _ _)))%nat;
    [discriminate|].
  intros [= <- _]. cbn [fileNames tsickleSettings].
  split; [|split; [|reflexivity]].
  - intros Hfiles. apply nonempty_length in Hfiles. now rewrite Hfiles.
  - intros Hnone. exists json. split; [reflexivity|]. now rewrite Hnone.
Qed.

Lemma loadTscConfig_file_arguments_win_witness :
  fileNames
    {| options := MainExamples.plainOptions; fileNames := ["b.ts"];
       tsickleSettings := noSettingsKeys |}
  = pcl_fileNames (parseCommandLine MainExamples.plainConfigApi ["b.ts"]).
Proof.
  apply (proj1 (loadTscConfig_file_arguments_win unit MainExamples.plainConfigApi
                  ["b.ts"] [] []
                  {| options := MainExamples.plainOptions; fileNames := ["b.ts"];
                     tsickleSettings := noSettingsKeys |} eq_refl)).
  discriminate.
Defined.

(** *** The default options *)

(** tsickle processes exactly the files given as input: the host skips a
    file if and only if it is not one of them. *)
Theorem shouldSkipTsickleProcessing_iff_not_input (w : Sys) (fileNames : list string)
    (settings : Settings) (options : CompilerOptions) (rootDir fileName : string) :
  shouldSkipTsickleProcessing
    (tsickleHost (getDefaultClosureJSOptions w fileNames settings options rootDir))
    fileName = false
  <-> In fileName fileNames.
Proof.
  cbn. rewrite negb_false_iff, existsb_exists. split.
  - intros [x [Hin Heq]]. apply String.eqb_eq in Heq. now subst.
  - intros Hin. exists fileName. split; [exact Hin | apply String.eqb_refl].
Qed.

(** By default only the closurize pass runs, on the files of the disk, and
    the options given by the caller replace the defaults one by one. *)
Theorem default_options_closurize_only (w : Sys) (fileNames : list string)
    (settings : Settings) (options : CompilerOptions) (rootDir : string)
    (partial : PartialClosureJSOptions) :
  let merged :=
    spread (getDefaultClosureJSOptions w fileNames settings options rootDir) partial in
  (partial_tsicklePasses partial = None ->
   hasPass CLOSURIZE (tsicklePasses merged) = true
   /\ hasPass DECORATOR_DOWNLEVEL (tsicklePasses merged) = false)
  /\ (partial_files partial = None ->
      forall delegate fileName languageVersion,
        getSourceFile (createSourceReplacingCompilerHost w (files merged) delegate)
          fileName languageVersion
        = getSourceFile delegate (resolvePath w fileName) languageVersion)
  /\ (partial_tsickleCompilerHostOptions partial = None ->
      untyped (tsickleCompilerHostOptions merged)
      = Some (negb (truthyB (isTyped settings)))
      /\ untypedFunctionBodies (tsickleCompilerHostOptions merged)
         = isTypedSignatures settings).
Proof.
  cbv zeta. unfold spread. split; [|split].
  - intros ->. split; reflexivity.
  - intros ->. reflexivity.
  - intros ->. split; reflexivity.
Qed.

Lemma default_options_closurize_only_witness :
  hasPass CLOSURIZE
    (tsicklePasses
       (spread (getDefaultClosureJSOptions MainExamples.staleSys ["a.ts"]
                  emptySettings MainExamples.plainOptions "/") noPartialOptions)) = true
  /\ hasPass DECORATOR_DOWNLEVEL
       (tsicklePasses
          (spread (getDefaultClosureJSOptions MainExamples.staleSys ["a.ts"]
                     emptySettings MainExamples.plainOptions "/") noPartialOptions))
     = false.
Proof.
  apply (proj1 (default_options_closurize_only MainExamples.staleSys ["a.ts"]
                  emptySettings MainExamples.plainOptions "/" noPartialOptions)).
  reflexivity.
Defined.

(** *** Dev mode *)

Lemma forEachFile_none (f : string -> JsMap.t string * list Diagnostic ->
                            option (JsMap.t string * list Diagnostic))
    (names : list string) (bad : string) :
  In bad names -> (forall st, f bad st = None) ->
  forall st, forEachFile f names st = None.
Proof.
  induction names as [|n rest IH]; intros Hin Hbad st; [destruct Hin|].
  cbn. destruct Hin as [->|Hin].
  - now rewrite Hbad.
  - destruct (f n st); [apply IH; assumption | reflexivity].
Qed.

(** Dev mode throws when an input file that is not a declaration file is
    missing: [fs.statSync] of the source is not guarded, only that of the
    output is. *)
Theorem toClosureJSDevMode_throws_on_missing_input (w : Sys)
    (options : CompilerOptions) (fileNames : list string) (settings : Settings)
    (allDiagnostics : list Diagnostic) (tsName : string) :
  In tsName fileNames -> notDeclarationFile tsName = true ->
  stat_mtime w tsName = None ->
  toClosureJSDevMode w options fileNames settings allDiagnostics = None.
Proof.
  intros Hin Hdts Hstat. unfold toClosureJSDevMode.
  rewrite (forEachFile_none _ fileNames tsName Hin); [reflexivity|].
  intros [jsFiles ds]. unfold devModeFile. now rewrite Hdts, Hstat.
Qed.

Lemma toClosureJSDevMode_throws_on_missing_input_witness :
  toClosureJSDevMode MainExamples.staleSys MainExamples.plainOptions
    ["a.ts"; "missing.ts"] emptySettings [] = None.
Proof.
  apply (toClosureJSDevMode_throws_on_missing_input MainExamples.staleSys
           MainExamples.plainOptions ["a.ts"; "missing.ts"] emptySettings []
           "missing.ts").
  - right. left. reflexivity.
  - reflexivity.
  - reflexivity.
Defined.

Lemma forEachFile_devMode_diagnostics (w : Sys) (options : CompilerOptions)
    (settings : Settings) (rootDir : string) (names : list string) :
  forall st st',
    forEachFile (devModeFile w options settings rootDir) names st = Some st' ->
    snd st' = snd st ++ flat_map (devModeDiagnostics w options settings) names.
Proof.
  induction names as [|n rest IH]; intros [jsFiles ds] st' Hrun; cbn in Hrun.
  - injection Hrun as <-. cbn. now rewrite app_nil_r.
  - cbn [flat_map]. unfold devModeDiagnostics at 1.
    destruct (notDeclarationFile n).
    + destruct (stat_mtime w n) as [t|]; [|discriminate Hrun].
      destruct (t >? jsTimeOf w (tsNameToJsName w n options settings))%Z.
      * destruct (readFileSync w n) as [code|]; [|discriminate Hrun].
        rewrite (IH _ _ Hrun). cbn [snd]. now rewrite app_assoc.
      * rewrite (IH _ _ Hrun). cbn [snd].
        destruct (readFileSync w n); reflexivity.
    + rewrite (IH _ _ Hrun). reflexivity.
Qed.

(** Dev mode never returns [null]: the diagnostics of the transpilations are
    added to the list, in the order of the input files, and the files are
    returned all the same. *)
Theorem toClosureJSDevMode_collects_diagnostics (w : Sys) (options : CompilerOptions)
    (fileNames : list string) (settings : Settings)
    (allDiagnostics allDiagnostics' : list Diagnostic)
    (result : option ClosureResult) :
  toClosureJSDevMode w options fileNames settings allDiagnostics
  = Some (result, allDiagnostics') ->
  result <> None
  /\ allDiagnostics'
     = allDiagnostics ++ flat_map (devModeDiagnostics w options settings) fileNames.
Proof.
  unfold toClosureJSDevMode.
  destruct (forEachFile _ fileNames (JsMap.empty, allDiagnostics))
    as [[jsFiles ds]|] eqn:Hrun; [|discriminate].
  intros [= <- <-]. split; [discriminate|].
  exact (forEachFile_devMode_diagnostics w options settings _ fileNames _ _ Hrun).
Qed.

Lemma toClosureJSDevMode_collects_diagnostics_witness :
  Some {| jsFiles := JsMap.empty; externs := EmptyString |} <> None
  /\ [] = [] ++ flat_map (devModeDiagnostics MainExamples.staleSys
                            MainExamples.plainOptions emptySettings) ["a.ts"].
Proof.
  apply (toClosureJSDevMode_collects_diagnostics MainExamples.staleSys
           MainExamples.plainOptions ["a.ts"] emptySettings [] []
           (Some {| jsFiles := JsMap.empty; externs := EmptyString |})).
  reflexivity.
Defined.

(** *** What [main] does to the disk *)






(** In dev mode the diagnostics of the transpilations do not stop [main]:
    when every input that is not a declaration file can be read, the files
    are written and the code is 0, whatever was reported. *)
Theorem main_devMode_ignores_diagnostics (Program Host : Type)
    (ts : TsApi Program Host) (w : Sys) (parsedArgs : ParsedArgs)
    (load : list string -> option Config * list Diagnostic)
    (settings : Settings) (tscArgs : list string) (config : Config)
    (diagnostics : list Diagnostic) :
  loadSettingsFromArgs parsedArgs = Continue (settings, tscArgs) ->
  load tscArgs = (Some config, diagnostics) ->
  module_kind (options config) = Some CommonJS ->
  truthyB (devMode (mergeTsickleSettings (tsickleSettings config) settings)) = true ->
  (forall f, In f (fileNames config) -> notDeclarationFile f = true ->
             stat_mtime w f <> None /\ readFileSync w f <> None) ->
  exists result,
    main ts w parsedArgs load = Some result
    /\ exitCode result = 0
    /\ forall e, In e (effects result) -> writesToDisk e = true.
Proof.
  intros Hargs Hload Hmodule Hdev Hfiles. unfold main.
  rewrite Hargs, Hload, Hmodule, Hdev. unfold toClosureJSDevMode.
  destruct (forEachFile_devMode w (options config)
              (mergeTsickleSettings (tsickleSettings config) settings)
              (fileNames config) Hfiles (JsMap.empty, diagnostics))
    as [[jsFiles' ds'] [Hrun _]].
  rewrite Hrun. eexists. split; [reflexivity|]. split; [reflexivity|].
  cbn [effects jsFiles externs]. intros e Hin.
  apply in_app_or in Hin. destruct Hin as [Hin|Hin].
  - unfold writeJsFiles in Hin. apply in_flat_map in Hin.
    destruct Hin as [k [_ Hin]].
    destruct (JsMap.get k jsFiles'); [|destruct Hin].
    destruct Hin as [<-|[<-|[]]]; reflexivity.
  - destruct (JsString.truthy _); [|destruct Hin].
    destruct Hin as [<-|[<-|[]]]; reflexivity.
Qed.

Lemma main_devMode_ignores_diagnostics_witness :
  exists result,
    main MainExamples.cleanApi MainExamples.freshSys
      {| parsed_flags := [("devmode", "true")]; parsed_underscore := [] |}
      MainExamples.loadPlainConfig = Some result
    /\ exitCode result = 0
    /\ forall e, In e (effects result) -> writesToDisk e = true.
Proof.
  apply (main_devMode_ignores_diagnostics unit unit MainExamples.cleanApi
           MainExamples.freshSys
           {| parsed_flags := [("devmode", "true")]; parsed_underscore := [] |}
           MainExamples.loadPlainConfig
           (set_devMode (Some true) emptySettings) [] MainExamples.plainConfig []);
    try reflexivity.
  intros f [<-|[]] _. split; discriminate.
Defined.

Set Implicit Arguments.

End MainProperties.

(** ** The first coordinator *)

Module MainLegacyProperties.

Import Main.

Unset Implicit Arguments.

(** In the first coordinator the overlay replaces a file as soon as the map
    has an entry for its path, also when the entry is the empty text: the
    test is [hasOwnProperty], not the truthiness of the text. *)
Theorem legacy_getSourceFile_uses_any_overlay (Program : Type)
    (ts : MainLegacy.TsApi Program) (substituteSource : JsMap.t string)
    (delegate : CompilerHost) (fileName : string) (languageVersion : ScriptTarget) :
  getSourceFile (MainLegacy.createSourceReplacingCompilerHost ts substituteSource delegate)
    fileName languageVersion
  = match JsMap.get (MainLegacy.resolvePath ts fileName) substituteSource with
    | Some text =>
        Some (createSourceFile (MainLegacy.resolvePath ts fileName) text languageVersion)
    | None => getSourceFile delegate (MainLegacy.resolvePath ts fileName) languageVersion
    end
  /\ getSourceFile
       (MainLegacy.createSourceReplacingCompilerHost ts
          (JsMap.set (MainLegacy.resolvePath ts fileName) EmptyString substituteSource)
          delegate) fileName languageVersion
     = Some (createSourceFile (MainLegacy.resolvePath ts fileName) EmptyString
               languageVersion).
Proof.
  split; [reflexivity|]. cbn. now rewrite JsMapFacts.get_set_same.
Qed.











End MainLegacyProperties.

(** ** The coordinator with [googModuleRegexes] *)

Module MainRegexesProperties.

Import Main.

Unset Implicit Arguments.

Lemma forEachFile_regexes (w : Sys) (replace : string -> string -> string -> string)
    (options : CompilerOptions) (settings : MainRegexes.Settings) (rootDir : string)
    (names : list string) :
  (forall f, In f names -> notDeclarationFile f = true -> readFileSync w f <> None) ->
  forall st,
  exists st',
    forEachFile (MainRegexes.devModeFile w replace options settings rootDir) names st
    = Some st'
    /\ forall k, In k (JsMap.keys (fst st'))
                 <-> In k (JsMap.keys (fst st))
                     \/ exists f, In f names /\ notDeclarationFile f = true
                                  /\ k = MainRegexes.tsNameToJsName w f options.
Proof.
  induction names as [|n rest IH]; intros Hok [jsFiles ds].
  - exists (jsFiles, ds). split; [reflexivity|]. intros k. split; [auto|].
    intros [H|[f [[] _]]]. exact H.
  - assert (Hrest : forall f, In f rest -> notDeclarationFile f = true ->
                              readFileSync w f <> None)
      by (intros; apply Hok; [now right | assumption]).
    cbn [forEachFile]. unfold MainRegexes.devModeFile at 1.
    destruct (notDeclarationFile n) eqn:Hdts.
    + destruct (readFileSync w n) as [code|] eqn:Eread;
        [|exfalso; exact (Hok n (or_introl eq_refl) Hdts Eread)].
      match goal with
      | |- exists st', forEachFile _ rest ?st0 = Some st' /\ _ =>
          destruct (IH Hrest st0) as [st' [Hrun Hkeys]]
      end.
      exists st'. split; [exact Hrun|]. intros k. rewrite Hkeys. cbn [fst].
      rewrite JsMapFacts.in_keys_set. split.
      * intros [[->|Hk]|[f [Hin Hf]]].
        -- right. exists n. split; [now left | split; [exact Hdts | reflexivity]].
        -- now left.
        -- right. exists f. split; [now right | exact Hf].
      * intros [Hk|[f [[<-|Hin] [Hd ->]]]].
        -- left. now right.
        -- left. now left.
        -- right. exists f. split; [exact Hin | split; [exact Hd | reflexivity]].
    + destruct (IH Hrest (jsFiles, ds)) as [st' [Hrun Hkeys]].
      exists st'. split; [exact Hrun|]. intros k. rewrite Hkeys. cbn [fst]. split.
      * intros [Hk|[f [Hin Hf]]]; [now left|].
        right. exists f. split; [now right | exact Hf].
      * intros [Hk|[f [[<-|Hin] [Hd ->]]]]; [now left | congruence |].
        right. exists f. split; [exact Hin | split; [exact Hd | reflexivity]].
Qed.

(** In this version dev mode looks at no modification time: when the input
    files that are not declaration files can be read, the files of the
    result are exactly their outputs. *)
Theorem regexes_devMode_transpiles_every_input (w : Sys)
    (replace : string -> string -> string -> string) (options : CompilerOptions)
    (fileNames : list string) (settings : MainRegexes.Settings)
    (allDiagnostics : list Diagnostic) :
  (forall f, In f fileNames -> notDeclarationFile f = true ->
             readFileSync w f <> None) ->
  exists closure allDiagnostics',
    MainRegexes.toClosureJSDevMode w replace options fileNames settings allDiagnostics
    = Some (Some closure, allDiagnostics')
    /\ externs closure = EmptyString
    /\ forall k, In k (JsMap.keys (jsFiles closure))
                 <-> exists f, In f fileNames /\ notDeclarationFile f = true
                               /\ k = MainRegexes.tsNameToJsName w f options.
Proof.
  intros Hok. unfold MainRegexes.toClosureJSDevMode.
  destruct (forEachFile_regexes w replace options settings (resolvePath w (cwd w))
              fileNames Hok (JsMap.empty, allDiagnostics))
    as [[jsFiles' ds'] [Hrun Hkeys]].
  rewrite Hrun. eexists. eexists. split; [reflexivity|]. split; [reflexivity|].
  cbn [jsFiles]. intros k. rewrite Hkeys. cbn. tauto.
Qed.

(** The stale file [a.ts], which the coordinator with modification times
    skips, is transpiled here. *)
Lemma regexes_devMode_transpiles_every_input_witness :
  exists closure allDiagnostics',
    MainRegexes.toClosureJSDevMode MainExamples.staleSys (fun _ _ s => s)
      MainExamples.plainOptions ["a.ts"; "lib.d.ts"]
      {| MainRegexes.externsPath := None; MainRegexes.isTyped := None;
         MainRegexes.verbose := None; MainRegexes.devMode := Some true;
         MainRegexes.googModuleRegexes := [] |} []
    = Some (Some closure, allDiagnostics')
    /\ In "a.js" (JsMap.keys (jsFiles closure)).
Proof.
  destruct (regexes_devMode_transpiles_every_input MainExamples.staleSys
              (fun _ _ s => s) MainExamples.plainOptions ["a.ts"; "lib.d.ts"]
              {| MainRegexes.externsPath := None; MainRegexes.isTyped := None;
                 MainRegexes.verbose := None; MainRegexes.devMode := Some true;
                 MainRegexes.googModuleRegexes := [] |} [])
    as [closure [ds [Hrun [_ Hkeys]]]].
  - intros f [<-|[<-|[]]] Hd; [discriminate | discriminate Hd].
  - exists closure, ds. split; [exact Hrun|]. apply Hkeys.
    exists "a.ts". split; [now left | split; reflexivity].
Defined.

(** In this version the [devmode] key of tsconfig.json turns dev mode on by
    being there, whatever its value and whatever the command line said, and
    [googModuleRegexes] of tsconfig.json always replaces the setting; the
    other keys only fill what the command line left out. *)
Theorem regexes_mergeTsickleSettings_devmode_key (keys : MainRegexes.SettingsKeys)
    (settings : MainRegexes.Settings) :
  let merged := MainRegexes.mergeTsickleSettings keys settings in
  MainRegexes.devMode merged
  = match MainRegexes.key_devmode keys with
    | Some _ => Some true
    | None => MainRegexes.devMode settings
    end
  /\ MainRegexes.googModuleRegexes merged
     = match MainRegexes.key_googModuleRegexes keys with
       | Some regexes => regexes
       | None => MainRegexes.googModuleRegexes settings
       end
  /\ MainRegexes.externsPath merged
     = match MainRegexes.externsPath settings with
       | Some v => Some v
       | None => MainRegexes.key_externs keys
       end
  /\ MainRegexes.isTyped merged
     = match MainRegexes.isTyped settings with
       | Some v => Some v
       | None => MainRegexes.key_typed keys
       end
  /\ MainRegexes.verbose merged
     = match MainRegexes.verbose settings with
       | Some v => Some v
       | None => MainRegexes.key_verbose keys
       end.
Proof.
  destruct keys as [[e|] [t|] ts [v|] [d|] [g|]];
    destruct settings as [[e'|] [t'|] [v'|] d' g'];
    cbn; rewrite ?orb_false_r; repeat split; reflexivity.
Qed.

End MainRegexesProperties.

(** ** The type translator *)

Module TypeTranslatorProperties.

Import TypeTranslator.

Section Induction.

Variable P : TsType -> Prop.

Hypothesis Hnumber : P TNumber.
Hypothesis Hstring : P TString.
Hypothesis Hboolean : P TBoolean.
Hypothesis Hnull : P TNull.
Hypothesis Hundefined : P TUndefined.
Hypothesis Hany : P TAny.
Hypothesis Hunknown : P TUnknown.
Hypothesis Hvoid : P TVoid.
Hypothesis Hunion : forall members, Forall P members -> P (TUnion members).
Hypothesis Harray : forall element, P element -> P (TArray element).
Hypothesis Hrecord :
  forall fields, Forall (fun f => P (snd (snd f))) fields -> P (TRecord fields).
Hypothesis Hfunction :
  forall this params ret,
    (forall th, this = Some th -> P th) ->
    Forall (fun p => P (snd p)) params -> P ret ->
    P (TFunction this params ret).
Hypothesis Hparameter : forall name, P (TTypeParameter name).
Hypothesis Hreference :
  forall symbol typeArguments, Forall P typeArguments -> P (TReference symbol typeArguments).

Lemma TsType_induction : forall t, P t.
Proof.
  fix IH 1. intros t. destruct t as [ | | | | | | | |members|element|fields|this params ret|name|symbol args].
  - exact Hnumber.
  - exact Hstring.
  - exact Hboolean.
  - exact Hnull.
  - exact Hundefined.
  - exact Hany.
  - exact Hunknown.
  - exact Hvoid.
  - apply Hunion. induction members as [|m ms IHm]; constructor; [apply IH | exact IHm].
  - apply Harray. apply IH.
  - apply Hrecord. induction fields as [|[k [o ft]] fs IHf]; constructor;
      [apply IH | exact IHf].
  - apply Hfunction.
    + destruct this as [th0|]; intros th Hth; [|discriminate Hth].
      injection Hth as Hth. rewrite <- Hth. apply IH.
    + induction params as [|[o pt] ps IHp]; constructor; [apply IH | exact IHp].
    + apply IH.
  - apply Hparameter.
  - apply Hreference. induction args as [|a az IHa]; constructor; [apply IH | exact IHa].
Qed.

End Induction.

(** The equation of [translateWith]: one step of the translation. *)
Lemma translateWith_eq (env : SymbolTable) (fuel : nat) (translating : list string)
    (t : TsType) :
  translateWith env fuel translating t =
  let go := translateWith env fuel in
  match t with
  | TNumber => Some "number"
  | TString => Some "string"
  | TBoolean => Some "boolean"
  | TNull => Some "null"
  | TUndefined => Some "undefined"
  | TAny | TUnknown => Some "?"
  | TVoid => Some "void"
  | TUnion members =>
      match sequence (map (go translating) members) with
      | Some ss => Some ("(" +++ join "|" ss +++ ")")
      | None => None
      end
  | TArray element =>
      match go translating element with
      | Some s => Some ("!Array<" +++ s +++ ">")
      | None => None
      end
  | TRecord fields =>
      match sequence
              (map (fun f =>
                      match go translating (snd (snd f)) with
                      | Some s => Some (fst f +++ ": " +++ optionalType (fst (snd f)) s)
                      | None => None
                      end) fields) with
      | Some ss => Some ("{" +++ join ", " ss +++ "}")
      | None => None
      end
  | TFunction this params ret =>
      match
        match this with
        | Some th =>
            match go translating th with
            | Some s => Some ["this: " +++ s]
            | None => None
            end
        | None => Some []
        end,
        sequence
          (map (fun p =>
                  match go translating (snd p) with
                  | Some s => Some (optionalType (fst p) s)
                  | None => None
                  end) params),
        go translating ret
      with
      | Some th, Some ps, Some r =>
          Some ("function(" +++ join ", " (th ++ ps) +++ "): " +++ r)
      | _, _, _ => None
      end
  | TTypeParameter name => Some name
  | TReference symbol typeArguments =>
      if isTranslating symbol translating then Some "?"
      else
        match lookup symbol env with
        | Some (AliasDeclaration body) =>
            match fuel with
            | 0 => None
            | S fuel' => translateWith env fuel' (symbol :: translating) body
            end
        | Some (ClassLike nonNull) =>
            match sequence (map (go translating) typeArguments) with
            | Some [] => Some ((if nonNull then "!" else EmptyString) +++ symbol)
            | Some ss =>
                Some ((if nonNull then "!" else EmptyString) +++ symbol +++
                      "<" +++ join ", " ss +++ ">")
            | None => None
            end
        | Some EnumDeclaration => Some symbol
        | None => Some "?"
        end
  end.
Proof.
  destruct fuel; destruct t; reflexivity.
Qed.

Lemma sequence_total (l : list (option string)) :
  Forall (fun o => exists s, o = Some s) l -> exists ss, sequence l = Some ss.
Proof.
  induction 1 as [|o l [s ->] _ [ss IH]]; simpl.
  - eauto.
  - rewrite IH. eauto.
Qed.

Lemma lookup_in_keys (s : string) (env : SymbolTable) (d : Declaration) :
  lookup s env = Some d -> In s (map fst env).
Proof.
  induction env as [|[k d'] env IH]; simpl; [discriminate|].
  destruct (String.eqb s k) eqn:E.
  - apply String.eqb_eq in E. auto.
  - auto.
Qed.

Lemma filter_length_lt {A : Type} (f g : A -> bool) (l : list A) (x : A) :
  (forall y, g y = true -> f y = true) ->
  In x l -> f x = true -> g x = false ->
  List.length (filter g l) < List.length (filter f l).
Proof.
  intros Himp. induction l as [|a l IH]; simpl; [tauto|].
  assert (Hle : forall l', List.length (filter g l') <= List.length (filter f l')).
  { induction l' as [|b l' IHl]; simpl; [lia|].
    destruct (g b) eqn:Eg.
    - rewrite (Himp b Eg). simpl. lia.
    - destruct (f b); simpl; lia. }
  intros [->|Hin] Hf Hg.
  - rewrite Hf, Hg. simpl. specialize (Hle l). lia.
  - specialize (IH Hin Hf Hg). destruct (g a) eqn:Eg.
    + rewrite (Himp a Eg). simpl. lia.
    + destruct (f a); simpl; lia.
Qed.

(** Entering an alias that is not being translated leaves fewer to enter. *)
Lemma unseen_decreases (env : SymbolTable) (translating : list string)
    (s : string) (d : Declaration) :
  lookup s env = Some d -> isTranslating s translating = false ->
  unseen env (s :: translating) < unseen env translating.
Proof.
  intros Hlookup Hnot. unfold unseen.
  apply filter_length_lt with (x := s).
  - intros y Hy. unfold isTranslating in *. simpl in Hy.
    apply negb_true_iff in Hy. apply orb_false_iff in Hy. destruct Hy as [_ Hy].
    now rewrite Hy.
  - eapply lookup_in_keys; eauto.
  - now rewrite Hnot.
  - unfold isTranslating. simpl. now rewrite String.eqb_refl.
Qed.

Lemma unseen_le_length (env : SymbolTable) (translating : list string) :
  unseen env translating <= List.length env.
Proof.
  unfold unseen. rewrite <- (length_map fst env). apply filter_length_le.
Qed.

Lemma sequence_map_total {A : Type} (f : A -> option string) (l : list A) :
  Forall (fun a => exists s, f a = Some s) l ->
  exists ss, sequence (map f l) = Some ss.
Proof.
  intros H. apply sequence_total. apply Forall_map. exact H.
Qed.

(** The translator is total: with fuel for every alias not yet entered, a
    translation request yields a string. *)
Lemma translateWith_total (env : SymbolTable) :
  forall fuel translating t,
    unseen env translating <= fuel ->
    exists s, translateWith env fuel translating t = Some s.
Proof.
  induction fuel as [|fuel IHfuel]; intros translating t Hfuel; revert t;
    apply TsType_induction; intros; rewrite translateWith_eq; cbv zeta;
    try solve [eauto].
  all: try match goal with
       | H : exists s, _ = Some s |- context [TArray] => idtac
       | H : exists s, translateWith _ _ _ ?e = Some s
         |- exists s, match translateWith _ _ _ ?e with _ => _ end = Some s =>
           destruct H as [s0 ->]; eauto
       end.
  all: try match goal with
       | H : Forall _ ?l
         |- exists s, match sequence (map ?f ?l) with _ => _ end = Some s =>
           let Hs := fresh "Hs" in
           assert (Hs : exists ss, sequence (map f l) = Some ss)
             by (apply sequence_map_total; eapply Forall_impl; [|exact H];
                 cbv beta; intros a [s0 Hs0]; rewrite Hs0; eauto);
           destruct Hs as [ss ->]; eauto
       end.
  - (* a function type *)
    destruct H1 as [sr Hsr].
    destruct (sequence_map_total
                (fun p => match translateWith env 0 translating (snd p) with
                          | Some s => Some (optionalType (fst p) s)
                          | None => None
                          end) (l := params)) as [ss Hss].
    { eapply Forall_impl; [|exact H0]. cbv beta. intros a [s0 Hs0].
      rewrite Hs0. eauto. }
    rewrite Hss, Hsr.
    destruct this as [th|]; [destruct (H th eq_refl) as [sth ->] | ]; eauto.
  - (* a reference, without fuel: no alias is left to enter *)
    destruct (isTranslating symbol translating) eqn:Etr; [eauto|].
    destruct (lookup symbol env) as [[body|nonNull|]|] eqn:El; eauto.
    + exfalso. pose proof (unseen_decreases env translating _ El Etr). lia.
    + assert (Hs : exists ss,
                 sequence (map (translateWith env 0 translating) typeArguments) = Some ss)
        by (apply sequence_map_total; exact H).
      destruct Hs as [ss ->]. destruct ss; eauto.
  - (* a function type *)
    destruct H1 as [sr Hsr].
    destruct (sequence_map_total
                (fun p => match translateWith env (S fuel) translating (snd p) with
                          | Some s => Some (optionalType (fst p) s)
                          | None => None
                          end) (l := params)) as [ss Hss].
    { eapply Forall_impl; [|exact H0]. cbv beta. intros a [s0 Hs0].
      rewrite Hs0. eauto. }
    rewrite Hss, Hsr.
    destruct this as [th|]; [destruct (H th eq_refl) as [sth ->] | ]; eauto.
  - (* a reference, with fuel *)
    destruct (isTranslating symbol translating) eqn:Etr; [eauto|].
    destruct (lookup symbol env) as [[body|nonNull|]|] eqn:El; eauto.
    + apply IHfuel. pose proof (unseen_decreases env translating _ El Etr). lia.
    + assert (Hs : exists ss,
                 sequence (map (translateWith env (S fuel) translating) typeArguments)
                 = Some ss)
        by (apply sequence_map_total; exact H).
      destruct Hs as [ss ->]. destruct ss; eauto.
Qed.

(** Breaking the cycle first changes nothing: a reference to an alias that is
    being translated is written [?] just as the any type is. *)
Lemma translateWith_breakCycle (env : SymbolTable) (alias : string) (fuel : nat) :
  forall translating t,
    isTranslating alias translating = true ->
    translateWith env fuel translating (breakCycle alias t)
    = translateWith env fuel translating t.
Proof.
  intros translating t Halias. revert t.
  apply TsType_induction; intros; try reflexivity; cbn [breakCycle].
  - (* union *)
    rewrite (translateWith_eq env fuel translating (TUnion (map _ _))),
            (translateWith_eq env fuel translating (TUnion members)).
    cbv zeta. rewrite map_map. erewrite map_ext_Forall; [reflexivity|]. exact H.
  - (* array *)
    rewrite (translateWith_eq env fuel translating (TArray (breakCycle _ _))),
            (translateWith_eq env fuel translating (TArray element)).
    cbv zeta. now rewrite H.
  - (* record *)
    rewrite (translateWith_eq env fuel translating (TRecord (map _ _))),
            (translateWith_eq env fuel translating (TRecord fields)).
    cbv zeta. rewrite map_map. erewrite map_ext_Forall; [reflexivity|].
    eapply Forall_impl; [|exact H]. cbv beta. intros f Hf. simpl. now rewrite Hf.
  - (* function *)
    rewrite (translateWith_eq env fuel translating (TFunction _ (map _ _) _)),
            (translateWith_eq env fuel translating (TFunction this params ret)).
    cbv zeta. rewrite map_map.
    erewrite (map_ext_Forall _ (fun p =>
                match translateWith env fuel translating (snd p) with
                | Some s => Some (optionalType (fst p) s)
                | None => None
                end)) by (eapply Forall_impl; [|exact H0]; cbv beta;
                          intros p Hp; simpl; now rewrite Hp).
    rewrite H1. destruct this as [th|]; [rewrite (H th eq_refl)|]; reflexivity.
  - (* reference *)
    destruct (String.eqb symbol alias) eqn:E.
    + apply String.eqb_eq in E. subst symbol.
      rewrite (translateWith_eq env fuel translating (TReference alias typeArguments)).
      cbv zeta. rewrite Halias. now rewrite translateWith_eq.
    + rewrite (translateWith_eq env fuel translating (TReference symbol (map _ _))),
              (translateWith_eq env fuel translating (TReference symbol typeArguments)).
      cbv zeta.
      rewrite map_map. erewrite map_ext_Forall; [reflexivity|]. exact H.
Qed.

Lemma breakCycle_mentions (alias : string) :
  forall t, mentions alias (breakCycle alias t) = false.
Proof.
  apply TsType_induction; intros; try reflexivity; cbn [breakCycle mentions].
  - induction H as [|m ms Hm _ IH]; simpl; [reflexivity|]. now rewrite Hm, IH.
  - exact H.
  - induction H as [|f fs Hf _ IH]; simpl; [reflexivity|]. now rewrite Hf, IH.
  - rewrite H1.
    assert (Hp : existsb (fun p => mentions alias (snd p))
                   (map (fun p => (fst p, breakCycle alias (snd p))) params) = false).
    { induction H0 as [|p ps Hp _ IH]; simpl; [reflexivity|]. now rewrite Hp, IH. }
    rewrite Hp. destruct this as [th|]; [rewrite (H th eq_refl)|]; reflexivity.
  - destruct (String.eqb symbol alias) eqn:E; [reflexivity|].
    cbn [mentions]. rewrite E. simpl.
    induction H as [|a az Ha _ IH]; simpl; [reflexivity|]. now rewrite Ha, IH.
Qed.

(** C8. For every type alias, self-referential ones among them, the
    translation of the alias terminates, and the [@typedef] the annotator
    writes holds the definition unfolded once, with every reference back to
    the alias written [?]: it is the translation of the definition in which
    those references are replaced by the any type. *)
Theorem recursive_alias_typedef
    (env : SymbolTable) (alias : string) (body : TsType) :
  lookup alias env = Some (AliasDeclaration body) ->
  exists s,
    translate env false (TReference alias []) = Some s
    /\ typedefComment env false alias = Some ("/** @typedef {" +++ s +++ "} */")
    /\ translateWith env (List.length env) [alias] (breakCycle alias body) = Some s
    /\ mentions alias (breakCycle alias body) = false.
Proof.
  intros Hlookup.
  assert (Hfuel : unseen env [alias] <= List.length env).
  { apply unseen_le_length. }
  assert (Hstrict : unseen env [alias] < unseen env []).
  { eapply unseen_decreases; eauto. }
  pose proof (unseen_le_length env []) as Hall.
  destruct (@translateWith_total env (List.length env) [alias] body Hfuel) as [s Hs].
  assert (Htr : translate env false (TReference alias []) = Some s).
  { unfold translate. rewrite translateWith_eq. cbv zeta. simpl isTranslating.
    rewrite Hlookup. exact Hs. }
  exists s. split; [exact Htr|]. split; [|split].
  - unfold typedefComment. now rewrite Htr.
  - rewrite translateWith_breakCycle; [exact Hs|].
    unfold isTranslating. simpl. now rewrite String.eqb_refl.
  - apply breakCycle_mentions.
Qed.

(** [type Recursive = {value: number, next: Recursive};] of the golden file. *)
Lemma recursive_alias_typedef_witness :
  typedefComment typedefTestEnv false "Recursive"
  = Some "/** @typedef {{value: number, next: ?}} */".
Proof.
  destruct (recursive_alias_typedef typedefTestEnv "Recursive"
              (body := TRecord [("value", (false, TNumber));
                                ("next", (false, TReference "Recursive" []))])
              eq_refl) as [s [Htr [Hdef _]]].
  vm_compute in Htr. injection Htr as <-. exact Hdef.
Defined.

End TypeTranslatorProperties.

(** ** The decorator downleveler *)

Module DecoratorProperties.

Import DecoratorAnnotator.

Unset Implicit Arguments.

(** *** Trees *)

Lemma fold_max_le (A : Type) (h : A -> nat) (l : list A) (x : A) :
  In x l -> h x <= fold_right (fun a acc => Nat.max (h a) acc) 0 l.
Proof.
  induction l as [|a l IH]; simpl; [tauto|].
  intros [->|Hin]; [lia | specialize (IH Hin); lia].
Qed.

Lemma height_child (n c : Node) : In c (forEachChild n) -> height c < height n.
Proof.
  destruct n as [kind range children|range e tas args|range decls e]; simpl.
  - intros Hin. apply in_map_iff in Hin. destruct Hin as [[role c'] [Hc Hin]].
    simpl in Hc. subst c'.
    pose proof (fold_max_le _ (fun rc : Role * Node => height (snd rc)) children
                  (role, c) Hin) as H. simpl in H. lia.
  - intros [<-|Hin]; [lia|]. apply in_app_or in Hin. destruct Hin as [Hin|Hin].
    + pose proof (fold_max_le _ height tas c Hin). lia.
    + pose proof (fold_max_le _ height args c Hin). lia.
  - intros [<-|[]]. lia.
Qed.

Lemma height_positive (n : Node) : 1 <= height n.
Proof. destruct n; simpl; lia. Qed.

Lemma scopeNodes_eq (n : Node) :
  scopeNodes n
  = n :: (if stopsAt n then [] else flat_map scopeNodes (forEachChild n)).
Proof.
  destruct n as [kind range children|range e tas args|range decls e]; simpl.
  - assert (H : flat_map scopeNodes (map snd children)
               = flat_map (fun rc => scopeNodes (snd rc)) children)
      by (induction children as [|[role c] cs IH]; simpl;
          [reflexivity | now rewrite IH]).
    rewrite H. reflexivity.
  - rewrite flat_map_app. reflexivity.
  - rewrite app_nil_r. reflexivity.
Qed.

Lemma scopeNodes_height (n : Node) :
  forall m, In m (scopeNodes n) -> height m <= height n.
Proof.
  remember (height n) as h eqn:Hh.
  assert (Hle : height n <= h) by lia. clear Hh. revert n Hle.
  induction h as [|h IH]; intros n Hle m Hin.
  - pose proof (height_positive n). lia.
  - rewrite scopeNodes_eq in Hin. destruct Hin as [<-|Hin]; [lia|].
    destruct (stopsAt n); [destruct Hin|].
    apply in_flat_map in Hin. destruct Hin as [c [Hc Hm]].
    pose proof (height_child n c Hc).
    assert (height m <= h) by (apply (IH c); [lia | exact Hm]). lia.
Qed.

Lemma decoratorsOf_height (n : Node) (d : Decorator) :
  In d (decoratorsOf n) -> S (height (d_expression d)) < height n.
Proof.
  unfold decoratorsOf. intros Hin. apply in_flat_map in Hin.
  destruct Hin as [c [Hc Hd]]. pose proof (height_child n c Hc).
  destruct c; simpl in Hd; try tauto. destruct Hd as [<-|[]]. simpl in *. lia.
Qed.

Lemma decoratorsToLower_height (n : Node) (d : Decorator) :
  In d (decoratorsToLower n) -> S (height (d_expression d)) < height n.
Proof.
  unfold decoratorsToLower. intros Hin. apply filter_In in Hin.
  apply decoratorsOf_height. tauto.
Qed.

Lemma parametersOf_height (n p : Node) : In p (parametersOf n) -> height p < height n.
Proof.
  unfold parametersOf. intros Hin. apply filter_In in Hin.
  apply height_child. tauto.
Qed.

(** *** The rewriter only appends *)

Lemma extends_refl (r : Rewriter) : extends r r.
Proof. split; [reflexivity|]. exists []. now rewrite app_nil_r. Qed.

Lemma extends_trans (r1 r2 r3 : Rewriter) :
  extends r1 r2 -> extends r2 r3 -> extends r1 r3.
Proof.
  intros [Ht1 [d1 Ho1]] [Ht2 [d2 Ho2]]. split; [congruence|].
  exists (d1 ++ d2). rewrite Ho2, Ho1. now rewrite app_assoc.
Qed.

Lemma extends_emit (text : string) (r : Rewriter) : extends r (emit text r).
Proof. split; [reflexivity|]. eexists. reflexivity. Qed.

Lemma extends_writeRange (from to : nat) (r : Rewriter) : extends r (writeRange from to r).
Proof. split; [reflexivity|]. eexists. reflexivity. Qed.

Lemma extends_error (n : Node) (msg : string) (r : Rewriter) : extends r (error n msg r).
Proof. split; [reflexivity|]. exists []. simpl. now rewrite app_nil_r. Qed.

Lemma extends_set_converter (v : option DecoratorClassVisitor) (r : Rewriter) :
  extends r (set_converter v r).
Proof. split; [reflexivity|]. exists []. simpl. now rewrite app_nil_r. Qed.

Lemma emittedPieces_app (r r' : Rewriter) (pieces : list Piece) :
  output r' = output r ++ pieces -> emittedPieces r r' = pieces.
Proof.
  intros H. unfold emittedPieces. rewrite H. rewrite skipn_app, skipn_all.
  now rewrite Nat.sub_diag.
Qed.

Lemma extends_emittedPieces (r r' : Rewriter) :
  extends r r' -> output r' = output r ++ emittedPieces r r'.
Proof.
  intros [_ [d Hd]]. now rewrite (emittedPieces_app r r' d Hd).
Qed.

(** *** Gathering *)

Lemma beforeProcessNode_fst (n : Node) (v : DecoratorClassVisitor) (r : Rewriter) :
  fst (beforeProcessNode n v r) = gathered n v.
Proof.
  unfold gathered, beforeProcessNode, gatherMethodOrProperty.
  destruct n as [[]| |]; try reflexivity;
    (destruct (decoratorsOf _); [reflexivity|];
     destruct (nameOf _) as [[[]| |]|]; try reflexivity;
     destruct (_ =? 0)%nat; reflexivity).
Qed.

Lemma beforeProcessNode_snd (n : Node) (v : DecoratorClassVisitor) (r : Rewriter) :
  let r' := snd (beforeProcessNode n v r) in
  file_text r' = file_text r /\ output r' = output r
  /\ currentDecoratorConverter r' = currentDecoratorConverter r
  /\ exists ds, diagnostics r' = diagnostics r ++ ds.
Proof.
  assert (Hsame : forall r0 : Rewriter,
             file_text r0 = file_text r0 /\ output r0 = output r0
             /\ currentDecoratorConverter r0 = currentDecoratorConverter r0
             /\ exists ds, diagnostics r0 = diagnostics r0 ++ ds).
  { intros r0. repeat split. exists []. now rewrite app_nil_r. }
  unfold beforeProcessNode, gatherMethodOrProperty.
  destruct n as [[]| |]; try apply Hsame;
    (destruct (decoratorsOf _); [apply Hsame|];
     destruct (nameOf _) as [[[]| |]|];
     try (destruct (_ =? 0)%nat; apply Hsame);
     simpl; repeat split; eexists; reflexivity).
Qed.



Lemma gatherAll_app (l1 l2 : list Node) (v : DecoratorClassVisitor) :
  gatherAll (l1 ++ l2) v = gatherAll l2 (gatherAll l1 v).
Proof. unfold gatherAll. apply fold_left_app. Qed.

(** *** What a visitor holds comes from below the node it was shown *)

Lemma Forall_flat_map_set (Q : Decorator -> Prop) (name : string)
    (ds : list Decorator) (m : JsMap.t (list Decorator)) :
  Forall Q (flat_map snd m) -> Forall Q ds ->
  Forall Q (flat_map snd (JsMap.set name ds m)).
Proof.
  intros Hm Hds. induction m as [|[k v] m IH]; simpl in *.
  - rewrite app_nil_r. exact Hds.
  - apply Forall_app in Hm. destruct Hm as [Hv Hm].
    destruct (String.eqb name k); simpl; apply Forall_app; auto.
Qed.

Lemma get_flat_map (name : string) (ds : list Decorator) (m : JsMap.t (list Decorator)) :
  JsMap.get name m = Some ds -> forall d, In d ds -> In d (flat_map snd m).
Proof.
  induction m as [|[k v] m IH]; simpl; [discriminate|].
  destruct (String.eqb name k).
  - intros [= ->] d Hd. apply in_or_app. auto.
  - intros Hget d Hd. apply in_or_app. right. eapply IH; eauto.
Qed.

Lemma gatherParameters_stored (Q : Decorator -> Prop) (params : list Node) :
  forall acc,
    Forall Q (flat_map ctorParameterDecorators (fst acc)) ->
    (forall p, In p params -> Forall Q (decoratorsToLower p)) ->
    Forall Q (flat_map ctorParameterDecorators
                (fst (fold_left gatherParameter params acc))).
Proof.
  induction params as [|p params IH]; intros [ps has] Hacc Hparams; simpl;
    [exact Hacc|].
  apply IH; [|intros q Hq; apply Hparams; simpl; auto].
  unfold gatherParameter.
  assert (Hp : Forall Q (decoratorsToLower p)) by (apply Hparams; simpl; auto).
  destruct (decoratorsOf p) eqn:Ed; simpl;
    destruct (isSome (paramCtorOf p)); simpl; rewrite flat_map_app; simpl;
    rewrite ?app_nil_r; try apply Forall_app; auto.
Qed.

Lemma storedDecorators_Forall (Q : Decorator -> Prop) (v : DecoratorClassVisitor) :
  Forall Q (storedDecorators v) <->
  Forall Q (match decorators v with Some ds => ds | None => [] end)
  /\ Forall Q (match ctorParameters v with
               | Some ps => flat_map ctorParameterDecorators ps
               | None => []
               end)
  /\ Forall Q (match propDecorators v with
               | Some m => flat_map snd m
               | None => []
               end).
Proof. unfold storedDecorators. rewrite !Forall_app. tauto. Qed.

Lemma gatherMethodOrProperty_stored (h : nat) (n : Node) (v : DecoratorClassVisitor)
    (r : Rewriter) :
  Forall (expressionBelow h) (storedDecorators v) -> height n <= h ->
  Forall (expressionBelow h) (storedDecorators (fst (gatherMethodOrProperty n v r))).
Proof.
  intros Hv Hn. unfold gatherMethodOrProperty.
  destruct (decoratorsOf n); [exact Hv|].
  destruct (nameOf n) as [[kind range children| |]|]; try exact Hv.
  destruct kind; try exact Hv.
  destruct (_ =? 0)%nat; [exact Hv|].
  cbn [fst]. apply storedDecorators_Forall in Hv. destruct Hv as [Hd [Hc Hp]].
  apply storedDecorators_Forall. cbn. split; [exact Hd|]. split; [exact Hc|].
  apply Forall_flat_map_set.
  - destruct (propDecorators v); [exact Hp | constructor].
  - apply Forall_forall. intros d0 Hd'. apply decoratorsToLower_height in Hd'.
    unfold expressionBelow. lia.
Qed.

Lemma gatherConstructor_stored (h : nat) (n : Node) (v : DecoratorClassVisitor) :
  Forall (expressionBelow h) (storedDecorators v) -> height n <= h ->
  Forall (expressionBelow h) (storedDecorators (gatherConstructor n v)).
Proof.
  intros Hv Hn. unfold gatherConstructor.
  destruct (fold_left gatherParameter (parametersOf n) ([], false)) as [ps has] eqn:Efold.
  destruct (isSome (decorators v) || has); [|exact Hv].
  apply storedDecorators_Forall in Hv. destruct Hv as [Hd [Hc Hp]].
  apply storedDecorators_Forall. cbn. split; [exact Hd|]. split; [|exact Hp].
  change ps with (fst (ps, has)). rewrite <- Efold.
  apply gatherParameters_stored; [constructor|].
  intros p Hp'. apply Forall_forall. intros d Hd'.
  apply decoratorsToLower_height in Hd'. apply parametersOf_height in Hp'.
  unfold expressionBelow. lia.
Qed.

Lemma gathered_stored (h : nat) (n : Node) (v : DecoratorClassVisitor) :
  Forall (expressionBelow h) (storedDecorators v) -> height n <= h ->
  Forall (expressionBelow h) (storedDecorators (gathered n v)).
Proof.
  intros Hv Hn. unfold gathered, beforeProcessNode.
  destruct n as [kind range children| |]; try exact Hv.
  destruct kind; try exact Hv;
    try (apply gatherMethodOrProperty_stored; assumption).
  cbn [fst]. apply gatherConstructor_stored; assumption.
Qed.

Lemma gatherAll_stored (h : nat) (nodes : list Node) :
  forall v,
    Forall (expressionBelow h) (storedDecorators v) ->
    (forall n, In n nodes -> height n <= h) ->
    Forall (expressionBelow h) (storedDecorators (gatherAll nodes v)).
Proof.
  induction nodes as [|n nodes IH]; intros v Hv Hnodes; simpl; [exact Hv|].
  apply IH; [|intros m Hm; apply Hnodes; simpl; auto].
  apply gathered_stored; [exact Hv | apply Hnodes; simpl; auto].
Qed.

Lemma newDecoratorClassVisitor_decorators (c : Node) (imports : list ImportedName) :
  decorators (newDecoratorClassVisitor c imports)
  = match decoratorsToLower c with
    | [] => None
    | ds => Some ds
    end.
Proof.
  unfold newDecoratorClassVisitor, decoratorsToLower.
  destruct (decoratorsOf c) as [|d ds]; [reflexivity|].
  destruct (filter shouldLower (d :: ds)); reflexivity.
Qed.

Lemma newDecoratorClassVisitor_fields (c : Node) (imports : list ImportedName) :
  ctorParameters (newDecoratorClassVisitor c imports) = None
  /\ propDecorators (newDecoratorClassVisitor c imports) = None.
Proof.
  unfold newDecoratorClassVisitor.
  destruct (decoratorsOf c); [split; reflexivity|].
  destruct (0 <? _)%nat; split; reflexivity.
Qed.

Lemma newDecoratorClassVisitor_stored (c : Node) (imports : list ImportedName) :
  Forall (expressionBelow (height c))
    (storedDecorators (newDecoratorClassVisitor c imports)).
Proof.
  unfold storedDecorators.
  destruct (newDecoratorClassVisitor_fields c imports) as [-> ->].
  rewrite newDecoratorClassVisitor_decorators. simpl. rewrite app_nil_r.
  assert (H : Forall (expressionBelow (height c)) (decoratorsToLower c)).
  { apply Forall_forall. intros d Hd. apply decoratorsToLower_height in Hd.
    unfold expressionBelow. lia. }
  destruct (decoratorsToLower c); [constructor | exact H].
Qed.

(** *** The traversal returns *)

Lemma keeps_refl (h : nat) (r : Rewriter) : keeps h r r.
Proof. split; [apply extends_refl | auto]. Qed.

Lemma keeps_trans (h : nat) (r1 r2 r3 : Rewriter) :
  keeps h r1 r2 -> keeps h r2 r3 -> keeps h r1 r3.
Proof.
  intros [He1 Hk1] [He2 Hk2]. split; [eapply extends_trans; eauto|].
  intros bound Hb Hs. apply Hk2; auto.
Qed.

Lemma keeps_mono (h h' : nat) (r r' : Rewriter) :
  h <= h' -> keeps h r r' -> keeps h' r r'.
Proof.
  intros Hle [He Hk]. split; [exact He|]. intros bound Hb. apply Hk. lia.
Qed.

Lemma keeps_same_converter (h : nat) (r r' : Rewriter) :
  extends r r' -> currentDecoratorConverter r' = currentDecoratorConverter r ->
  keeps h r r'.
Proof.
  intros He Hc. split; [exact He|]. intros bound _ Hs v Hv. apply Hs. congruence.
Qed.

Lemma keeps_emit (h : nat) (text : string) (r : Rewriter) : keeps h r (emit text r).
Proof. apply keeps_same_converter; [apply extends_emit | reflexivity]. Qed.

Lemma keeps_writeRange (h from to : nat) (r : Rewriter) :
  keeps h r (writeRange from to r).
Proof. apply keeps_same_converter; [apply extends_writeRange | reflexivity]. Qed.

Lemma keeps_error (h : nat) (n : Node) (msg : string) (r : Rewriter) :
  keeps h r (error n msg r).
Proof. apply keeps_same_converter; [apply extends_error | reflexivity]. Qed.

Lemma shown_keeps (h : nat) (nodes : list Node) (r r' : Rewriter) :
  extends r r' ->
  currentDecoratorConverter r'
  = option_map (gatherAll nodes) (currentDecoratorConverter r) ->
  (forall n, In n nodes -> height n <= h) ->
  keeps h r r'.
Proof.
  intros He Hc Hnodes. split; [exact He|].
  intros bound Hb Hs v' Hv'. rewrite Hc in Hv'.
  destruct (currentDecoratorConverter r) as [v|] eqn:Ev; [|discriminate].
  injection Hv' as <-. apply gatherAll_stored; [apply Hs; exact Ev|].
  intros n Hn. specialize (Hnodes n Hn). lia.
Qed.

Lemma visited_keeps (n : Node) (r r' : Rewriter) :
  visited n r r' -> keeps (height n) r r'.
Proof.
  intros [He Hc]. eapply shown_keeps; eauto. apply scopeNodes_height.
Qed.

Section Step.

Variable f : nat.

Hypothesis visit_returns :
  forall n r, height n <= f -> exists r', visit f n r = Some r' /\ visited n r r'.

Lemma writeChildren_returns (children : list Node) :
  forall pos_ r,
    (forall c, In c children -> height c <= f) ->
    exists pos' r',
      writeChildren (visit f) children pos_ r = Some (pos', r')
      /\ extends r r'
      /\ currentDecoratorConverter r'
         = option_map (gatherAll (flat_map scopeNodes children))
             (currentDecoratorConverter r).
Proof.
  induction children as [|c cs IH]; intros pos_ r Hh; simpl.
  - exists pos_, r. split; [reflexivity|]. split; [apply extends_refl|].
    destruct (currentDecoratorConverter r); reflexivity.
  - destruct (visit_returns c (writeRange pos_ (getFullStart c) r))
      as [r1 [Hv [He1 Hc1]]]; [apply Hh; simpl; auto|].
    rewrite Hv.
    destruct (IH (getEnd c) r1) as [pos' [r' [Hw [He Hc]]]];
      [intros c' Hc'; apply Hh; simpl; auto|].
    exists pos', r'. split; [exact Hw|]. split.
    + eapply extends_trans; [apply extends_writeRange|].
      eapply extends_trans; eauto.
    + rewrite Hc, Hc1. simpl.
      destruct (currentDecoratorConverter r); simpl; [|reflexivity].
      now rewrite gatherAll_app.
Qed.

Lemma writeNodeFrom_returns (n : Node) (pos_ end' : nat) (r : Rewriter) :
  height n <= S f ->
  exists r',
    writeNodeFrom (visit f) n pos_ end' r = Some r'
    /\ extends r r'
    /\ currentDecoratorConverter r'
       = option_map (gatherAll (flat_map scopeNodes (forEachChild n)))
           (currentDecoratorConverter r).
Proof.
  intros Hn. unfold writeNodeFrom.
  destruct (writeChildren_returns (forEachChild n) pos_ r)
    as [pos' [r1 [Hw [He Hc]]]].
  { intros c Hc. apply height_child in Hc. lia. }
  rewrite Hw. eexists. split; [reflexivity|]. split.
  - eapply extends_trans; [exact He | apply extends_writeRange].
  - exact Hc.
Qed.

Lemma writeNodeFrom_keeps (n : Node) (pos_ end' : nat) (r : Rewriter) :
  height n <= S f ->
  exists r', writeNodeFrom (visit f) n pos_ end' r = Some r' /\ keeps f r r'.
Proof.
  intros Hn. destruct (writeNodeFrom_returns n pos_ end' r Hn) as [r' [Hw [He Hc]]].
  exists r'. split; [exact Hw|]. eapply shown_keeps; eauto.
  intros m Hm. apply in_flat_map in Hm. destruct Hm as [c [Hc' Hm]].
  apply scopeNodes_height in Hm. apply height_child in Hc'. lia.
Qed.

Lemma emitArguments_returns (arguments : list Node) :
  forall r,
    (forall a, In a arguments -> height a <= S f) ->
    exists r', emitArguments (visit f) arguments r = Some r' /\ keeps f r r'.
Proof.
  induction arguments as [|a args IH]; intros r Hh; simpl.
  - exists r. split; [reflexivity | apply keeps_refl].
  - destruct (writeNodeFrom_keeps a (getStart a) (getEnd a) r) as [r1 [Hw Hk1]];
      [apply Hh; simpl; auto|].
    rewrite Hw.
    destruct (IH (emit ", " r1)) as [r' [He Hk]];
      [intros a' Ha'; apply Hh; simpl; auto|].
    exists r'. split; [exact He|].
    eapply keeps_trans; [exact Hk1|]. eapply keeps_trans; [apply keeps_emit | exact Hk].
Qed.

Lemma emitDecoratorExpression_returns (expr : Node) (r : Rewriter) :
  height expr <= f ->
  exists r', emitDecoratorExpression (visit f) expr r = Some r' /\ keeps f r r'.
Proof.
  intros Hd. unfold emitDecoratorExpression.
  destruct expr as [kind range children|range callee tas args|range decls e].
  - assert (Hother : exists r',
               Some (emit "undefined"
                       (errorUnimplementedKind (Generic kind range children)
                          "gathering metadata" r)) = Some r'
               /\ keeps f r r').
    { eexists. split; [reflexivity|].
      eapply keeps_trans; [apply keeps_error | apply keeps_emit]. }
    destruct kind; try exact Hother.
    destruct (visit_returns (Generic (Identifier text) range children) r)
      as [r1 [Hv Hvis]]; [exact Hd|].
    rewrite Hv. eexists. split; [reflexivity|].
    eapply keeps_mono; [|apply visited_keeps; exact Hvis]. exact Hd.
  - assert (Hcallee : height callee <= f) by (simpl in Hd; lia).
    destruct (visit_returns callee r Hcallee) as [r1 [Hv Hvis]].
    rewrite Hv.
    assert (Hk1 : keeps f r r1).
    { eapply keeps_mono; [|apply visited_keeps; exact Hvis]. exact Hcallee. }
    destruct args as [|a args].
    + eexists. split; [reflexivity | exact Hk1].
    + destruct (emitArguments_returns (a :: args) (emit ", args: [" r1))
        as [r2 [Ha Hk2]].
      { intros a' Ha'. pose proof (fold_max_le _ height (a :: args) a' Ha').
        simpl in Hd. simpl in H. lia. }
      rewrite Ha. eexists. split; [reflexivity|].
      eapply keeps_trans; [exact Hk1|].
      eapply keeps_trans; [apply keeps_emit|].
      eapply keeps_trans; [exact Hk2 | apply keeps_emit].
  - eexists. split; [reflexivity|].
    eapply keeps_trans; [apply keeps_error | apply keeps_emit].
Qed.

Lemma emitDecorator_returns (d : Decorator) (r : Rewriter) :
  height (d_expression d) <= f ->
  exists r' inner,
    emitDecorator (visit f) d r = Some r'
    /\ keeps f r r'
    /\ output r' = output r ++ Emitted "{ type: " :: inner ++ [Emitted " }"].
Proof.
  intros Hd. unfold emitDecorator.
  destruct (emitDecoratorExpression_returns (d_expression d) (emit "{ type: " r) Hd)
    as [r1 [He Hk]].
  rewrite He. destruct (proj1 Hk) as [_ [inner Hinner]].
  eexists. exists inner. split; [reflexivity|]. split.
  - eapply keeps_trans; [apply keeps_emit|].
    eapply keeps_trans; [exact Hk | apply keeps_emit].
  - simpl. rewrite Hinner. simpl. rewrite <- !app_assoc. reflexivity.
Qed.

Lemma emitDecorators_returns (sep : string) (ds : list Decorator) :
  forall r,
    (forall d, In d ds -> height (d_expression d) <= f) ->
    exists r', emitDecorators (visit f) sep ds r = Some r' /\ keeps f r r'.
Proof.
  induction ds as [|d ds IH]; intros r Hh; simpl.
  - exists r. split; [reflexivity | apply keeps_refl].
  - destruct (emitDecorator_returns d r) as [r1 [inner [He1 [Hk1 _]]]];
      [apply Hh; simpl; auto|].
    rewrite He1.
    destruct (IH (emit sep r1)) as [r' [He Hk]];
      [intros d' Hd'; apply Hh; simpl; auto|].
    exists r'. split; [exact He|].
    eapply keeps_trans; [exact Hk1|]. eapply keeps_trans; [apply keeps_emit | exact Hk].
Qed.

Lemma emitCtorParameter_returns (this : DecoratorClassVisitor) (param : CtorParameter)
    (r : Rewriter) :
  (forall d, In d (ctorParameterDecorators param) -> height (d_expression d) <= f) ->
  exists r', emitCtorParameter (visit f) this param r = Some r' /\ keeps f r r'.
Proof.
  intros Hh. unfold emitCtorParameter.
  destruct param as [[ctor decs]|].
  - set (r1 := emit ", " _).
    assert (Hk1 : keeps f r r1).
    { subst r1. eapply keeps_trans; [apply keeps_emit|].
      eapply keeps_trans; [|apply keeps_emit].
      destruct ctor as [[typeSymbol typeStr]|]; [|apply keeps_emit].
      destruct (getValueIdentifierForType this typeSymbol);
        [apply keeps_writeRange | apply keeps_emit]. }
    destruct decs as [ds|].
    + destruct (emitDecorators_returns ", " ds (emit "decorators: [" r1))
        as [r2 [He Hk2]]; [exact Hh|].
      rewrite He. eexists. split; [reflexivity|].
      eapply keeps_trans; [exact Hk1|].
      eapply keeps_trans; [apply keeps_emit|].
      eapply keeps_trans; [exact Hk2|].
      eapply keeps_trans; apply keeps_emit.
    + eexists. split; [reflexivity|].
      eapply keeps_trans; [exact Hk1 | apply keeps_emit].
  - eexists. split; [reflexivity | apply keeps_emit].
Qed.

Lemma emitCtorParameters_returns (this : DecoratorClassVisitor)
    (params : list CtorParameter) :
  forall r,
    (forall d, In d (flat_map ctorParameterDecorators params) ->
               height (d_expression d) <= f) ->
    exists r', emitCtorParameters (visit f) this params r = Some r' /\ keeps f r r'.
Proof.
  induction params as [|p ps IH]; intros r Hh; simpl.
  - exists r. split; [reflexivity | apply keeps_refl].
  - destruct (emitCtorParameter_returns this p r) as [r1 [He1 Hk1]].
    { intros d Hd. apply Hh. simpl. apply in_or_app. auto. }
    rewrite He1.
    destruct (IH r1) as [r' [He Hk]].
    { intros d Hd. apply Hh. simpl. apply in_or_app. auto. }
    exists r'. split; [exact He|]. eapply keeps_trans; eauto.
Qed.

Lemma emitPropDecorators_returns (names : list string) :
  forall r,
    storedBelow (S f) r ->
    exists r', emitPropDecorators (visit f) names r = Some r' /\ keeps f r r'.
Proof.
  induction names as [|name names IH]; intros r Hs; simpl.
  - exists r. split; [reflexivity | apply keeps_refl].
  - match goal with
    | |- context [emitDecorators (visit f) "," ?ds0 ?r0] =>
        set (ds := ds0); set (r1 := r0)
    end.
    assert (Hk1 : keeps f r r1) by apply keeps_emit.
    assert (Hds : forall d, In d ds -> height (d_expression d) <= f).
    { intros d Hd. subst ds.
      destruct (currentDecoratorConverter r) as [this|] eqn:Ethis; [|destruct Hd].
      destruct (propDecorators this) as [m|] eqn:Em; [|destruct Hd].
      destruct (JsMap.get name m) as [ds'|] eqn:Eg; [|destruct Hd].
      specialize (Hs this Ethis). apply storedDecorators_Forall in Hs.
      destruct Hs as [_ [_ Hs]]. rewrite Em in Hs.
      rewrite Forall_forall in Hs.
      specialize (Hs d (get_flat_map name ds' m Eg d Hd)).
      unfold expressionBelow in Hs. lia. }
    destruct (emitDecorators_returns "," ds r1 Hds) as [r2 [He Hk2]].
    rewrite He.
    assert (Hk12 : keeps f r r2) by (eapply keeps_trans; eauto).
    destruct (IH (emit ("]," +++ JsString.nl) r2)) as [r' [He' Hk]].
    { apply (proj2 (keeps_emit f _ r2)); [lia|]. apply (proj2 Hk12); [lia | exact Hs]. }
    exists r'. split; [exact He'|].
    eapply keeps_trans; [exact Hk12|]. eapply keeps_trans; [apply keeps_emit | exact Hk].
Qed.

Lemma stored_le (r : Rewriter) (this : DecoratorClassVisitor) :
  storedBelow (S f) r -> currentDecoratorConverter r = Some this ->
  forall d, In d (storedDecorators this) -> height (d_expression d) <= f.
Proof.
  intros Hs Hthis d Hd. specialize (Hs this Hthis). rewrite Forall_forall in Hs.
  specialize (Hs d Hd). unfold expressionBelow in Hs. lia.
Qed.

Lemma emitDecoratorsField_returns (r : Rewriter) :
  storedBelow (S f) r ->
  exists r', emitDecoratorsField (visit f) r = Some r' /\ keeps f r r'.
Proof.
  intros Hs. unfold emitDecoratorsField.
  destruct (currentDecoratorConverter r) as [this|] eqn:Ethis;
    [|exists r; split; [reflexivity | apply keeps_refl]].
  destruct (decorators this) as [ds|] eqn:Eds;
    [|exists r; split; [reflexivity | apply keeps_refl]].
  destruct (emitDecorators_returns ("," +++ JsString.nl) ds
              (emit ("static decorators: " +++ decoratorInvocations
                     +++ " = [" +++ JsString.nl) r)) as [r0 [He Hk]].
  { intros d Hd. apply (stored_le r this Hs Ethis).
    unfold storedDecorators. rewrite Eds. apply in_or_app. auto. }
  rewrite He. eexists. split; [reflexivity|].
  eapply keeps_trans; [apply keeps_emit|].
  eapply keeps_trans; [exact Hk | apply keeps_emit].
Qed.

Lemma emitCtorParametersField_returns (r : Rewriter) :
  storedBelow (S f) r ->
  exists r', emitCtorParametersField (visit f) r = Some r' /\ keeps f r r'.
Proof.
  intros Hs. unfold emitCtorParametersField.
  destruct (currentDecoratorConverter r) as [this|] eqn:Ethis;
    [|exists r; split; [reflexivity | apply keeps_refl]].
  destruct (isSome (decorators this) || isSome (ctorParameters this));
    [|exists r; split; [reflexivity | apply keeps_refl]].
  cbv zeta.
  match goal with
  | |- context [emitCtorParameters (visit f) this ?ps ?r0] =>
      destruct (emitCtorParameters_returns this ps r0) as [r2 [He Hk]]
  end.
  { intros d Hd. apply (stored_le r this Hs Ethis).
    unfold storedDecorators. apply in_or_app. right. apply in_or_app. left.
    destruct (ctorParameters this); [exact Hd | destruct Hd]. }
  rewrite He. eexists. split; [reflexivity|].
  eapply keeps_trans; [apply keeps_emit|].
  eapply keeps_trans; [apply keeps_emit|].
  eapply keeps_trans; [exact Hk | apply keeps_emit].
Qed.

Lemma emitPropDecoratorsField_returns (r : Rewriter) :
  storedBelow (S f) r ->
  exists r', emitPropDecoratorsField (visit f) r = Some r' /\ keeps f r r'.
Proof.
  intros Hs. unfold emitPropDecoratorsField.
  destruct (currentDecoratorConverter r) as [this|] eqn:Ethis;
    [|exists r; split; [reflexivity | apply keeps_refl]].
  destruct (propDecorators this) as [m|] eqn:Em;
    [|exists r; split; [reflexivity | apply keeps_refl]].
  cbv zeta.
  match goal with
  | |- context [emitPropDecorators (visit f) ?names ?r0] =>
      destruct (emitPropDecorators_returns names r0) as [r3 [He Hk3]]
  end.
  { apply (proj2 (keeps_emit f _ r)); [lia | exact Hs]. }
  rewrite He. eexists. split; [reflexivity|].
  eapply keeps_trans; [apply keeps_emit|].
  eapply keeps_trans; [exact Hk3 | apply keeps_emit].
Qed.

Lemma emitMetadataAsStaticProperties_returns (r : Rewriter) :
  storedBelow (S f) r ->
  exists r', emitMetadataAsStaticProperties (visit f) r = Some r' /\ keeps f r r'.
Proof.
  intros Hs. unfold emitMetadataAsStaticProperties.
  destruct (emitDecoratorsField_returns r Hs) as [r1 [-> Hk1]].
  assert (Hs1 : storedBelow (S f) r1) by (apply (proj2 Hk1); [lia | exact Hs]).
  destruct (emitCtorParametersField_returns r1 Hs1) as [r2 [-> Hk2]].
  assert (Hs2 : storedBelow (S f) r2) by (apply (proj2 Hk2); [lia | exact Hs1]).
  destruct (emitPropDecoratorsField_returns r2 Hs2) as [r3 [-> Hk3]].
  exists r3. split; [reflexivity|].
  eapply keeps_trans; [exact Hk1|]. eapply keeps_trans; eauto.
Qed.

Lemma storedBelow_mono (h h' : nat) (r : Rewriter) :
  h <= h' -> storedBelow h r -> storedBelow h' r.
Proof.
  intros Hle Hs v Hv. specialize (Hs v Hv). eapply Forall_impl; [|exact Hs].
  unfold expressionBelow. intros d Hd. lia.
Qed.

Lemma enterClass_stored (c : Node) (r : Rewriter) :
  storedBelow (height c) (enterClass c r).
Proof.
  intros v Hv. simpl in Hv. injection Hv as <-. apply newDecoratorClassVisitor_stored.
Qed.

Lemma visitClassContent_returns (c : Node) (r : Rewriter) :
  height c <= S f -> storedBelow (S f) r ->
  exists r',
    visitClassContentIncludingDecorators (visit f) c r true = Some r'
    /\ extends r r'.
Proof.
  intros Hc Hs. unfold visitClassContentIncludingDecorators.
  destruct (endsWithBrace (file_text r) c); simpl;
    [|eexists; split; [reflexivity | apply extends_error]].
  destruct (writeNodeFrom_keeps c (getStart c) (getEnd c - 1) r Hc) as [r1 [Hw Hk1]].
  rewrite Hw.
  destruct (emitMetadataAsStaticProperties_returns r1) as [r2 [He Hk2]].
  { apply (proj2 Hk1); [lia | exact Hs]. }
  rewrite He. eexists. split; [reflexivity|].
  eapply extends_trans; [exact (proj1 Hk1)|].
  eapply extends_trans; [exact (proj1 Hk2) | apply extends_writeRange].
Qed.

Lemma notifyConverter_step (n : Node) (r : Rewriter) :
  extends r (notifyConverter n r)
  /\ currentDecoratorConverter (notifyConverter n r)
     = option_map (gathered n) (currentDecoratorConverter r).
Proof.
  unfold notifyConverter.
  destruct (currentDecoratorConverter r) as [this|] eqn:Ethis.
  - pose proof (beforeProcessNode_fst n this r) as Hfst.
    pose proof (beforeProcessNode_snd n this r) as Hsnd.
    destruct (beforeProcessNode n this r) as [this' r1]. cbn [fst snd] in *.
    destruct Hsnd as [Htext [Hout _]]. subst this'. split; [|reflexivity].
    split; [exact Htext|]. exists []. cbn. rewrite Hout. now rewrite app_nil_r.
  - split; [apply extends_refl | exact Ethis].
Qed.

Lemma scopeNodes_stop (n : Node) : stopsAt n = true -> scopeNodes n = [n].
Proof. intros H. rewrite scopeNodes_eq, H. reflexivity. Qed.

Lemma gatherAll_one (n : Node) (o : option DecoratorClassVisitor) :
  option_map (gatherAll [n]) o = option_map (gathered n) o.
Proof. destruct o; reflexivity. Qed.

Lemma maybeProcess_returns (n : Node) (r : Rewriter) :
  height n <= S f ->
  exists handled r',
    maybeProcess (visit f) n r = Some (handled, r')
    /\ extends r r'
    /\ if handled
       then currentDecoratorConverter r'
            = option_map (gatherAll (scopeNodes n)) (currentDecoratorConverter r)
       else currentDecoratorConverter r'
            = option_map (gathered n) (currentDecoratorConverter r)
            /\ (stopsAt n = false \/ currentDecoratorConverter r = None).
Proof.
  intros Hn. unfold maybeProcess. cbv zeta.
  destruct (notifyConverter_step n r) as [He0 Hc0].
  set (r0 := notifyConverter n r) in *.
  assert (Hplain : stopsAt n = false ->
             exists handled r',
               Some (false, r0) = Some (handled, r') /\ extends r r'
               /\ if handled
                  then currentDecoratorConverter r'
                       = option_map (gatherAll (scopeNodes n))
                           (currentDecoratorConverter r)
                  else currentDecoratorConverter r'
                       = option_map (gathered n) (currentDecoratorConverter r)
                       /\ (stopsAt n = false \/ currentDecoratorConverter r = None)).
  { intros Hstop. exists false, r0. auto. }
  destruct n as [kind range children|range callee tas args|range decls e].
  - destruct kind; try (apply Hplain; reflexivity).
    (* a class declaration *)
    set (c := Generic ClassDeclaration range children) in *.
    destruct (visitClassContent_returns c
                (writeRange (getFullStart c) (getStart c)
                   (set_converter (Some (newDecoratorClassVisitor c [])) r0)))
      as [r4 [Hv He4]]; [exact Hn | |].
    { eapply storedBelow_mono; [exact Hn|]. apply (enterClass_stored c r0). }
    rewrite Hv. exists true. eexists. split; [reflexivity|]. split.
    + eapply extends_trans; [exact He0|].
      eapply extends_trans; [apply extends_set_converter|].
      eapply extends_trans; [apply extends_writeRange|].
      eapply extends_trans; [exact He4 | apply extends_set_converter].
    + rewrite (scopeNodes_stop c eq_refl), gatherAll_one. cbn. exact Hc0.
  - apply Hplain. reflexivity.
  - destruct (currentDecoratorConverter r0) as [this0|] eqn:E0.
    + unfold maybeProcessDecorator.
      destruct (shouldLower (mkDecorator range decls e)) eqn:Elower.
      * exists true. eexists. split; [reflexivity|]. split.
        -- eapply extends_trans; [exact He0 | apply extends_writeRange].
        -- rewrite (scopeNodes_stop (DecoratorNode range decls e) Elower), gatherAll_one.
           cbn. rewrite E0. exact Hc0.
      * exists false, r0. split; [reflexivity|]. split; [exact He0|].
        split; [congruence|]. left. exact Elower.
    + exists false, r0. split; [reflexivity|]. split; [exact He0|].
      split; [congruence|]. right.
      destruct (currentDecoratorConverter r); [discriminate | reflexivity].
Qed.

Lemma visit_step (n : Node) (r : Rewriter) :
  height n <= S f ->
  exists r', visit (S f) n r = Some r' /\ visited n r r'.
Proof.
  intros Hn. simpl.
  destruct (maybeProcess_returns n r Hn) as [handled [r1 [Hm [He1 Hc1]]]].
  rewrite Hm. destruct handled.
  - exists r1. split; [reflexivity|]. split; assumption.
  - destruct Hc1 as [Hc1 Hstop]. unfold writeNode.
    destruct (writeNodeFrom_returns n (getFullStart n) (getEnd n) r1 Hn)
      as [r' [Hw [He Hc]]].
    exists r'. split; [exact Hw|]. split; [eapply extends_trans; eauto|].
    rewrite Hc, Hc1. rewrite scopeNodes_eq.
    destruct Hstop as [Hstop|Hnone].
    + rewrite Hstop. destruct (currentDecoratorConverter r); reflexivity.
    + rewrite Hnone. reflexivity.
Qed.


End Step.

(** The traversal returns whenever the fuel reaches the height of the node,
    it only appends to the output, and the converter in place is shown the
    nodes of the scope. *)
Lemma visit_returns (fuel : nat) :
  forall n r, height n <= fuel -> exists r', visit fuel n r = Some r' /\ visited n r r'.
Proof.
  induction fuel as [|f IH]; intros n r Hn.
  - pose proof (height_positive n). lia.
  - apply visit_step; assumption.
Qed.


(** *** Classes *)

Lemma get_substring (i : nat) (s : string) (c : ascii) :
  String.get i s = Some c -> substring i 1 s = String c EmptyString.
Proof.
  revert i. induction s as [|a s IH]; intros i; [destruct i; discriminate|].
  destruct i as [|i]; simpl.
  - intros [= ->]. destruct s; reflexivity.
  - apply IH.
Qed.

Lemma endsWithBrace_render (text : string) (c : Node) :
  endsWithBrace text c = true ->
  renderPiece text (Copied (getEnd c - 1) (getEnd c)) = "}".
Proof.
  unfold endsWithBrace, renderPiece, JsString.slice.
  destruct (getEnd c) as [|i]; [discriminate|].
  destruct (String.get i text) as [ch|] eqn:E; [|discriminate].
  intros H.
  assert (ch = "}"%char).
  { destruct ch as [[] [] [] [] [] [] [] []]; try discriminate H. reflexivity. }
  subst ch. replace (S i - 1) with i by lia. replace (S i - i) with 1 by lia.
  now apply get_substring.
Qed.

(** How a class declaration is processed, step by step. *)
Lemma visit_class (fuel : nat) (c : Node) (r : Rewriter) :
  isClassDeclaration c = true -> height c <= S fuel ->
  endsWithBrace (file_text r) c = true ->
  exists r1 r2,
    beforeMetadata fuel c r = Some r1
    /\ extends (enterClass c r) r1
    /\ currentDecoratorConverter r1
       = Some (gatherAll (classScope c) (newDecoratorClassVisitor c []))
    /\ storedBelow (S fuel) r1
    /\ emitMetadataAsStaticProperties (visit fuel) r1 = Some r2
    /\ extends r1 r2
    /\ visit (S fuel) c r
       = Some (set_converter (currentDecoratorConverter r)
                 (writeRange (getEnd c - 1) (getEnd c) r2)).
Proof.
  intros Hclass Hc Hbrace.
  destruct c as [kind range children| |]; try discriminate Hclass.
  destruct kind; try discriminate Hclass.
  set (c := Generic ClassDeclaration range children) in *.
  destruct (writeNodeFrom_returns fuel (visit_returns fuel) c (getStart c)
              (getEnd c - 1) (enterClass c r) Hc) as [r1 [Hw [He1 Hc1]]].
  assert (Hs1 : storedBelow (S fuel) r1).
  { assert (Hk : keeps fuel (enterClass c r) r1).
    { eapply shown_keeps; eauto. intros m Hm.
      apply in_flat_map in Hm. destruct Hm as [ch [Hch Hm]].
      apply scopeNodes_height in Hm. apply height_child in Hch. lia. }
    apply (proj2 Hk); [lia|].
    eapply storedBelow_mono; [exact Hc | apply enterClass_stored]. }
  destruct (emitMetadataAsStaticProperties_returns fuel (visit_returns fuel) r1 Hs1)
    as [r2 [Hm Hk2]].
  exists r1, r2. split; [exact Hw|]. split; [exact He1|]. split; [exact Hc1|].
  split; [exact Hs1|]. split; [exact Hm|]. split; [exact (proj1 Hk2)|].
  assert (Hnotify : enterClass c (notifyConverter c r) = enterClass c r
                    /\ currentDecoratorConverter (notifyConverter c r)
                       = currentDecoratorConverter r).
  { unfold notifyConverter.
    destruct (currentDecoratorConverter r) as [this|] eqn:Ethis; cbn.
    - split; reflexivity.
    - split; [reflexivity | congruence]. }
  destruct Hnotify as [Henter Hold].
  cbn [visit]. unfold maybeProcess. cbv zeta. fold c.
  change (writeRange (getFullStart c) (getStart c)
            (set_converter (Some (newDecoratorClassVisitor c []))
               (notifyConverter c r)))
    with (enterClass c (notifyConverter c r)).
  rewrite Henter, Hold.
  unfold visitClassContentIncludingDecorators.
  change (file_text (enterClass c r)) with (file_text r). rewrite Hbrace. cbn [negb].
  unfold beforeMetadata in Hw. rewrite Hw, Hm. reflexivity.
Qed.

(** A lowerable decorator met with a converter in place is handled: only the
    range before it is written. *)
Lemma visit_lowered_decorator (fuel : nat) (range : TextRange)
    (declarations : list DeclarationNode) (expression : Node) (r : Rewriter)
    (this : DecoratorClassVisitor) :
  currentDecoratorConverter r = Some this ->
  shouldLower (mkDecorator range declarations expression) = true ->
  exists r',
    visit (S fuel) (DecoratorNode range declarations expression) r = Some r'
    /\ output r' = output r ++ [Copied (pos range) (start range)]
    /\ file_text r' = file_text r
    /\ diagnostics r' = diagnostics r
    /\ currentDecoratorConverter r' = Some this.
Proof.
  intros Hthis Hlower. eexists. split.
  - cbn [visit]. unfold maybeProcess, notifyConverter. cbv zeta.
    rewrite Hthis. cbn [beforeProcessNode set_converter currentDecoratorConverter].
    unfold maybeProcessDecorator. rewrite Hlower. reflexivity.
  - cbn. repeat split; reflexivity.
Qed.

(** C7. Every decorator the downleveler lowers is handled by writing only
    the range from its full start to its start, the whitespace (and
    comments) before it, so that its own text is left out of the output; and
    the static metadata block of a class is emitted immediately before the
    last character of the class, its closing brace. *)
Theorem lowered_decorator_suppressed_and_metadata_before_brace :
  (forall (fuel : nat) (range : TextRange) (declarations : list DeclarationNode)
          (expression : Node) (r : Rewriter) (this : DecoratorClassVisitor),
      currentDecoratorConverter r = Some this ->
      shouldLower (mkDecorator range declarations expression) = true ->
      exists r',
        visit (S fuel) (DecoratorNode range declarations expression) r = Some r'
        /\ output r' = output r ++ [Copied (pos range) (start range)]
        /\ renderPiece (file_text r') (Copied (pos range) (start range))
           = JsString.slice (pos range) (start range) (file_text r)
        /\ diagnostics r' = diagnostics r
        /\ currentDecoratorConverter r' = Some this)
  /\
  (forall (fuel : nat) (c : Node) (r : Rewriter),
      isClassDeclaration c = true -> height c <= S fuel ->
      endsWithBrace (file_text r) c = true ->
      exists r1 block r',
        beforeMetadata fuel c r = Some r1
        /\ metadataBlock fuel c r = Some block
        /\ visit (S fuel) c r = Some r'
        /\ output r' = output r1 ++ block ++ [Copied (getEnd c - 1) (getEnd c)]
        /\ renderPiece (file_text r') (Copied (getEnd c - 1) (getEnd c)) = "}").
Proof.
  split.
  - intros fuel range declarations expression r this Hthis Hlower.
    destruct (visit_lowered_decorator fuel range declarations expression r this
                Hthis Hlower) as [r' [Hv [Ho [Ht [Hd Hc]]]]].
    exists r'. split; [exact Hv|]. split; [exact Ho|]. split; [|split; assumption].
    cbn [renderPiece]. now rewrite Ht.
  - intros fuel c r Hclass Hc Hbrace.
    destruct (visit_class fuel c r Hclass Hc Hbrace)
      as [r1 [r2 [Hb [He1 [_ [_ [Hm [He2 Hv]]]]]]]].
    exists r1, (emittedPieces r1 r2). eexists.
    split; [exact Hb|]. split; [|split; [exact Hv|]].
    + unfold metadataBlock. rewrite Hb, Hm. reflexivity.
    + split.
      * cbn. rewrite (extends_emittedPieces r1 r2 He2). now rewrite <- app_assoc.
      * cbn [file_text set_converter writeRange set_output].
        rewrite (proj1 He2), (proj1 He1). apply endsWithBrace_render. exact Hbrace.
Qed.

(** On [@Comp() class C { }]: the decorator leaves only the (empty) range
    before it, and the metadata comes right before the closing brace. *)
Lemma lowered_decorator_suppressed_and_metadata_before_brace_witness :
  (exists r',
      visit 3 (DecoratorNode (mkRange 0 0 7)
                 [DecoratorExamples.annotationDeclaration]
                 DecoratorExamples.componentCall)
        (enterClass DecoratorExamples.componentClass
           (newDecoratorRewriter DecoratorExamples.componentText)) = Some r'
      /\ output r' = [Copied 0 0; Copied 0 0])
  /\
  (exists r1 block r',
      metadataBlock 3 DecoratorExamples.componentClass
        (newDecoratorRewriter DecoratorExamples.componentText) = Some block
      /\ visit 4 DecoratorExamples.componentClass
           (newDecoratorRewriter DecoratorExamples.componentText) = Some r'
      /\ output r' = output r1 ++ block ++ [Copied 18 19]
      /\ block <> []).
Proof.
  split.
  - destruct (proj1 lowered_decorator_suppressed_and_metadata_before_brace 2
                (mkRange 0 0 7) [DecoratorExamples.annotationDeclaration]
                DecoratorExamples.componentCall
                (enterClass DecoratorExamples.componentClass
                   (newDecoratorRewriter DecoratorExamples.componentText))
                (newDecoratorClassVisitor DecoratorExamples.componentClass [])
                eq_refl eq_refl) as [r' [Hv [Ho _]]].
    exists r'. split; [exact Hv | exact Ho].
  - destruct (proj2 lowered_decorator_suppressed_and_metadata_before_brace 3
                DecoratorExamples.componentClass
                (newDecoratorRewriter DecoratorExamples.componentText)
                eq_refl) as [r1 [block [r' [_ [Hb [Hv [Ho _]]]]]]].
    + vm_compute. lia.
    + reflexivity.
    + exists r1, block, r'. split; [exact Hb|]. split; [exact Hv|]. split; [exact Ho|].
      vm_compute in Hb. injection Hb as <-. discriminate.
Defined.

(** *** The metadata of one decorator *)

Lemma emitArguments_pieces (fuel : nat) (arguments : list Node) :
  forall r,
    (forall a, In a arguments -> height a <= S fuel) ->
    exists r' argumentPieces,
      emitArguments (visit fuel) arguments r = Some r'
      /\ Forall2 (fun arg pieces =>
                    exists ra ra',
                      writeNodeFrom (visit fuel) arg (getStart arg) (getEnd arg) ra
                      = Some ra'
                      /\ pieces = emittedPieces ra ra')
                 arguments argumentPieces
      /\ output r'
         = output r ++ flat_map (fun pieces => pieces ++ [Emitted ", "]) argumentPieces.
Proof.
  induction arguments as [|a args IH]; intros r Hh; cbn [emitArguments].
  - exists r, []. split; [reflexivity|]. split; [constructor|].
    cbn. now rewrite app_nil_r.
  - destruct (writeNodeFrom_returns fuel (visit_returns fuel) a (getStart a) (getEnd a) r)
      as [r1 [Hw [He1 _]]]; [apply Hh; simpl; auto|].
    rewrite Hw.
    destruct (IH (emit ", " r1)) as [r' [blocks [He [Hall Hout]]]];
      [intros a' Ha'; apply Hh; simpl; auto|].
    exists r', (emittedPieces r r1 :: blocks). split; [exact He|]. split.
    + constructor; [|exact Hall]. exists r, r1. auto.
    + rewrite Hout. cbn. rewrite (extends_emittedPieces r r1 He1).
      rewrite <- !app_assoc. reflexivity.
Qed.

(** C6. For a lowered decorator whose expression is a call, the metadata
    entry is [{ type: ] followed by the callee and, only when the call has
    arguments, [, args: []] holding exactly the arguments of the call, each
    written from its start and followed by a comma; a call without arguments
    yields the type key alone. *)
Theorem emitDecorator_call_args_only_when_present
    (fuel : nat) (d : Decorator) (r : Rewriter)
    (range : TextRange) (callee : Node) (typeArguments arguments : list Node) :
  d_expression d = CallExpression range callee typeArguments arguments ->
  height (d_expression d) <= fuel ->
  exists r' calleePieces argumentPieces,
    emitDecorator (visit fuel) d r = Some r'
    /\ (exists r1,
           visit fuel callee (emit "{ type: " r) = Some r1
           /\ calleePieces = emittedPieces (emit "{ type: " r) r1)
    /\ Forall2 (fun arg pieces =>
                  exists ra ra',
                    writeNodeFrom (visit fuel) arg (getStart arg) (getEnd arg) ra
                    = Some ra'
                    /\ pieces = emittedPieces ra ra')
               arguments argumentPieces
    /\ output r'
       = output r ++ [Emitted "{ type: "] ++ calleePieces
         ++ match arguments with
            | [] => []
            | _ :: _ =>
                Emitted ", args: ["
                :: flat_map (fun pieces => pieces ++ [Emitted ", "]) argumentPieces
                ++ [Emitted "]"]
            end
         ++ [Emitted " }"].
Proof.
  intros Hexpr Hfuel. unfold emitDecorator. rewrite Hexpr in *. cbn [emitDecoratorExpression].
  assert (Hcallee : height callee <= fuel) by (simpl in Hfuel; lia).
  destruct (visit_returns fuel callee (emit "{ type: " r) Hcallee) as [r1 [Hv [He1 _]]].
  pose proof (extends_emittedPieces _ _ He1) as Hout1.
  set (calleePieces := emittedPieces (emit "{ type: " r) r1) in *.
  cbn [output emit set_output] in Hout1.
  destruct arguments as [|a args].
  - exists (emit " }" r1), calleePieces, [].
    split; [rewrite Hv; reflexivity|].
    split; [exists r1; split; [exact Hv | reflexivity]|].
    split; [constructor|].
    cbn [output emit set_output]. rewrite Hout1.
    repeat (rewrite <- ?app_assoc; cbn [app]). reflexivity.
  - destruct (emitArguments_pieces fuel (a :: args) (emit ", args: [" r1))
      as [r2 [blocks [Ha [Hall Hout2]]]].
    { intros a' Ha'. pose proof (fold_max_le _ height (a :: args) a' Ha') as Hle.
      simpl in Hfuel. simpl in Hle. lia. }
    exists (emit " }" (emit "]" r2)), calleePieces, blocks.
    split; [rewrite Hv, Ha; reflexivity|].
    split; [exists r1; split; [exact Hv | reflexivity]|].
    split; [exact Hall|].
    cbn [output emit set_output]. rewrite Hout2.
    cbn [output emit set_output]. rewrite Hout1.
    repeat (rewrite <- ?app_assoc; cbn [app]). reflexivity.
Qed.

(** [@Comp(1, x)] yields [{ type: Comp, args: [1, x, ] }]. *)
Lemma emitDecorator_call_args_only_when_present_witness :
  exists r',
    emitDecorator (visit 3) DecoratorExamples.argumentsDecorator
      (newDecoratorRewriter DecoratorExamples.argumentsText) = Some r'
    /\ fst (getOutput r') = "{ type: Comp, args: [1, x, ] }".
Proof.
  destruct (emitDecorator_call_args_only_when_present 3
              DecoratorExamples.argumentsDecorator
              (newDecoratorRewriter DecoratorExamples.argumentsText)
              (mkRange 1 1 11) (DecoratorExamples.leaf (Identifier "Comp") 1 1 5) []
              [DecoratorExamples.leaf OtherKind 6 6 7;
               DecoratorExamples.leaf (Identifier "x") 8 9 10]
              eq_refl) as [r' [calleePieces [argumentPieces [He _]]]].
  - vm_compute. lia.
  - exists r'. split; [exact He|].
    vm_compute in He. injection He as <-. reflexivity.
Defined.

(** *** Methods with a name that is not an identifier *)




(** *** What the visitor gathers *)

Lemma find_app_last {A : Type} (f : A -> bool) (l : list A) (x : A) :
  find f (l ++ [x])
  = match find f l with
    | Some y => Some y
    | None => if f x then Some x else None
    end.
Proof.
  induction l as [|y l IH]; cbn; [reflexivity|].
  destruct (f y); [reflexivity | exact IH].
Qed.

Lemma gatherParameter_step (ps : list CtorParameter) (has : bool) (p : Node) :
  gatherParameter (ps, has) p
  = (ps ++ [ctorParameterOf p],
     if isDecorated p then (0 <? List.length (decoratorsToLower p))%nat else has).
Proof.
  unfold gatherParameter, ctorParameterOf, isDecorated.
  destruct (decoratorsOf p) as [|d ds]; cbn [isSome];
    destruct (isSome (paramCtorOf p)); reflexivity.
Qed.

(** The loop of [gatherConstructor]: one entry for each parameter, in order,
    and a flag that the last parameter with decorators decides. *)
Lemma gatherParameters_fold (params : list Node) :
  forall ps has,
    fold_left gatherParameter params (ps, has)
    = (ps ++ map ctorParameterOf params,
       match find isDecorated (rev params) with
       | Some p => (0 <? List.length (decoratorsToLower p))%nat
       | None => has
       end).
Proof.
  induction params as [|p params IH]; intros ps has; cbn [fold_left map rev].
  - cbn. now rewrite app_nil_r.
  - rewrite gatherParameter_step, IH, find_app_last, <- app_assoc. cbn [app].
    destruct (find isDecorated (rev params)); [reflexivity|].
    destruct (isDecorated p); reflexivity.
Qed.

(** When [gatherConstructor] records the parameters, it records one entry
    for each parameter of the constructor, in order: [null] for a parameter
    with neither a value type nor decorators, and otherwise its type and its
    lowerable decorators. *)
Theorem gatherConstructor_one_entry_per_parameter (ctor : Node)
    (this : DecoratorClassVisitor) :
  isSome (decorators this) || hasDecoratedParam ctor = true ->
  ctorParameters (gatherConstructor ctor this)
  = Some (map ctorParameterOf (parametersOf ctor))
  /\ decorators (gatherConstructor ctor this) = decorators this
  /\ propDecorators (gatherConstructor ctor this) = propDecorators this.
Proof.
  unfold gatherConstructor, hasDecoratedParam.
  rewrite gatherParameters_fold. cbn [snd app]. intros ->.
  repeat split; reflexivity.
Qed.

Lemma gatherConstructor_one_entry_per_parameter_witness :
  ctorParameters
    (gatherConstructor DecoratorExamples.mixedConstructor
       (set_decorators (Some []) (newDecoratorClassVisitor DecoratorExamples.mixedClass [])))
  = Some (map ctorParameterOf (parametersOf DecoratorExamples.mixedConstructor)).
Proof.
  apply (gatherConstructor_one_entry_per_parameter DecoratorExamples.mixedConstructor
           (set_decorators (Some [])
              (newDecoratorClassVisitor DecoratorExamples.mixedClass []))).
  reflexivity.
Defined.

(** Whether the parameters of a constructor are recorded for a class without
    lowered class decorators is decided by the last parameter that carries
    decorators: the flag is assigned again for every decorated parameter, so
    a lowerable decorator on an earlier parameter does not count when a
    later parameter carries only decorators that are not lowered. *)
Theorem gatherConstructor_last_decorated_parameter_decides (ctor : Node)
    (this : DecoratorClassVisitor) :
  decorators this = None -> ctorParameters this = None ->
  (ctorParameters (gatherConstructor ctor this) <> None
   <-> exists p, lastDecoratedParameter ctor = Some p /\ decoratorsToLower p <> []).
Proof.
  intros Hd Hc. unfold gatherConstructor, lastDecoratedParameter.
  rewrite gatherParameters_fold, Hd. cbn [isSome orb].
  destruct (find isDecorated (rev (parametersOf ctor))) as [p|].
  - destruct (decoratorsToLower p) as [|d ds] eqn:El; cbn.
    + rewrite Hc. split; [congruence|]. intros [q [[= <-] Hq]]. congruence.
    + split; [|discriminate]. intros _. exists p. split; [reflexivity|].
      rewrite El. discriminate.
  - rewrite Hc. split; [congruence|]. intros [q [[=] _]].
Qed.

(** [constructor(@In a, @Plain b)]: the lowerable [@In] is not recorded,
    since the last decorated parameter has only [@Plain]. *)
Lemma gatherConstructor_last_decorated_parameter_decides_witness :
  ~ (exists p, lastDecoratedParameter DecoratorExamples.mixedConstructor = Some p
               /\ decoratorsToLower p <> [])
  /\ ctorParameters
       (gatherConstructor DecoratorExamples.mixedConstructor
          (newDecoratorClassVisitor DecoratorExamples.mixedClass [])) = None.
Proof.
  assert (Hiff := gatherConstructor_last_decorated_parameter_decides
                    DecoratorExamples.mixedConstructor
                    (newDecoratorClassVisitor DecoratorExamples.mixedClass [])
                    eq_refl eq_refl).
  split; [|reflexivity].
  intros Hex. apply (proj2 Hiff) in Hex. apply Hex. reflexivity.
Defined.

(** A property, method or accessor named by an identifier, with lowerable
    decorators, is recorded under its name: the entry of the name holds its
    lowerable decorators (replacing an entry an earlier member of that name
    left), the entries of the other names are kept, and nothing is
    reported. *)
Theorem gatherMethodOrProperty_records_by_name (method : Node)
    (this : DecoratorClassVisitor) (r : Rewriter) (name : string) :
  identifierName method = Some name -> decoratorsToLower method <> [] ->
  exists map,
    propDecorators (fst (gatherMethodOrProperty method this r)) = Some map
    /\ JsMap.get name map = Some (decoratorsToLower method)
    /\ (forall other, other <> name ->
                      JsMap.get other map
                      = match propDecorators this with
                        | Some before => JsMap.get other before
                        | None => None
                        end)
    /\ snd (gatherMethodOrProperty method this r) = r
    /\ decorators (fst (gatherMethodOrProperty method this r)) = decorators this
    /\ ctorParameters (fst (gatherMethodOrProperty method this r)) = ctorParameters this.
Proof.
  intros Hname Hlower. unfold gatherMethodOrProperty.
  unfold identifierName in Hname. unfold decoratorsToLower in *.
  destruct (decoratorsOf method) as [|d ds]; [contradiction Hlower; reflexivity|].
  destruct (nameOf method) as [[[]| |]|]; try discriminate Hname.
  injection Hname as ->.
  destruct (filter shouldLower (d :: ds)) as [|d' ds'] eqn:El; [contradiction|].
  cbn [List.length Nat.eqb fst snd set_propDecorators propDecorators decorators
       ctorParameters].
  eexists. split; [reflexivity|]. split; [apply JsMapFacts.get_set_same|].
  split; [|repeat split].
  intros other Hother. rewrite (JsMapFacts.get_set_other _ _ Hother).
  destruct (propDecorators this); reflexivity.
Qed.

Lemma gatherMethodOrProperty_records_by_name_witness :
  exists map,
    propDecorators
      (fst (gatherMethodOrProperty DecoratorExamples.propertyMember
              (newDecoratorClassVisitor DecoratorExamples.propertyClass [])
              (newDecoratorRewriter DecoratorExamples.propertyText))) = Some map
    /\ JsMap.get "x" map = Some (decoratorsToLower DecoratorExamples.propertyMember).
Proof.
  destruct (gatherMethodOrProperty_records_by_name DecoratorExamples.propertyMember
              (newDecoratorClassVisitor DecoratorExamples.propertyClass [])
              (newDecoratorRewriter DecoratorExamples.propertyText) "x")
    as [map [Hmap [Hget _]]].
  - reflexivity.
  - discriminate.
  - exists map. split; [exact Hmap | exact Hget].
Defined.

(** *** The static decorators field *)



(** *** When a class receives metadata *)







(** What each block of [emitMetadataAsStaticProperties] writes first. *)
Lemma emitDecoratorsField_pieces (fuel : nat) (r r' : Rewriter)
    (this : DecoratorClassVisitor) :
  storedBelow (S fuel) r -> currentDecoratorConverter r = Some this ->
  emitDecoratorsField (visit fuel) r = Some r' ->
  if isSome (decorators this)
  then exists more, output r' = output r ++ staticDecoratorsHeader :: more
  else r' = r.
Proof.
  intros Hs Hthis. unfold emitDecoratorsField. rewrite Hthis.
  destruct (decorators this) as [ds|] eqn:Eds; cbn [isSome];
    [|intros [= <-]; reflexivity].
  destruct (emitDecorators_returns fuel (visit_returns fuel) ("," +++ JsString.nl) ds
              (emit ("static decorators: " +++ decoratorInvocations
                     +++ " = [" +++ JsString.nl) r)) as [r0 [He Hk]].
  { intros d Hd. apply (stored_le fuel r this Hs Hthis).
    unfold storedDecorators. rewrite Eds. apply in_or_app. auto. }
  rewrite He. intros [= <-].
  destruct (proj1 Hk) as [_ [more Hmore]].
  exists (more ++ [Emitted ("];" +++ JsString.nl)]).
  cbn [emit output set_output] in *. rewrite Hmore.
  unfold staticDecoratorsHeader.
  repeat (rewrite <- ?app_assoc; cbn [app]). reflexivity.
Qed.

Lemma emitCtorParametersField_pieces (fuel : nat) (r r' : Rewriter)
    (this : DecoratorClassVisitor) :
  storedBelow (S fuel) r -> currentDecoratorConverter r = Some this ->
  emitCtorParametersField (visit fuel) r = Some r' ->
  if isSome (decorators this) || isSome (ctorParameters this)
  then exists more,
      output r' = output r ++ Emitted ("/** @nocollapse */" +++ JsString.nl) :: more
  else r' = r.
Proof.
  intros Hs Hthis. unfold emitCtorParametersField. rewrite Hthis.
  destruct (isSome (decorators this) || isSome (ctorParameters this));
    [|intros [= <-]; reflexivity].
  cbv zeta.
  match goal with
  | |- context [emitCtorParameters (visit fuel) this ?ps ?r0] =>
      destruct (emitCtorParameters_returns fuel (visit_returns fuel) this ps r0)
        as [r1 [He Hk]]
  end.
  { intros d Hd. apply (stored_le fuel r this Hs Hthis).
    unfold storedDecorators. apply in_or_app. right. apply in_or_app. left.
    destruct (ctorParameters this); [exact Hd | destruct Hd]. }
  rewrite He. intros [= <-].
  destruct (proj1 Hk) as [_ [more Hmore]].
  eexists. cbn [emit output set_output] in *. rewrite Hmore.
  repeat (rewrite <- ?app_assoc; cbn [app]). reflexivity.
Qed.

Lemma emitPropDecoratorsField_pieces (fuel : nat) (r r' : Rewriter)
    (this : DecoratorClassVisitor) :
  storedBelow (S fuel) r -> currentDecoratorConverter r = Some this ->
  emitPropDecoratorsField (visit fuel) r = Some r' ->
  if isSome (propDecorators this)
  then exists more, output r' = output r ++ staticPropDecoratorsHeader :: more
  else r' = r.
Proof.
  intros Hs Hthis. unfold emitPropDecoratorsField. rewrite Hthis.
  destruct (propDecorators this) as [m|] eqn:Em; cbn [isSome];
    [|intros [= <-]; reflexivity].
  cbv zeta.
  match goal with
  | |- context [emitPropDecorators (visit fuel) ?names ?r0] =>
      destruct (emitPropDecorators_returns fuel (visit_returns fuel) names r0)
        as [r1 [He Hk]]
  end.
  { apply (proj2 (keeps_emit fuel _ r)); [lia | exact Hs]. }
  rewrite He. intros [= <-].
  destruct (proj1 Hk) as [_ [more Hmore]].
  eexists. cbn [emit output set_output] in *. rewrite Hmore.
  unfold staticPropDecoratorsHeader.
  repeat (rewrite <- ?app_assoc; cbn [app]). reflexivity.
Qed.

Lemma emittedPieces_same (r : Rewriter) : emittedPieces r r = [].
Proof. apply emittedPieces_app. now rewrite app_nil_r. Qed.

Lemma emittedPieces_nonempty (r r1 r2 : Rewriter) (p : Piece) (more : list Piece) :
  output r1 = output r ++ p :: more -> extends r1 r2 -> emittedPieces r r2 <> [].
Proof.
  intros H1 [_ [d Hd]].
  rewrite (emittedPieces_app r r2 (p :: more ++ d)); [discriminate|].
  rewrite Hd, H1. now rewrite <- app_assoc.
Qed.

(** Something is emitted exactly when the visitor holds one of the three
    fields. *)
Lemma emitMetadataAsStaticProperties_nonempty (fuel : nat) (r r' : Rewriter)
    (this : DecoratorClassVisitor) :
  storedBelow (S fuel) r -> currentDecoratorConverter r = Some this ->
  emitMetadataAsStaticProperties (visit fuel) r = Some r' ->
  emittedPieces r r' <> []
  <-> isSome (decorators this) || isSome (ctorParameters this)
      || isSome (propDecorators this) = true.
Proof.
  intros Hs Hthis Hm. unfold emitMetadataAsStaticProperties in Hm.
  destruct (emitDecoratorsField_returns fuel (visit_returns fuel) r Hs)
    as [ra [Ea Hka]].
  rewrite Ea in Hm.
  assert (Hsa : storedBelow (S fuel) ra) by (apply (proj2 Hka); [lia | exact Hs]).
  destruct (emitCtorParametersField_returns fuel (visit_returns fuel) ra Hsa)
    as [rb [Eb Hkb]].
  rewrite Eb in Hm.
  assert (Hsb : storedBelow (S fuel) rb) by (apply (proj2 Hkb); [lia | exact Hsa]).
  destruct (emitPropDecoratorsField_returns fuel (visit_returns fuel) rb Hsb)
    as [rc [Ec Hkc]].
  rewrite Ec in Hm. injection Hm as <-.
  assert (Ha := emitDecoratorsField_pieces fuel r ra this Hs Hthis Ea).
  destruct (isSome (decorators this)) eqn:Ed.
  { destruct Ha as [more Hmore]. split; [reflexivity | intros _].
    eapply emittedPieces_nonempty; [exact Hmore|].
    eapply extends_trans; [exact (proj1 Hkb) | exact (proj1 Hkc)]. }
  subst ra.
  assert (Hb := emitCtorParametersField_pieces fuel r rb this Hs Hthis Eb).
  rewrite Ed in Hb. cbn [orb] in *.
  destruct (isSome (ctorParameters this)) eqn:Ep.
  { destruct Hb as [more Hmore]. split; [reflexivity | intros _].
    eapply emittedPieces_nonempty; [exact Hmore | exact (proj1 Hkc)]. }
  subst rb.
  assert (Hc := emitPropDecoratorsField_pieces fuel r rc this Hs Hthis Ec).
  cbn [orb].
  destruct (isSome (propDecorators this)) eqn:Eq.
  { destruct Hc as [more Hmore]. split; [reflexivity | intros _].
    eapply emittedPieces_nonempty; [exact Hmore | apply extends_refl]. }
  subst rc. rewrite emittedPieces_same. split; [congruence | discriminate].
Qed.












(** *** The traversal as a whole *)

(** While a node is visited, the visitor in place is shown
    ([beforeProcessNode]) the node and what lies below it, in the order of
    the text, except what lies below a class declaration or below a lowered
    decorator: afterwards it is the visitor that has gathered these nodes,
    one after the other. Class expressions are no boundary: their members
    are gathered for the class declaration around them. *)
Theorem visit_shows_scope_to_converter (fuel : nat) (n : Node) (r : Rewriter)
    (this : DecoratorClassVisitor) :
  currentDecoratorConverter r = Some this -> height n <= fuel ->
  exists r',
    visit fuel n r = Some r'
    /\ currentDecoratorConverter r' = Some (gatherAll (scopeNodes n) this)
    /\ file_text r' = file_text r
    /\ exists pieces, output r' = output r ++ pieces.
Proof.
  intros Hthis Hn.
  destruct (visit_returns fuel n r Hn) as [r' [Hv [[Ht Ho] Hconv]]].
  exists r'. split; [exact Hv|]. rewrite Hconv, Hthis. auto.
Qed.

(** The method [m() { return class { @In y; } }] of [A]: afterwards the
    visitor of [A] holds the decorators of [y]. *)
Lemma visit_shows_scope_to_converter_witness :
  exists r',
    visit 7 DecoratorExamples.nestedMethod
      (enterClass DecoratorExamples.nestedClass
         (newDecoratorRewriter DecoratorExamples.nestedText)) = Some r'
    /\ option_map (fun this => option_map (@JsMap.keys (list Decorator))
                                 (propDecorators this))
         (currentDecoratorConverter r')
       = Some (Some ["y"]).
Proof.
  destruct (visit_shows_scope_to_converter 7 DecoratorExamples.nestedMethod
              (enterClass DecoratorExamples.nestedClass
                 (newDecoratorRewriter DecoratorExamples.nestedText))
              (newDecoratorClassVisitor DecoratorExamples.nestedClass []))
    as [r' [Hv [Hconv _]]].
  - reflexivity.
  - vm_compute. lia.
  - exists r'. split; [exact Hv|]. rewrite Hconv. reflexivity.
Defined.

(** A class declaration is given a visitor of its own, and the visitor in
    place before it is in place again afterwards, as it was: what a nested
    class holds is not gathered for the class around it. *)
Theorem visit_class_restores_converter (fuel : nat) (c : Node) (r : Rewriter) :
  isClassDeclaration c = true -> height c <= fuel ->
  exists r',
    visit fuel c r = Some r'
    /\ currentDecoratorConverter r' = currentDecoratorConverter r.
Proof.
  intros Hclass Hc.
  destruct (visit_returns fuel c r Hc) as [r' [Hv [_ Hconv]]].
  exists r'. split; [exact Hv|]. rewrite Hconv.
  destruct c as [kind range children| |]; try discriminate Hclass.
  destruct kind; try discriminate Hclass.
  rewrite (scopeNodes_stop (Generic ClassDeclaration range children) eq_refl).
  destruct (currentDecoratorConverter r); reflexivity.
Qed.

Lemma visit_class_restores_converter_witness :
  exists r',
    visit 4 DecoratorExamples.propertyClass
      (enterClass DecoratorExamples.componentClass
         (newDecoratorRewriter DecoratorExamples.propertyText)) = Some r'
    /\ currentDecoratorConverter r'
       = Some (newDecoratorClassVisitor DecoratorExamples.componentClass []).
Proof.
  apply (visit_class_restores_converter 4 DecoratorExamples.propertyClass
           (enterClass DecoratorExamples.componentClass
              (newDecoratorRewriter DecoratorExamples.propertyText))).
  - reflexivity.
  - vm_compute. lia.
Defined.

(** A class declaration whose last character is not a closing brace is
    reported and left out: only the range before the class is written, one
    diagnostic is added, and the visitor in place is the one before. *)
Theorem visit_class_unexpected_terminator (fuel : nat) (c : Node) (r : Rewriter) :
  isClassDeclaration c = true -> endsWithBrace (file_text r) c = false ->
  exists r',
    visit (S fuel) c r = Some r'
    /\ output r' = output r ++ [Copied (getFullStart c) (getStart c)]
    /\ diagnostics r'
       = diagnostics r ++ [mkDiagnostic (getStart c) "unexpected class terminator"]
    /\ currentDecoratorConverter r' = currentDecoratorConverter r.
Proof.
  intros Hclass Hbrace.
  destruct c as [kind range children| |]; try discriminate Hclass.
  destruct kind; try discriminate Hclass.
  cbn [visit]. unfold maybeProcess, notifyConverter. cbv zeta.
  unfold visitClassContentIncludingDecorators.
  destruct (currentDecoratorConverter r) as [this|] eqn:Ethis.
  - cbn [beforeProcessNode].
    change (file_text (writeRange _ _ (set_converter _ (set_converter (Some this) r))))
      with (file_text r).
    rewrite Hbrace. cbn [negb]. eexists. split; [reflexivity|].
    cbn. repeat split; reflexivity.
  - change (file_text (writeRange _ _ (set_converter _ r))) with (file_text r).
    rewrite Hbrace. cbn [negb]. eexists. split; [reflexivity|].
    cbn. rewrite Ethis. repeat split; reflexivity.
Qed.

Lemma visit_class_unexpected_terminator_witness :
  exists r',
    visit 1 DecoratorExamples.componentClass (newDecoratorRewriter "@Comp() class C { ;")
    = Some r'
    /\ output r' = [Copied 0 0]
    /\ diagnostics r' = [mkDiagnostic 0 "unexpected class terminator"].
Proof.
  destruct (visit_class_unexpected_terminator 0 DecoratorExamples.componentClass
              (newDecoratorRewriter "@Comp() class C { ;") eq_refl eq_refl)
    as [r' [Hv [Ho [Hd _]]]].
  exists r'. split; [exact Hv|]. split; [exact Ho | exact Hd].
Defined.

(** A decorator whose expression is neither an identifier nor a call gets
    the type [undefined] in the metadata, and a diagnostic. *)
Theorem emitDecorator_unsupported_expression
    (visit' : Node -> Rewriter -> option Rewriter) (d : Decorator) (r : Rewriter) :
  (forall text range children, d_expression d <> Generic (Identifier text) range children) ->
  (forall range callee typeArguments arguments,
      d_expression d <> CallExpression range callee typeArguments arguments) ->
  exists r',
    emitDecorator visit' d r = Some r'
    /\ output r' = output r ++ [Emitted "{ type: "; Emitted "undefined"; Emitted " }"]
    /\ diagnostics r'
       = diagnostics (errorUnimplementedKind (d_expression d) "gathering metadata" r)
    /\ List.length (diagnostics r') = S (List.length (diagnostics r))
    /\ currentDecoratorConverter r' = currentDecoratorConverter r.
Proof.
  intros Hid Hcall. unfold emitDecorator, emitDecoratorExpression.
  destruct (d_expression d) as [kind range children|range callee tas args|range decls e]
    eqn:Ee.
  - destruct kind; try (exfalso; eapply Hid; reflexivity);
      (eexists; split; [reflexivity|]; cbn;
       rewrite <- ?app_assoc, ?length_app, ?Nat.add_1_r; repeat split; reflexivity).
  - exfalso. eapply Hcall. reflexivity.
  - eexists. split; [reflexivity|]. cbn.
    rewrite <- ?app_assoc, ?length_app, ?Nat.add_1_r. repeat split; reflexivity.
Qed.

Lemma emitDecorator_unsupported_expression_witness :
  exists r',
    emitDecorator (visit 0)
      (mkDecorator (mkRange 0 0 4) [DecoratorExamples.annotationDeclaration]
         (DecoratorExamples.leaf OtherKind 1 1 4))
      (newDecoratorRewriter "@a.b class C {}") = Some r'
    /\ output r' = [Emitted "{ type: "; Emitted "undefined"; Emitted " }"]
    /\ List.length (diagnostics r') = 1.
Proof.
  destruct (emitDecorator_unsupported_expression (visit 0)
              (mkDecorator (mkRange 0 0 4) [DecoratorExamples.annotationDeclaration]
                 (DecoratorExamples.leaf OtherKind 1 1 4))
              (newDecoratorRewriter "@a.b class C {}"))
    as [r' [He [Ho [_ [Hd _]]]]].
  - discriminate.
  - discriminate.
  - exists r'. split; [exact He|]. split; [exact Ho | exact Hd].
Defined.

(** *** Which decorators are lowered *)

(** For a decorator declared as a variable, the marker is looked for in the
    comments of the variable statement, two levels up, and not in those of
    the declaration or of its list; a variable declaration (or list) without
    a parent is passed over, whatever its own comments say. *)
Theorem shouldLower_reads_variable_statement (range : TextRange) (expression : Node)
    (d list_ statement : DeclarationNode) :
  decl_kind d = VariableDeclaration ->
  (decl_parent d = Some list_ -> decl_kind list_ = VariableDeclarationList ->
   decl_parent list_ = Some statement ->
   shouldLower (mkDecorator range [d] expression)
   = match decl_leadingCommentRanges statement with
     | Some ranges => existsb (commentMarksAnnotation (decl_fullText statement)) ranges
     | None => false
     end)
  /\ (decl_parent d = None -> shouldLower (mkDecorator range [d] expression) = false)
  /\ (decl_parent d = Some list_ -> decl_kind list_ = VariableDeclarationList ->
      decl_parent list_ = None ->
      shouldLower (mkDecorator range [d] expression) = false).
Proof.
  intros Hd. unfold shouldLower, commentNodeOf. cbn [d_declarations existsb].
  rewrite Hd. split; [|split].
  - intros -> -> ->. rewrite orb_false_r. reflexivity.
  - intros ->. reflexivity.
  - intros -> -> ->. reflexivity.
Qed.

Lemma shouldLower_reads_variable_statement_witness :
  shouldLower (mkDecorator (mkRange 0 0 7) [DecoratorExamples.exportedConstant]
                 (DecoratorExamples.leaf (Identifier "Inject") 1 1 7)) = true
  /\ shouldLower (mkDecorator (mkRange 0 0 2) [DecoratorExamples.orphanVariable]
                    (DecoratorExamples.leaf (Identifier "x") 1 1 2)) = false.
Proof.
  split.
  - rewrite (proj1 (shouldLower_reads_variable_statement (mkRange 0 0 7)
                      (DecoratorExamples.leaf (Identifier "Inject") 1 1 7)
                      DecoratorExamples.exportedConstant
                      (mkDeclarationNode VariableDeclarationList
                         (Some DecoratorExamples.markedStatement)
                         " const Inject = make()" None)
                      DecoratorExamples.markedStatement eq_refl));
      reflexivity.
  - apply (proj1 (proj2 (shouldLower_reads_variable_statement (mkRange 0 0 2)
                           (DecoratorExamples.leaf (Identifier "x") 1 1 2)
                           DecoratorExamples.orphanVariable
                           DecoratorExamples.orphanVariable
                           DecoratorExamples.orphanVariable eq_refl))).
    reflexivity.
Defined.

(** *** The value a parameter type names *)

(** The visitor the [DecoratorRewriter] makes for a class knows no imported
    names, and gathering never adds one: for it, the type of a constructor
    parameter is written as an identifier of the file only when the value
    is declared, under an identifier, in the file being rewritten;
    otherwise the type string is emitted. *)
Theorem getValueIdentifierForType_without_imports (c : Node) (nodes : list Node)
    (typeSymbol : Symbol) (range : TextRange) :
  getValueIdentifierForType (gatherAll nodes (newDecoratorClassVisitor c [])) typeSymbol
  = Some range
  <-> exists valueName,
      sym_valueName typeSymbol = Some valueName
      /\ vn_isIdentifier valueName = true
      /\ vn_inRewriterFile valueName = true
      /\ range = vn_range valueName.
Proof.
  assert (Himports : importedNames (gatherAll nodes (newDecoratorClassVisitor c [])) = []).
  { assert (Hstep : forall n v, importedNames (gathered n v) = importedNames v).
    { intros n v. unfold gathered, beforeProcessNode, gatherMethodOrProperty,
        gatherConstructor.
      destruct n as [[]| |]; try reflexivity;
        try (destruct (decoratorsOf _); [reflexivity|];
             destruct (nameOf _) as [[[]| |]|]; try reflexivity;
             destruct (_ =? 0)%nat; reflexivity).
      destruct (fold_left _ _ _) as [ps has].
      destruct (isSome (decorators v) || has); reflexivity. }
    assert (Hall : forall l v, importedNames (gatherAll l v) = importedNames v).
    { induction l as [|n l IH]; intros v; cbn; [reflexivity|].
      unfold gatherAll in IH. now rewrite IH, Hstep. }
    rewrite Hall. unfold newDecoratorClassVisitor.
    destruct (decoratorsOf c); [reflexivity|].
    destruct (0 <? _)%nat; reflexivity. }
  unfold getValueIdentifierForType. rewrite Himports. cbn [filter].
  destruct (sym_valueName typeSymbol) as [valueName|].
  - destruct (vn_isIdentifier valueName) eqn:Eid; cbn [negb].
    + destruct (vn_inRewriterFile valueName) eqn:Efile.
      * split.
        -- intros [= <-]. exists valueName. auto.
        -- intros [vn [[= <-] [_ [_ ->]]]]. reflexivity.
      * split; [discriminate|]. intros [vn [[= <-] [_ [Hf _]]]]. congruence.
    + split; [discriminate|]. intros [vn [[= <-] [Hi _]]]. congruence.
  - split; [discriminate|]. intros [vn [Hvn _]]. discriminate Hvn.
Qed.

(** *** The type annotations of the metadata *)

Lemma typeAnnotationsHelpers_nonempty (this : DecoratorClassVisitor) (r : Rewriter) :
  emittedPieces r (emitMetadataTypeAnnotationsHelpers this r) <> []
  <-> identifierName (classDecl this) <> None
      /\ isSome (decorators this) || isSome (ctorParameters this)
         || isSome (propDecorators this) = true.
Proof.
  unfold emitMetadataTypeAnnotationsHelpers.
  destruct (identifierName (classDecl this)) as [className|].
  - destruct (isSome (decorators this)), (isSome (ctorParameters this)),
      (isSome (propDecorators this)); cbn [orb];
      try (split; [intros _; split; [discriminate | reflexivity] | intros _];
           erewrite emittedPieces_app;
           [|cbn [emit output set_output];
             repeat (rewrite <- ?app_assoc; cbn [app]); reflexivity];
           discriminate).
    rewrite emittedPieces_same. split; [congruence | intros [_ H]; discriminate H].
  - rewrite emittedPieces_same. split; [congruence | intros [H _]; congruence].
Qed.

(** The two emitters of a visitor agree: for a class with a name, the type
    annotations helper declares metadata exactly when
    [emitMetadataAsStaticProperties] emits some, and for a class without a
    name the helper emits nothing. *)
Theorem typeAnnotationsHelpers_agree_with_static_properties (fuel : nat)
    (r r' r0 : Rewriter) (this : DecoratorClassVisitor) :
  storedBelow (S fuel) r -> currentDecoratorConverter r = Some this ->
  emitMetadataAsStaticProperties (visit fuel) r = Some r' ->
  (identifierName (classDecl this) <> None ->
   (emittedPieces r0 (emitMetadataTypeAnnotationsHelpers this r0) <> []
    <-> emittedPieces r r' <> []))
  /\ (identifierName (classDecl this) = None ->
      emitMetadataTypeAnnotationsHelpers this r0 = r0).
Proof.
  intros Hs Hthis Hm. split.
  - intros Hname.
    rewrite typeAnnotationsHelpers_nonempty,
      (emitMetadataAsStaticProperties_nonempty fuel r r' this Hs Hthis Hm).
    tauto.
  - intros Hname. unfold emitMetadataTypeAnnotationsHelpers. now rewrite Hname.
Qed.

Lemma typeAnnotationsHelpers_agree_with_static_properties_witness :
  emittedPieces (newDecoratorRewriter EmptyString)
    (emitMetadataTypeAnnotationsHelpers
       (newDecoratorClassVisitor DecoratorExamples.componentClass [])
       (newDecoratorRewriter EmptyString)) <> [].
Proof.
  assert (Hs : storedBelow 4
                 (enterClass DecoratorExamples.componentClass
                    (newDecoratorRewriter DecoratorExamples.componentText))).
  { intros v Hv. injection Hv as <-. vm_compute. repeat constructor. }
  destruct (emitMetadataAsStaticProperties (visit 3)
              (enterClass DecoratorExamples.componentClass
                 (newDecoratorRewriter DecoratorExamples.componentText)))
    as [r'|] eqn:Hm; [|vm_compute in Hm; discriminate Hm].
  apply (proj1 (typeAnnotationsHelpers_agree_with_static_properties 3
                  (enterClass DecoratorExamples.componentClass
                     (newDecoratorRewriter DecoratorExamples.componentText))
                  r' (newDecoratorRewriter EmptyString)
                  (newDecoratorClassVisitor DecoratorExamples.componentClass [])
                  Hs eq_refl Hm)).
  - discriminate.
  - vm_compute in Hm. injection Hm as <-. vm_compute. discriminate.
Defined.

(** *** The constructor parameters of a class without a gathered constructor *)

(** A class with lowered class decorators always gets a [ctorParameters]
    field: when no constructor was recorded, the field is the [@nocollapse]
    comment and a function that returns the empty list. *)
Theorem emitCtorParametersField_without_constructor
    (visit' : Node -> Rewriter -> option Rewriter) (r : Rewriter)
    (this : DecoratorClassVisitor) :
  currentDecoratorConverter r = Some this ->
  decorators this <> None -> ctorParameters this = None ->
  exists r',
    emitCtorParametersField visit' r = Some r'
    /\ output r' = output r ++ [Emitted ("/** @nocollapse */" +++ JsString.nl);
                                staticCtorParametersHeader;
                                Emitted ("];" +++ JsString.nl)]
    /\ diagnostics r' = diagnostics r
    /\ currentDecoratorConverter r' = Some this.
Proof.
  intros Hthis Hd Hc. unfold emitCtorParametersField. rewrite Hthis, Hc.
  destruct (decorators this); [|contradiction]. cbn [isSome orb emitCtorParameters].
  eexists. split; [reflexivity|]. cbn. rewrite <- !app_assoc.
  split; [reflexivity|]. split; [reflexivity | exact Hthis].
Qed.

Lemma emitCtorParametersField_without_constructor_witness :
  exists r',
    emitCtorParametersField (visit 3)
      (enterClass DecoratorExamples.componentClass
         (newDecoratorRewriter DecoratorExamples.componentText)) = Some r'
    /\ output r' = [Copied 0 0;
                    Emitted ("/** @nocollapse */" +++ JsString.nl);
                    staticCtorParametersHeader;
                    Emitted ("];" +++ JsString.nl)].
Proof.
  destruct (emitCtorParametersField_without_constructor (visit 3)
              (enterClass DecoratorExamples.componentClass
                 (newDecoratorRewriter DecoratorExamples.componentText))
              (newDecoratorClassVisitor DecoratorExamples.componentClass []))
    as [r' [He [Ho _]]].
  - reflexivity.
  - discriminate.
  - reflexivity.
  - exists r'. split; [exact He | exact Ho].
Defined.

(** *** Outside class declarations *)

Lemma copiesOnly_refl (r : Rewriter) :
  currentDecoratorConverter r = None -> copiesOnly r r.
Proof.
  intros Hr. repeat split; [exact Hr|]. exists []. now rewrite app_nil_r.
Qed.

Lemma copiesOnly_trans (r1 r2 r3 : Rewriter) :
  copiesOnly r1 r2 -> copiesOnly r2 r3 -> copiesOnly r1 r3.
Proof.
  intros [Hd1 [_ [Ht1 [p1 [Ho1 Hp1]]]]] [Hd2 [Hc2 [Ht2 [p2 [Ho2 Hp2]]]]].
  repeat split; [congruence | exact Hc2 | congruence|].
  exists (p1 ++ p2). split; [now rewrite Ho2, Ho1, app_assoc|].
  now rewrite forallb_app, Hp1, Hp2.
Qed.

Lemma copiesOnly_writeRange (from to : nat) (r : Rewriter) :
  currentDecoratorConverter r = None -> copiesOnly r (writeRange from to r).
Proof.
  intros Hr. repeat split; [exact Hr|]. exists [Copied from to]. split; reflexivity.
Qed.

Lemma hasClassDeclaration_child (n c : Node) :
  hasClassDeclaration n = false -> In c (forEachChild n) ->
  hasClassDeclaration c = false.
Proof.
  intros Hn Hc.
  destruct (hasClassDeclaration c) eqn:Ec; [|reflexivity].
  rewrite <- Hn. symmetry.
  destruct n as [kind range children|range callee tas args|range decls e];
    cbn [hasClassDeclaration forEachChild] in *.
  - apply orb_true_iff. right. apply existsb_exists.
    apply in_map_iff in Hc. destruct Hc as [rc [<- Hrc]]. exists rc. auto.
  - destruct Hc as [<-|Hc]; [now rewrite Ec|].
    apply in_app_or in Hc. destruct Hc as [Hc|Hc].
    + apply orb_true_iff. left. apply orb_true_iff. right.
      apply existsb_exists. exists c. auto.
    + apply orb_true_iff. right. apply existsb_exists. exists c. auto.
  - destruct Hc as [<-|[]]. exact Ec.
Qed.

Lemma visit_copiesOnly (fuel : nat) :
  forall n r,
    hasClassDeclaration n = false -> currentDecoratorConverter r = None ->
    height n <= fuel ->
    exists r', visit fuel n r = Some r' /\ copiesOnly r r'.
Proof.
  induction fuel as [|f IH]; intros n r Hn Hr Hh.
  - pose proof (height_positive n). lia.
  - assert (Hchildren : forall children pos_ r0,
               (forall c, In c children -> hasClassDeclaration c = false /\ height c <= f) ->
               currentDecoratorConverter r0 = None ->
               exists pos' r',
                 writeChildren (visit f) children pos_ r0 = Some (pos', r')
                 /\ copiesOnly r0 r').
    { induction children as [|c children IHc]; intros pos_ r0 Hall Hr0;
        cbn [writeChildren].
      - exists pos_, r0. split; [reflexivity | now apply copiesOnly_refl].
      - destruct (Hall c (or_introl eq_refl)) as [Hc Hhc].
        destruct (IH c (writeRange pos_ (getFullStart c) r0) Hc Hr0 Hhc)
          as [r1 [Hv H1]].
        rewrite Hv.
        destruct (IHc (getEnd c) r1) as [pos' [r' [Hw H2]]];
          [intros c' Hc'; apply Hall; now right | exact (proj1 (proj2 H1))|].
        exists pos', r'. split; [exact Hw|].
        eapply copiesOnly_trans; [now apply copiesOnly_writeRange|].
        eapply copiesOnly_trans; eassumption. }
    assert (Hprocess : maybeProcess (visit f) n r = Some (false, r)).
    { unfold maybeProcess, notifyConverter. rewrite Hr. cbv zeta.
      destruct n as [kind range children| |];
        [destruct kind; try reflexivity; discriminate Hn
        |reflexivity
        |now rewrite Hr]. }
    cbn [visit]. rewrite Hprocess. unfold writeNode, writeNodeFrom.
    destruct (Hchildren (forEachChild n) (getFullStart n) r) as [pos' [r1 [Hw H1]]];
      [|exact Hr|].
    { intros c Hc. split; [eapply hasClassDeclaration_child; eassumption|].
      apply height_child in Hc. lia. }
    rewrite Hw. eexists. split; [reflexivity|].
    eapply copiesOnly_trans; [exact H1|].
    apply copiesOnly_writeRange. exact (proj1 (proj2 H1)).
Qed.

Lemma copyVisit_converter (fuel : nat) :
  forall n r r', copyVisit fuel n r = Some r' ->
                 currentDecoratorConverter r' = currentDecoratorConverter r.
Proof.
  induction fuel as [|f IH]; intros n r r' Hv; [discriminate Hv|].
  cbn [copyVisit] in Hv. unfold writeNode, writeNodeFrom in Hv.
  assert (Hchildren : forall children pos_ r0 pos' r1,
             writeChildren (copyVisit f) children pos_ r0 = Some (pos', r1) ->
             currentDecoratorConverter r1 = currentDecoratorConverter r0).
  { induction children as [|c children IHc]; intros pos_ r0 pos' r1 Hw;
      cbn [writeChildren] in Hw.
    - injection Hw as _ <-. reflexivity.
    - destruct (copyVisit f c (writeRange pos_ (getFullStart c) r0)) as [r2|] eqn:Hc;
        [|discriminate Hw].
      rewrite (IHc _ _ _ _ Hw), (IH _ _ _ Hc). reflexivity. }
  destruct (writeChildren (copyVisit f) (forEachChild n) (getFullStart n) r)
    as [[pos' r1]|] eqn:Hw; [|discriminate Hv].
  injection Hv as <-. exact (Hchildren _ _ _ _ _ Hw).
Qed.

Lemma visit_copyVisit (fuel : nat) :
  forall n r,
    hasClassDeclaration n = false -> currentDecoratorConverter r = None ->
    visit fuel n r = copyVisit fuel n r.
Proof.
  induction fuel as [|f IH]; intros n r Hn Hr; [reflexivity|].
  assert (Hchildren : forall children pos_ r0,
             (forall c, In c children -> hasClassDeclaration c = false) ->
             currentDecoratorConverter r0 = None ->
             writeChildren (visit f) children pos_ r0
             = writeChildren (copyVisit f) children pos_ r0).
  { induction children as [|c children IHc]; intros pos_ r0 Hall Hr0;
      cbn [writeChildren]; [reflexivity|].
    rewrite (IH c (writeRange pos_ (getFullStart c) r0)
               (Hall c (or_introl eq_refl)) Hr0).
    destruct (copyVisit f c (writeRange pos_ (getFullStart c) r0)) as [r1|] eqn:Hc;
      [|reflexivity].
    apply IHc; [intros c' Hc'; apply Hall; now right|].
    rewrite (copyVisit_converter f _ _ _ Hc). exact Hr0. }
  assert (Hprocess : maybeProcess (visit f) n r = Some (false, r)).
  { unfold maybeProcess, notifyConverter. rewrite Hr. cbv zeta.
    destruct n as [kind range children| |];
      [destruct kind; try reflexivity; discriminate Hn
      |reflexivity
      |now rewrite Hr]. }
  cbn [visit copyVisit]. rewrite Hprocess. unfold writeNode, writeNodeFrom.
  rewrite (Hchildren (forEachChild n) (getFullStart n) r); [reflexivity | | exact Hr].
  intros c Hc. eapply hasClassDeclaration_child; eassumption.
Qed.

(** Outside class declarations the decorator rewriter is the base rewriter:
    on a tree without class declarations (class expressions included), with
    no visitor in place, [visit] does what the copying [visit] of the base
    class does, node by node, so that a decorator there, lowerable or not,
    is written with its expression like any other node; and when the tree
    is no higher than the nesting allowed, the visit returns, reports
    nothing and writes copied ranges only. *)
Theorem visit_without_classes_is_copy (fuel : nat) (n : Node) (r : Rewriter) :
  hasClassDeclaration n = false -> currentDecoratorConverter r = None ->
  visit fuel n r = copyVisit fuel n r
  /\ (height n <= fuel ->
      exists r',
        visit fuel n r = Some r'
        /\ diagnostics r' = diagnostics r
        /\ currentDecoratorConverter r' = None
        /\ exists pieces, output r' = output r ++ pieces
                          /\ forallb isCopied pieces = true).
Proof.
  intros Hn Hr. split; [exact (visit_copyVisit fuel n r Hn Hr)|].
  intros Hh.
  destruct (visit_copiesOnly fuel n r Hn Hr Hh) as [r' [Hv [Hd [Hc [_ Hp]]]]].
  exists r'. auto.
Qed.

(** The lowerable decorator [@In] of a property of a class expression is
    copied with the rest: the ranges written cover the whole text, which is
    the output. *)
Lemma visit_without_classes_is_copy_witness :
  visit 4 DecoratorExamples.classExpression
    (newDecoratorRewriter DecoratorExamples.classExpressionText)
  = copyVisit 4 DecoratorExamples.classExpression
      (newDecoratorRewriter DecoratorExamples.classExpressionText)
  /\ option_map getOutput
       (copyVisit 4 DecoratorExamples.classExpression
          (newDecoratorRewriter DecoratorExamples.classExpressionText))
     = Some (DecoratorExamples.classExpressionText, [])
  /\ shouldLower (mkDecorator (mkRange 7 8 11) [DecoratorExamples.annotationDeclaration]
                    (DecoratorExamples.leaf (Identifier "In") 9 9 11)) = true.
Proof.
  split; [|split; reflexivity].
  apply (visit_without_classes_is_copy 4 DecoratorExamples.classExpression
           (newDecoratorRewriter DecoratorExamples.classExpressionText));
    reflexivity.
Defined.

End DecoratorProperties.
